(** * The AppEvent dispatcher of sw-modules (src/event/event.c)

    A shallow embedding of the event module: the descriptor table
    [m_events], the registration entry points, the trigger path
    ([DoTrigger], [OnEvent], [AppEvent_Trigger]), the timer accessors and
    the main-loop sweep [AppEvent_ProcessMainEvents].

    Unsigned C integers are values of [N]; every increment is written with
    the wrap-around of its width.  The C globals are the fields of [State].
    A function that can stop the program returns an [outcome].

    The text that [DEBUG_PRINTF] and [PRINTF] write to the console is left
    out: it is read by no code.  The calls are taken one at a time, as the
    main loop and each interrupt handler run them; preemption of one call
    by another is not modelled. *)

From stdpp Require Import prelude gmap strings pretty.

Local Open Scope N_scope.

Set Default Proof Using "Type".

Ltac Zify.zify_post_hook ::= Z.to_euclidean_division_equations.

(** ** Machine integers *)

Definition u8 (x : N) : N := x mod 256.
Definition u16 (x : N) : N := x mod 65536.
Definition u32 (x : N) : N := x mod 4294967296.

(** A null pointer: callbacks, GPIO lines and out-parameters are addresses. *)
Definition NULL : N := 0.

(** [#define MAX_EVENTS 32] *)
Definition MAX_EVENTS : N := 32.

(** ** Results of a call

    [Halt] is a failed [ASSERT]; [Undefined] is a read or write outside
    [m_events], or through a pointer that designates no object. *)

Inductive outcome (A : Type) : Type :=
| Ok (a : A)
| Halt
| Undefined.

Arguments Ok {A} a.
Arguments Halt {A}.
Arguments Undefined {A}.

Definition obind {A B : Type} (m : outcome A) (k : A → outcome B) : outcome B :=
  match m with
  | Ok a => k a
  | Halt => Halt
  | Undefined => Undefined
  end.

Notation "x <- m ;; k" := (obind m (fun x => k))
  (at level 100, m at next level, right associativity).
Notation "m ;;; k" := (obind m (fun _ => k))
  (at level 100, right associativity).

(** Modelled from the spec: the [ASSERT] macro of assertion.h, which is not
    among the sources.  Section 7 of the specification makes a violated
    precondition an immediate program halt with no recovery path. *)
Definition ASSERT (b : bool) : outcome unit :=
  if b then Ok tt else Halt.

(** ** Types of AppEvent.h and event.c *)

Inductive APP_EVENT_CONTEXTS : Type :=
| APP_EVENT_CONTEXT_MAIN
| APP_EVENT_CONTEXT_IMMEDIATE.

Inductive EVENT_TYPES : Type :=
| EVENT_TYPE_GENERAL
| EVENT_TYPE_TIMER
| EVENT_TYPE_INTERRUPT.

(** Modelled from the spec: the interrupt modes of gpio.h, which is not
    among the sources.  event.c uses [NO_IRQ] only; the other modes are the
    edges a line can be bound to. *)
Inductive IrqModes : Type :=
| NO_IRQ
| IRQ_RISING_EDGE
| IRQ_FALLING_EDGE
| IRQ_RISING_FALLING_EDGE.

Definition is_main (c : APP_EVENT_CONTEXTS) : bool :=
  match c with APP_EVENT_CONTEXT_MAIN => true | _ => false end.

Definition is_general (t : EVENT_TYPES) : bool :=
  match t with EVENT_TYPE_GENERAL => true | _ => false end.

Definition is_no_irq (m : IrqModes) : bool :=
  match m with NO_IRQ => true | _ => false end.

Record EventDiagnostics_t : Type := mkDiagnostics {
  debugEnable : bool;
  startTime : N;
  triggerCount : N;
  processCount : N
}.

(** Modelled from the spec: the timer handle of timer.h, which is not among
    the sources.  Section 6 lists the service as set-period,
    start-with-context, stop and query-running, and states that the service
    does not repeat a timer by itself. *)
Record TimerEvent_t : Type := mkTimer {
  IsStarted : bool;
  ReloadValue : N;
  Param : option N
}.

Record AppEvent_t : Type := mkEvent {
  name : option string;
  context : APP_EVENT_CONTEXTS;
  callback : N;
  triggered : bool;
  paused : bool;
  single : bool;
  id : N;
  type : EVENT_TYPES;
  timer : TimerEvent_t;
  timeout : N;
  timeoutRandomizer : N;
  irqGpio : N;
  irqMode : IrqModes;
  irqPriority : N;
  diagnostics : EventDiagnostics_t
}.

(** Modelled from the spec: a GPIO line of gpio.h, which is not among the
    sources.  event.c reads [intNo]; the other fields record what the
    bind, unbind and associate-context operations of section 6 did. *)
Record Gpio_t : Type := mkGpio {
  intNo : N;
  irqAttached : bool;
  attachedMode : IrqModes;
  attachedPriority : N;
  hasContext : bool
}.

(** The globals of event.c, the GPIO lines by address, the clock read by
    [TimerGetCurrentTime], the state of [rand], and [dispatched]: a ghost
    log that receives the slot index each time a callback is called, the
    latest call first. *)
Record State : Type := mkState {
  m_numEvents : N;
  m_events : list AppEvent_t;
  m_initialized : bool;
  gpio_lines : gmap N Gpio_t;
  rtc_now : N;
  rand_seed : N;
  dispatched : list N
}.

(** ** Field updates *)

Definition set_triggerCount (n : N) (d : EventDiagnostics_t) : EventDiagnostics_t :=
  mkDiagnostics (debugEnable d) (startTime d) n (processCount d).

Definition set_processCount (n : N) (d : EventDiagnostics_t) : EventDiagnostics_t :=
  mkDiagnostics (debugEnable d) (startTime d) (triggerCount d) n.

Definition set_startTime (n : N) (d : EventDiagnostics_t) : EventDiagnostics_t :=
  mkDiagnostics (debugEnable d) n (triggerCount d) (processCount d).

Definition set_triggered (b : bool) (e : AppEvent_t) : AppEvent_t :=
  mkEvent (name e) (context e) (callback e) b (paused e) (single e) (id e)
    (type e) (timer e) (timeout e) (timeoutRandomizer e) (irqGpio e)
    (irqMode e) (irqPriority e) (diagnostics e).

Definition set_paused (b : bool) (e : AppEvent_t) : AppEvent_t :=
  mkEvent (name e) (context e) (callback e) (triggered e) b (single e) (id e)
    (type e) (timer e) (timeout e) (timeoutRandomizer e) (irqGpio e)
    (irqMode e) (irqPriority e) (diagnostics e).

Definition set_single (b : bool) (e : AppEvent_t) : AppEvent_t :=
  mkEvent (name e) (context e) (callback e) (triggered e) (paused e) b (id e)
    (type e) (timer e) (timeout e) (timeoutRandomizer e) (irqGpio e)
    (irqMode e) (irqPriority e) (diagnostics e).

Definition set_type (t : EVENT_TYPES) (e : AppEvent_t) : AppEvent_t :=
  mkEvent (name e) (context e) (callback e) (triggered e) (paused e) (single e)
    (id e) t (timer e) (timeout e) (timeoutRandomizer e) (irqGpio e)
    (irqMode e) (irqPriority e) (diagnostics e).

Definition set_timer (t : TimerEvent_t) (e : AppEvent_t) : AppEvent_t :=
  mkEvent (name e) (context e) (callback e) (triggered e) (paused e) (single e)
    (id e) (type e) t (timeout e) (timeoutRandomizer e) (irqGpio e)
    (irqMode e) (irqPriority e) (diagnostics e).

Definition set_timeout (n : N) (e : AppEvent_t) : AppEvent_t :=
  mkEvent (name e) (context e) (callback e) (triggered e) (paused e) (single e)
    (id e) (type e) (timer e) n (timeoutRandomizer e) (irqGpio e)
    (irqMode e) (irqPriority e) (diagnostics e).

Definition set_timeoutRandomizer (n : N) (e : AppEvent_t) : AppEvent_t :=
  mkEvent (name e) (context e) (callback e) (triggered e) (paused e) (single e)
    (id e) (type e) (timer e) (timeout e) n (irqGpio e)
    (irqMode e) (irqPriority e) (diagnostics e).

Definition set_irq (gpio : N) (mode : IrqModes) (priority : N) (e : AppEvent_t) : AppEvent_t :=
  mkEvent (name e) (context e) (callback e) (triggered e) (paused e) (single e)
    (id e) (type e) (timer e) (timeout e) (timeoutRandomizer e) gpio
    mode priority (diagnostics e).

Definition set_diagnostics (d : EventDiagnostics_t) (e : AppEvent_t) : AppEvent_t :=
  mkEvent (name e) (context e) (callback e) (triggered e) (paused e) (single e)
    (id e) (type e) (timer e) (timeout e) (timeoutRandomizer e) (irqGpio e)
    (irqMode e) (irqPriority e) d.

Definition set_numEvents (n : N) (s : State) : State :=
  mkState n (m_events s) (m_initialized s) (gpio_lines s) (rtc_now s)
    (rand_seed s) (dispatched s).

Definition set_events (l : list AppEvent_t) (s : State) : State :=
  mkState (m_numEvents s) l (m_initialized s) (gpio_lines s) (rtc_now s)
    (rand_seed s) (dispatched s).

Definition set_initialized (b : bool) (s : State) : State :=
  mkState (m_numEvents s) (m_events s) b (gpio_lines s) (rtc_now s)
    (rand_seed s) (dispatched s).

Definition set_gpio_lines (g : gmap N Gpio_t) (s : State) : State :=
  mkState (m_numEvents s) (m_events s) (m_initialized s) g (rtc_now s)
    (rand_seed s) (dispatched s).

Definition set_rand_seed (r : N) (s : State) : State :=
  mkState (m_numEvents s) (m_events s) (m_initialized s) (gpio_lines s)
    (rtc_now s) r (dispatched s).

(** The ghost record of one callback call, made for slot [i]. *)
Definition log_dispatch (i : N) (s : State) : State :=
  mkState (m_numEvents s) (m_events s) (m_initialized s) (gpio_lines s)
    (rtc_now s) (rand_seed s) (i :: dispatched s).

(** [&m_events[i]] read: outside the array the behaviour is undefined. *)
Definition event_at (i : N) (s : State) : outcome AppEvent_t :=
  match m_events s !! N.to_nat i with
  | Some e => Ok e
  | None => Undefined
  end.

(** [m_events[i] = e] *)
Definition set_event (i : N) (e : AppEvent_t) (s : State) : State :=
  set_events (<[N.to_nat i := e]> (m_events s)) s.

(** How often the callback of slot [i] has been called. *)
Definition invocations (i : N) (s : State) : nat :=
  length (filter (λ j, j = i) (dispatched s)).

(** ** The timer service *)

(** Modelled from the spec: [TimerInit] of timer.c (init-with-callback).
    The callback is always [OnEvent] in event.c. *)
Definition TimerInit (t : TimerEvent_t) : TimerEvent_t :=
  mkTimer false 0 None.

(** Modelled from the spec: [TimerSetValue] of timer.c (set-period). *)
Definition TimerSetValue (value : N) (t : TimerEvent_t) : TimerEvent_t :=
  mkTimer (IsStarted t) value (Param t).

(** Modelled from the spec: [TimerStartWithParam] of timer.c
    (start-with-context); the parameter is the descriptor's slot. *)
Definition TimerStartWithParam (param : N) (t : TimerEvent_t) : TimerEvent_t :=
  mkTimer true (ReloadValue t) (Some param).

(** Modelled from the spec: [TimerStop] of timer.c (stop). *)
Definition TimerStop (t : TimerEvent_t) : TimerEvent_t :=
  mkTimer false (ReloadValue t) (Param t).

(** Modelled from the spec: [TimerRunning] of timer.c (query-running). *)
Definition TimerRunning (t : TimerEvent_t) : bool := IsStarted t.

(** Modelled from the spec: [TimerGetCurrentTime] of timer.c. *)
Definition TimerGetCurrentTime (s : State) : N := rtc_now s.

(** ** The GPIO service *)

(** Modelled from the spec: [GpioSetInterrupt] of gpio.c (bind a line with
    mode and priority to the shared handler [OnInterruptEvent]). *)
Definition GpioSetInterrupt (gpio : N) (mode : IrqModes) (priority : N)
    (s : State) : outcome State :=
  match gpio_lines s !! gpio with
  | Some g =>
      Ok (set_gpio_lines
            (<[gpio := mkGpio (intNo g) true mode priority (hasContext g)]>
               (gpio_lines s)) s)
  | None => Undefined
  end.

(** Modelled from the spec: [GpioMcuSetContext] of gpio.c
    (associate-context); event.c passes the address of the line's [intNo]. *)
Definition GpioMcuSetContext (gpio : N) (s : State) : outcome State :=
  match gpio_lines s !! gpio with
  | Some g =>
      Ok (set_gpio_lines
            (<[gpio := mkGpio (intNo g) (irqAttached g) (attachedMode g)
                         (attachedPriority g) true]> (gpio_lines s)) s)
  | None => Undefined
  end.

(** Modelled from the spec: [GpioRemoveInterrupt] of gpio.c (unbind). *)
Definition GpioRemoveInterrupt (gpio : N) (s : State) : outcome State :=
  match gpio_lines s !! gpio with
  | Some g =>
      Ok (set_gpio_lines
            (<[gpio := mkGpio (intNo g) false (attachedMode g)
                         (attachedPriority g) (hasContext g)]> (gpio_lines s)) s)
  | None => Undefined
  end.

(** ** The module *)

Section AppEvent.

(** The code behind each callback address: what a call does to the state.
    Callbacks are the client's functions; they may call back into the
    module. *)
Variable cb_sem : N → State → outcome State.

(** [TimerTimeRemaining] of timer.c, from the handle and the clock. *)
Variable TimerTimeRemaining : TimerEvent_t → N → N.

(** [rand]: from its state, the value drawn and the next state. *)
Variable rand : N → N * N.

(** The floating-point expression [(rand() / (double)RAND_MAX) * r] of
    [StartEvent] as converted to an integer, from the drawn value and [r]. *)
Variable scale_rand : N → N → N.

Definition StartEvent (ev : N) (s : State) : outcome State :=
  event <- event_at ev s ;;
  if is_no_irq (irqMode event) then
    let '(tm, seed) :=
      if 0 <? timeoutRandomizer event then
        let '(r, seed') := rand (rand_seed s) in
        let randomOffset := u16 (scale_rand r (timeoutRandomizer event)) in
        (TimerSetValue (u32 (timeout event + randomOffset)) (timer event), seed')
      else (timer event, rand_seed s) in
    Ok (set_event ev (set_timer (TimerStartWithParam ev tm) event)
          (set_rand_seed seed s))
  else
    s1 <- GpioSetInterrupt (irqGpio event) (irqMode event) (irqPriority event) s ;;
    GpioMcuSetContext (irqGpio event) s1.

Definition DoTrigger (ev : N) (s : State) : outcome State :=
  event <- event_at ev s ;;
  match context event with
  | APP_EVENT_CONTEXT_MAIN =>
      let e1 := set_triggered true event in
      let e2 := set_diagnostics
                  (set_triggerCount (u16 (triggerCount (diagnostics e1) + 1))
                     (diagnostics e1)) e1 in
      Ok (set_event ev e2 s)
  | APP_EVENT_CONTEXT_IMMEDIATE =>
      let d1 := set_triggerCount (u16 (triggerCount (diagnostics event) + 1))
                  (diagnostics event) in
      let d2 := set_processCount (u16 (processCount d1 + 1)) d1 in
      let e2 := set_diagnostics d2 event in
      let s2 := set_event ev e2 s in
      if callback e2 =? NULL then Ok s2
      else cb_sem (callback e2) (log_dispatch ev s2)
  end.

(** The timer service calls [OnEvent] with the descriptor as context. *)
Definition OnEvent (ev : N) (s : State) : outcome State :=
  s1 <- DoTrigger ev s ;;
  event <- event_at ev s1 ;;
  if negb (single event) then StartEvent ev s1 else Ok s1.

(** Modelled from the spec: the expiry of a started timer in timer.c.  The
    service does not repeat a timer by itself (section 6): it takes the
    timer off its list and calls the registered callback, [OnEvent]. *)
Definition TimerIrqHandler (ev : N) (s : State) : outcome State :=
  event <- event_at ev s ;;
  if TimerRunning (timer event) then
    OnEvent ev (set_event ev (set_timer (TimerStop (timer event)) event) s)
  else Ok s.

(** [for (uint8_t i = 0; i < m_numEvents; ++i) body]: the bound is read
    again before each round.  Counter and bound are [uint8_t], so the loop
    leaves after 255 rounds at most; [fuel] counts the rounds, and 256 are
    given.  Fuel can only run out on a bound that is no [uint8_t] value. *)
Fixpoint for_events (fuel : nat) (body : N → State → outcome State)
    (i : N) (s : State) : outcome State :=
  match fuel with
  | O => Undefined
  | S fuel' =>
      if i <? m_numEvents s then
        s' <- body i s ;;
        for_events fuel' body (u8 (i + 1)) s'
      else Ok s
  end.

Definition AppEvent_Trigger (id0 : N) (s : State) : outcome State :=
  for_events 256
    (λ i s, event <- event_at i s ;;
            if id event =? id0 then DoTrigger i s else Ok s)
    0 s.

Definition AppEvent_Init (s : State) : State :=
  if m_initialized s then s
  else set_initialized true (set_numEvents 0 s).

(** Returns the slot of the new descriptor with the state. *)
Definition CreateEvent (name0 : option string) (callback0 : N)
    (context0 : APP_EVENT_CONTEXTS) (s : State) : outcome (N * State) :=
  let id0 := m_numEvents s in
  let s1 := set_numEvents (u8 (m_numEvents s + 1)) s in
  event <- event_at id0 s1 ;;
  let event' :=
    mkEvent (match name0 with Some n => Some n | None => name event end)
      context0 callback0 false false (single event) id0 EVENT_TYPE_GENERAL
      (timer event) (timeout event) (timeoutRandomizer event) (irqGpio event)
      NO_IRQ (irqPriority event)
      (mkDiagnostics true (startTime (diagnostics event)) 0 0) in
  Ok (id0, set_event id0 event' s1).

(** [eventId] is the address the id is written to; the id written is the
    value returned. *)
Definition AppEvent_RegisterEvent (eventId : N) (name0 : option string)
    (callback0 : N) (context0 : APP_EVENT_CONTEXTS) (s : State)
    : outcome (N * State) :=
  ASSERT (m_initialized s) ;;;
  ASSERT (m_numEvents s <? MAX_EVENTS) ;;;
  ASSERT (negb (eventId =? NULL)) ;;;
  ASSERT (negb (callback0 =? NULL)) ;;;
  created <- CreateEvent name0 callback0 context0 s ;;
  let '(ev, s1) := created in
  event <- event_at ev s1 ;;
  Ok (id event, s1).

Definition AppEvent_RegisterTimerWithRandomizer (eventId : N)
    (name0 : option string) (callback0 : N) (timeout0 timeoutRandomizer0 : N)
    (context0 : APP_EVENT_CONTEXTS) (s : State) : outcome (N * State) :=
  ASSERT (m_initialized s) ;;;
  ASSERT (m_numEvents s <? MAX_EVENTS) ;;;
  ASSERT (negb (eventId =? NULL)) ;;;
  ASSERT (negb (callback0 =? NULL)) ;;;
  created <- CreateEvent name0 callback0 context0 s ;;
  let '(ev, s1) := created in
  event <- event_at ev s1 ;;
  let e1 := set_timer (TimerSetValue timeout0 (TimerInit (timer event))) event in
  let e2 := set_timeout timeout0 e1 in
  let e3 := set_timeoutRandomizer timeoutRandomizer0 e2 in
  let e4 := set_type EVENT_TYPE_TIMER e3 in
  Ok (id e4, set_event ev e4 s1).

Definition AppEvent_RegisterTimer (eventId : N) (name0 : option string)
    (callback0 : N) (timeout0 : N) (context0 : APP_EVENT_CONTEXTS) (s : State)
    : outcome (N * State) :=
  ASSERT (m_initialized s) ;;;
  AppEvent_RegisterTimerWithRandomizer eventId name0 callback0 timeout0 0
    context0 s.

Definition AppEvent_RegisterInterrupt (eventId : N) (name0 : option string)
    (callback0 : N) (gpio : N) (irqMode0 : IrqModes) (irqPriority0 : N)
    (context0 : APP_EVENT_CONTEXTS) (s : State) : outcome (N * State) :=
  ASSERT (m_initialized s) ;;;
  ASSERT (m_numEvents s <? MAX_EVENTS) ;;;
  ASSERT (negb (eventId =? NULL)) ;;;
  ASSERT (negb (callback0 =? NULL)) ;;;
  created <- CreateEvent name0 callback0 context0 s ;;
  let '(ev, s1) := created in
  event <- event_at ev s1 ;;
  let e1 := set_type EVENT_TYPE_INTERRUPT (set_irq gpio irqMode0 irqPriority0 event) in
  Ok (id e1, set_event ev e1 s1).

Definition AppEvent_Start (id0 : N) (single0 : bool) (s : State) : outcome State :=
  event <- event_at id0 s ;;
  let e1 := set_triggered false event in
  let e2 := set_single single0 e1 in
  let e3 := set_diagnostics
              (set_startTime (TimerGetCurrentTime s) (diagnostics e2)) e2 in
  StartEvent id0 (set_event id0 e3 s).

Definition AppEvent_Stop (id0 : N) (s : State) : outcome State :=
  event <- event_at id0 s ;;
  if is_no_irq (irqMode event) then
    Ok (set_event id0 (set_timer (TimerStop (timer event)) event) s)
  else GpioRemoveInterrupt (irqGpio event) s.

Definition AppEvent_GetTimeout (id0 : N) (s : State) : outcome N :=
  event <- event_at id0 s ;;
  ASSERT (irqGpio event =? NULL) ;;;
  Ok (timeout event).

Definition AppEvent_SetTimeout (id0 : N) (timeout0 : N) (s : State) : outcome State :=
  event <- event_at id0 s ;;
  ASSERT (irqGpio event =? NULL) ;;;
  let e1 := set_timer (TimerSetValue timeout0 (timer event)) event in
  let e2 := set_triggered false e1 in
  Ok (set_event id0 (set_timeout timeout0 e2) s).

Definition AppEvent_TimeRemaining (id0 : N) (s : State) : outcome N :=
  event <- event_at id0 s ;;
  Ok (TimerTimeRemaining (timer event) (rtc_now s)).

Definition AppEvent_Running (id0 : N) (s : State) : outcome bool :=
  event <- event_at id0 s ;;
  Ok (TimerRunning (timer event)).

(** The test of step 2 of the sweep, on the descriptor as it is read. *)
Definition admitted (event : AppEvent_t) : bool :=
  negb (is_no_irq (irqMode event))
  || single event
  || TimerRunning (timer event)
  || is_general (type event).

(** The body of the loop of [AppEvent_ProcessMainEvents]. *)
Definition process_event (id0 : N) (s : State) : outcome State :=
  event <- event_at id0 s ;;
  if triggered event && negb (paused event) then
    let e1 := set_triggered false event in
    let s1 := set_event id0 e1 s in
    if admitted e1 then
      let e2 := set_diagnostics
                  (set_processCount (u16 (processCount (diagnostics e1) + 1))
                     (diagnostics e1)) e1 in
      let s2 := set_event id0 e2 s1 in
      if callback e2 =? NULL then Ok s2
      else cb_sem (callback e2) (log_dispatch id0 s2)
    else Ok s1
  else Ok s.

Definition AppEvent_ProcessMainEvents (s : State) : outcome State :=
  for_events 256 process_event 0 s.

Definition AppEvent_Pause (id0 : N) (s : State) : outcome State :=
  event <- event_at id0 s ;;
  ASSERT (is_main (context event)) ;;;
  Ok (set_event id0 (set_paused true event) s).

Definition AppEvent_Resume (id0 : N) (s : State) : outcome State :=
  event <- event_at id0 s ;;
  ASSERT (is_main (context event)) ;;;
  Ok (set_event id0 (set_paused false event) s).

End AppEvent.

(** ** The rest of event.c *)

(** [GetEventName]: the name given at registration, or the text that
    [sprintf(genericName, "EVENT%u", event->id)] writes into the static
    buffer [genericName[16]]. *)
Definition GetEventName (event : AppEvent_t) : string :=
  match name event with
  | Some n => n
  | None => "EVENT" +:+ pretty (id event)
  end.

(** The size of [genericName]. *)
Definition GENERIC_NAME_SIZE : nat := 16.

Definition set_debugEnable (b : bool) (d : EventDiagnostics_t) : EventDiagnostics_t :=
  mkDiagnostics b (startTime d) (triggerCount d) (processCount d).

Definition AppEvent_EnableDebug (id0 : N) (s : State) : outcome State :=
  event <- event_at id0 s ;;
  Ok (set_event id0
        (set_diagnostics (set_debugEnable true (diagnostics event)) event) s).

Definition AppEvent_DisableDebug (id0 : N) (s : State) : outcome State :=
  event <- event_at id0 s ;;
  Ok (set_event id0
        (set_diagnostics (set_debugEnable false (diagnostics event)) event) s).

(** The loop of [AppEvent_IsIdle], from slot [i] on: it returns at the
    first flagged descriptor. *)
Fixpoint idle_scan (fuel : nat) (i : N) (s : State) : outcome bool :=
  match fuel with
  | O => Undefined
  | S fuel' =>
      if i <? m_numEvents s then
        event <- event_at i s ;;
        if triggered event then Ok false
        else idle_scan fuel' (u8 (i + 1)) s
      else Ok true
  end.

Definition AppEvent_IsIdle (s : State) : outcome bool :=
  idle_scan 256 0 s.

(** The test [event->irqMode != NO_IRQ && event->irqGpio->intNo == intNo]
    of [OnInterruptEvent]: the line is read only when the mode is set. *)
Definition line_matches (intNo0 : N) (event : AppEvent_t) (s : State)
    : outcome bool :=
  if negb (is_no_irq (irqMode event)) then
    match gpio_lines s !! irqGpio event with
    | Some g => Ok (intNo g =? intNo0)
    | None => Undefined
    end
  else Ok false.

Section Interrupts.

Variable cb_sem : N → State → outcome State.

(** The loop of [OnInterruptEvent], from slot [i] on: it is left at the
    first descriptor that matches. *)
Fixpoint interrupt_scan (fuel : nat) (intNo0 : N) (i : N) (s : State)
    : outcome State :=
  match fuel with
  | O => Undefined
  | S fuel' =>
      if i <? m_numEvents s then
        event <- event_at i s ;;
        hit <- line_matches intNo0 event s ;;
        if hit : bool then
          s1 <- DoTrigger cb_sem i s ;;
          event1 <- event_at i s1 ;;
          if single event1 then GpioRemoveInterrupt (irqGpio event1) s1
          else Ok s1
        else interrupt_scan fuel' intNo0 (u8 (i + 1)) s
      else Ok s
  end.

(** [OnInterruptEvent]: [intNo0] is the byte the context pointer gives. *)
Definition OnInterruptEvent (intNo0 : N) (s : State) : outcome State :=
  interrupt_scan 256 intNo0 0 s.

End Interrupts.

(** ** The state at power-on *)

(** A slot of [m_events] in zero-initialised static storage: null pointers,
    false flags and the first member of each enumeration. *)
Definition zero_event : AppEvent_t :=
  mkEvent None APP_EVENT_CONTEXT_MAIN NULL false false false 0
    EVENT_TYPE_GENERAL (mkTimer false 0 None) 0 0 NULL NO_IRQ 0
    (mkDiagnostics false 0 0 0).

(** The statics of event.c before [AppEvent_Init], with the GPIO lines of
    the board, the clock and the state of [rand]. *)
Definition boot (lines : gmap N Gpio_t) (now seed : N) : State :=
  mkState 0 (replicate (N.to_nat MAX_EVENTS) zero_event) false lines now seed [].

(** ** The registry invariant

    What registration establishes and no operation of the module breaks:
    the first [m_numEvents] slots carry their own index as [id] and a
    callback; the slots behind them are of the general kind; only an
    interrupt descriptor has a GPIO line or an interrupt mode. *)

Definition slot_ok (n k : N) (e : AppEvent_t) : Prop :=
  (k < n → id e = k ∧ callback e ≠ NULL) ∧
  (n ≤ k → type e = EVENT_TYPE_GENERAL) ∧
  (type e ≠ EVENT_TYPE_INTERRUPT → irqGpio e = NULL ∧ irqMode e = NO_IRQ).

Definition registry_ok (s : State) : Prop :=
  m_numEvents s ≤ MAX_EVENTS ∧
  length (m_events s) = N.to_nat MAX_EVENTS ∧
  ∀ k e, m_events s !! k = Some e → slot_ok (m_numEvents s) (N.of_nat k) e.

Definition is_interrupt (t : EVENT_TYPES) : bool :=
  match t with EVENT_TYPE_INTERRUPT => true | _ => false end.

Definition slot_okb (n k : N) (e : AppEvent_t) : bool :=
  (if k <? n then (id e =? k) && negb (callback e =? NULL)
   else is_general (type e))
  && (is_interrupt (type e)
      || ((irqGpio e =? NULL) && is_no_irq (irqMode e))).

Fixpoint slots_okb (n k : N) (l : list AppEvent_t) : bool :=
  match l with
  | [] => true
  | e :: l' => slot_okb n k e && slots_okb n (k + 1) l'
  end.

(** The invariant as a test that runs on a concrete state. *)
Definition registry_okb (s : State) : bool :=
  (m_numEvents s <=? MAX_EVENTS)
  && (N.of_nat (length (m_events s)) =? MAX_EVENTS)
  && slots_okb (m_numEvents s) 0 (m_events s).

(** The fields that only registration writes. *)
Definition same_identity (e e' : AppEvent_t) : Prop :=
  id e' = id e ∧ callback e' = callback e ∧ type e' = type e ∧
  irqGpio e' = irqGpio e ∧ irqMode e' = irqMode e.

(** ** Registration requests *)

Inductive registration : Type :=
| RegEvent (eventId : N) (name0 : option string) (callback0 : N)
    (context0 : APP_EVENT_CONTEXTS)
| RegTimer (eventId : N) (name0 : option string) (callback0 : N)
    (timeout0 : N) (context0 : APP_EVENT_CONTEXTS)
| RegTimerWithRandomizer (eventId : N) (name0 : option string) (callback0 : N)
    (timeout0 timeoutRandomizer0 : N) (context0 : APP_EVENT_CONTEXTS)
| RegInterrupt (eventId : N) (name0 : option string) (callback0 : N)
    (gpio : N) (irqMode0 : IrqModes) (irqPriority0 : N)
    (context0 : APP_EVENT_CONTEXTS).

(** One call of one of the four registration entry points. *)
Definition register (r : registration) (s : State) : outcome (N * State) :=
  match r with
  | RegEvent p nm cb ctx => AppEvent_RegisterEvent p nm cb ctx s
  | RegTimer p nm cb t ctx => AppEvent_RegisterTimer p nm cb t ctx s
  | RegTimerWithRandomizer p nm cb t r ctx =>
      AppEvent_RegisterTimerWithRandomizer p nm cb t r ctx s
  | RegInterrupt p nm cb g m pr ctx =>
      AppEvent_RegisterInterrupt p nm cb g m pr ctx s
  end.

(** The out-parameter and the callback of a request. *)
Definition request_eventId (r : registration) : N :=
  match r with
  | RegEvent p _ _ _ | RegTimer p _ _ _ _
  | RegTimerWithRandomizer p _ _ _ _ _ | RegInterrupt p _ _ _ _ _ _ => p
  end.

Definition request_callback (r : registration) : N :=
  match r with
  | RegEvent _ _ cb _ | RegTimer _ _ cb _ _
  | RegTimerWithRandomizer _ _ cb _ _ _ | RegInterrupt _ _ cb _ _ _ _ => cb
  end.

(** The state after a registration, the id dropped. *)
Definition registered (o : outcome (N * State)) : outcome State :=
  r <- o ;; Ok r.2.

(** A sequence of registrations; the ids written, in order. *)
Fixpoint register_all (rs : list registration) (s : State)
    : outcome (list N * State) :=
  match rs with
  | [] => Ok ([], s)
  | r :: rs' =>
      p <- register r s ;;
      q <- register_all rs' p.2 ;;
      Ok (p.1 :: q.1, q.2)
  end.

Section Sweeps.

Variable cb_sem : N → State → outcome State.
Variable rand : N → N * N.
Variable scale_rand : N → N → N.

(** [n] expiries of the timer of slot [ev] in a row: [OnEvent] each time. *)
Fixpoint fire_times (n : nat) (ev : N) (s : State) : outcome State :=
  match n with
  | O => Ok s
  | S n' => s' <- OnEvent cb_sem rand scale_rand ev s ;; fire_times n' ev s'
  end.

(** [k] sweeps of the main loop in a row. *)
Fixpoint sweep_times (k : nat) (s : State) : outcome State :=
  match k with
  | O => Ok s
  | S k' => s' <- AppEvent_ProcessMainEvents cb_sem s ;; sweep_times k' s'
  end.

(** A callback that leaves descriptor [i] and the registry alone: it
    returns, keeps the invariant and the number of events, does not write
    to slot [i] and does not have the callback of slot [i] called. *)
Definition frames (i c : N) : Prop :=
  ∀ s, registry_ok s →
    ∃ s', cb_sem c s = Ok s' ∧ registry_ok s' ∧
          m_numEvents s' = m_numEvents s ∧
          event_at i s' = event_at i s ∧
          invocations i s' = invocations i s.

(** The state of descriptor [i] as a sweep sees it: a property [P] of the
    descriptor and of the number of calls of its callback so far. *)
Definition Inv (i : N) (P : AppEvent_t → nat → Prop) (n : N) (s : State) : Prop :=
  registry_ok s ∧ m_numEvents s = n ∧
  ∃ e, event_at i s = Ok e ∧ P e (invocations i s).

(** A callback under which [Inv i P n] is stable. *)
Definition cb_keeps (i : N) (P : AppEvent_t → nat → Prop) (n : N) (c : N) : Prop :=
  ∀ s, Inv i P n s → ∃ s', cb_sem c s = Ok s' ∧ Inv i P n s'.

End Sweeps.

(** ** Calls into the module

    What the application and the hardware can do to the module: the
    operations of AppEvent.h that write state, the expiry of the timer of
    a slot and an interrupt on a GPIO line. *)

Inductive call : Type :=
| CallInit
| CallRegister (r : registration)
| CallTrigger (id0 : N)
| CallStart (id0 : N) (single0 : bool)
| CallStop (id0 : N)
| CallSetTimeout (id0 timeout0 : N)
| CallProcessMainEvents
| CallPause (id0 : N)
| CallResume (id0 : N)
| TimerExpiry (ev : N)
| CallEnableDebug (id0 : N)
| CallDisableDebug (id0 : N)
| GpioInterrupt (intNo0 : N).

Definition run_call (cb_sem : N → State → outcome State) (rand : N → N * N)
    (scale_rand : N → N → N) (c : call) (s : State) : outcome State :=
  match c with
  | CallInit => Ok (AppEvent_Init s)
  | CallRegister r => registered (register r s)
  | CallTrigger i => AppEvent_Trigger cb_sem i s
  | CallStart i b => AppEvent_Start rand scale_rand i b s
  | CallStop i => AppEvent_Stop i s
  | CallSetTimeout i t => AppEvent_SetTimeout i t s
  | CallProcessMainEvents => AppEvent_ProcessMainEvents cb_sem s
  | CallPause i => AppEvent_Pause i s
  | CallResume i => AppEvent_Resume i s
  | TimerExpiry i => TimerIrqHandler cb_sem rand scale_rand i s
  | CallEnableDebug i => AppEvent_EnableDebug i s
  | CallDisableDebug i => AppEvent_DisableDebug i s
  | GpioInterrupt n => OnInterruptEvent cb_sem n s
  end.

(** A sequence of calls, as long as each returns. *)
Fixpoint run_calls (cb_sem : N → State → outcome State) (rand : N → N * N)
    (scale_rand : N → N → N) (cs : list call) (s : State) : outcome State :=
  match cs with
  | [] => Ok s
  | c :: cs' =>
      s' <- run_call cb_sem rand scale_rand c s ;;
      run_calls cb_sem rand scale_rand cs' s'
  end.

(** The invariant of the module: the registry invariant, and no event
    registered before [AppEvent_Init]. *)
Definition module_inv (s : State) : Prop :=
  registry_ok s ∧ (m_initialized s = false → m_numEvents s = 0).

(** Callbacks that keep the invariant, as callbacks that act through the
    module do. *)
Definition callbacks_keep_inv (cb_sem : N → State → outcome State) : Prop :=
  ∀ c s s', module_inv s → cb_sem c s = Ok s' → module_inv s'.

(** ** What calls keep and what they never do *)

(** The fields of a descriptor that registration writes and nothing else
    does. *)
Definition same_registration (e e' : AppEvent_t) : Prop :=
  same_identity e e' ∧ context e' = context e ∧ name e' = name e ∧
  irqPriority e' = irqPriority e ∧
  timeoutRandomizer e' = timeoutRandomizer e.

(** [s'] has every registered descriptor of [s], as it was registered. *)
Definition extends (s s' : State) : Prop :=
  m_numEvents s ≤ m_numEvents s' ∧
  ∀ k e, k < m_numEvents s → event_at k s = Ok e →
    ∃ e', event_at k s' = Ok e' ∧ same_registration e e'.

(** Only a main-context descriptor carries a pending flag. *)
Definition flags_ok (s : State) : Prop :=
  ∀ k e, event_at k s = Ok e → triggered e = true →
    context e = APP_EVENT_CONTEXT_MAIN.

Definition sound (s : State) : Prop := module_inv s ∧ flags_ok s.

(** Callbacks that act as calls into the module do: they keep the
    invariants and every registered descriptor. *)
Definition callbacks_grow (cb_sem : N → State → outcome State) : Prop :=
  ∀ c s s', sound s → cb_sem c s = Ok s' → sound s' ∧ extends s s'.

(** A callback that returns and writes neither the table nor the log. *)
Definition harmless (cb_sem : N → State → outcome State) (c : N) : Prop :=
  ∀ s, ∃ s', cb_sem c s = Ok s' ∧ m_events s' = m_events s ∧
    m_numEvents s' = m_numEvents s ∧ dispatched s' = dispatched s.

(** What one round of the sweep makes of a descriptor. *)
Definition swept (e : AppEvent_t) : AppEvent_t :=
  if triggered e && negb (paused e) then
    if admitted e then
      set_diagnostics
        (set_processCount (u16 (processCount (diagnostics e) + 1))
           (diagnostics e))
        (set_triggered false e)
    else set_triggered false e
  else e.

(** A request that passes the two assertions on its arguments. *)
Definition valid_request (r : registration) : Prop :=
  request_eventId r ≠ NULL ∧ request_callback r ≠ NULL.

(** [n] manual triggers of event [i] in a row. *)
Fixpoint trigger_times (cb_sem : N → State → outcome State) (n : nat) (i : N)
    (s : State) : outcome State :=
  match n with
  | O => Ok s
  | S n' => s' <- AppEvent_Trigger cb_sem i s ;; trigger_times cb_sem n' i s'
  end.

(** ** Descriptors after the steps of the trigger path and of the sweep *)

(** The descriptor after [k] passes through the main-context branch of
    [DoTrigger]: the flag is set, the 16-bit counter has advanced [k] times. *)
Definition count_trigger (k : N) (e : AppEvent_t) : AppEvent_t :=
  set_diagnostics
    (set_triggerCount (u16 (triggerCount (diagnostics e) + k)) (diagnostics e))
    (set_triggered true e).

(** The descriptor as [DoTrigger] hands it to an immediate callback. *)
Definition count_immediate (e : AppEvent_t) : AppEvent_t :=
  set_diagnostics
    (set_processCount (u16 (processCount (diagnostics e) + 1))
       (set_triggerCount (u16 (triggerCount (diagnostics e) + 1))
          (diagnostics e))) e.

(** The descriptor as the sweep hands it to an admitted callback. *)
Definition processed (e : AppEvent_t) : AppEvent_t :=
  set_diagnostics
    (set_processCount (u16 (processCount (diagnostics e) + 1)) (diagnostics e))
    (set_triggered false e).

(** ** Scenarios

    Concrete runs of the module from power-on, on which the statements
    below are evaluated. *)

(** Callbacks that do nothing. *)
Definition quiet : N → State → outcome State := λ _ s, Ok s.

(** The callback at address 100 triggers event 0 again; the others do
    nothing. *)
Definition retrigger : N → State → outcome State :=
  λ c s, if c =? 100 then AppEvent_Trigger quiet 0 s else Ok s.

Definition demo_remaining : TimerEvent_t → N → N :=
  λ t _, if IsStarted t then ReloadValue t else 0.

Definition demo_rand : N → N * N := λ seed, (seed, seed + 1).

Definition demo_scale : N → N → N := λ r m, r mod (m + 1).

(** One GPIO line at address 4096, with interrupt number 5. *)
Definition demo_lines : gmap N Gpio_t :=
  {[ 4096 := mkGpio 5 false NO_IRQ 0 false ]}.

Definition fresh : State := AppEvent_Init (boot demo_lines 7 1).

Definition state_of (o : outcome State) : State :=
  match o with
  | Ok s => s
  | _ => boot ∅ 0 0
  end.

Definition event_of (o : outcome AppEvent_t) : AppEvent_t :=
  match o with
  | Ok e => e
  | _ => zero_event
  end.

(** [k] calls of [f] in a row. *)
Definition repeatedly (k : N) (f : State → outcome State) (s : State)
    : outcome State :=
  N.iter k (λ o, s' <- o ;; f s') (Ok s).

(** A main-context timer of 100 ms with its callback at address 100,
    registered as event 0. *)
Definition main_timer : State :=
  state_of (registered
    (AppEvent_RegisterTimer 1 None 100 100 APP_EVENT_CONTEXT_MAIN fresh)).

(** ... started as a continuous timer. *)
Definition main_timer_started : State :=
  state_of (AppEvent_Start demo_rand demo_scale 0 false main_timer).

(** ... whose timer has expired once. *)
Definition main_timer_flagged : State :=
  state_of (TimerIrqHandler quiet demo_rand demo_scale 0 main_timer_started).

(** ... and which is paused after that. *)
Definition main_timer_flagged_paused : State :=
  state_of (AppEvent_Pause 0 main_timer_flagged).

(** The started timer, paused before any expiry. *)
Definition main_timer_paused : State :=
  state_of (AppEvent_Pause 0 main_timer_started).

(** The started timer after 65535 expiries. *)
Definition main_timer_worn : State :=
  state_of (repeatedly 65535 (TimerIrqHandler quiet demo_rand demo_scale 0)
              main_timer_started).

(** An immediate-context general event with its callback at address 200,
    registered as event 0. *)
Definition immediate_event : State :=
  state_of (registered
    (AppEvent_RegisterEvent 1 None 200 APP_EVENT_CONTEXT_IMMEDIATE fresh)).

(** ... after 65535 manual triggers. *)
Definition immediate_event_worn : State :=
  state_of (repeatedly 65535 (AppEvent_Trigger quiet 0) immediate_event).

(** A general event as event 0 and an interrupt event on the line at 4096
    as event 1, both in the main context. *)
Definition general_and_interrupt : State :=
  state_of (
    s1 <- registered
            (AppEvent_RegisterEvent 1 None 200 APP_EVENT_CONTEXT_MAIN fresh) ;;
    registered
      (AppEvent_RegisterInterrupt 1 None 300 4096 IRQ_RISING_EDGE 0
         APP_EVENT_CONTEXT_MAIN s1)).

(** The flagged and paused timer, stopped. *)
Definition main_timer_paused_stopped : State :=
  state_of (AppEvent_Stop 0 main_timer_flagged_paused).

(** ... and resumed after that. *)
Definition main_timer_resumed : State :=
  state_of (AppEvent_Resume 0 main_timer_paused_stopped).

(** Four registrations, one through each entry point. *)
Definition four_registrations : list registration :=
  [ RegEvent 1 None 200 APP_EVENT_CONTEXT_MAIN;
    RegTimer 1 (Some "tick") 100 100 APP_EVENT_CONTEXT_MAIN;
    RegInterrupt 1 None 300 4096 IRQ_FALLING_EDGE 1 APP_EVENT_CONTEXT_IMMEDIATE;
    RegTimerWithRandomizer 1 None 100 50 10 APP_EVENT_CONTEXT_IMMEDIATE ].

Definition after_four_registrations : State :=
  state_of (registered
    (r <- register_all four_registrations fresh ;; Ok (0, r.2))).

(** The calls that set up three events: a timer as event 0 and an
    interrupt event on the line at 4096 as event 1, both in the main
    context, and an immediate general event as event 2. *)
Definition demo_setup : list call :=
  [ CallInit;
    CallRegister (RegTimer 1 None 100 100 APP_EVENT_CONTEXT_MAIN);
    CallRegister
      (RegInterrupt 1 None 300 4096 IRQ_RISING_EDGE 0 APP_EVENT_CONTEXT_MAIN);
    CallRegister (RegEvent 1 (Some "now") 200 APP_EVENT_CONTEXT_IMMEDIATE) ].

(** Both main-context events are started; the timer expires, the line
    fires, and the interrupt event is paused. *)
Definition demo_pending_calls : list call :=
  [ CallStart 0 false; CallStart 1 false; TimerExpiry 0; GpioInterrupt 5;
    CallPause 1 ].

(** The calls of a longer run after that. *)
Definition demo_run : list call :=
  [ CallTrigger 2; CallProcessMainEvents; CallStop 0; CallResume 1;
    CallSetTimeout 0 250; CallEnableDebug 2; CallInit; CallTrigger 0;
    CallProcessMainEvents; CallDisableDebug 2 ].

Definition after_demo_setup : State :=
  state_of (run_calls quiet demo_rand demo_scale demo_setup
              (boot demo_lines 7 1)).

Definition demo_pending : State :=
  state_of (run_calls quiet demo_rand demo_scale demo_pending_calls
              after_demo_setup).

Definition after_demo_run : State :=
  state_of (run_calls quiet demo_rand demo_scale demo_run demo_pending).

(** The three events with the interrupt event started and nothing
    pending. *)
Definition demo_listening : State :=
  state_of (AppEvent_Start demo_rand demo_scale 1 true after_demo_setup).

(** The general event of [general_and_interrupt], triggered once. *)
Definition general_flagged : State :=
  state_of (AppEvent_Trigger quiet 0 general_and_interrupt).


(** Thirty-three requests for a general event. *)
Definition too_many_registrations : list registration :=
  replicate 33 (RegEvent 1 None 200 APP_EVENT_CONTEXT_MAIN).

(** * Properties *)

(** ** Reading and writing slots *)

Lemma event_at_Ok (i : N) (s : State) (e : AppEvent_t) :
  event_at i s = Ok e ↔ m_events s !! N.to_nat i = Some e.
Proof.
  unfold event_at. destruct (m_events s !! N.to_nat i); split; congruence.
Qed.

Lemma event_at_set_event_eq (i : N) (e : AppEvent_t) (s : State) :
  (N.to_nat i < length (m_events s))%nat →
  event_at i (set_event i e s) = Ok e.
Proof.
  intros Hlt. apply event_at_Ok. simpl. by apply list_lookup_insert_eq.
Qed.

Lemma event_at_set_event_ne (i j : N) (e : AppEvent_t) (s : State) :
  i ≠ j → event_at j (set_event i e s) = event_at j s.
Proof.
  intros Hne. unfold event_at. simpl.
  rewrite list_lookup_insert_ne; [done | lia].
Qed.

Lemma event_at_in_range (i : N) (s : State) (e : AppEvent_t) :
  event_at i s = Ok e → (N.to_nat i < length (m_events s))%nat.
Proof.
  intros H. apply event_at_Ok in H. by apply lookup_lt_Some in H.
Qed.

Lemma event_at_set_event_same (i : N) (e e' : AppEvent_t) (s : State) :
  event_at i s = Ok e → event_at i (set_event i e' s) = Ok e'.
Proof.
  intros H. apply event_at_set_event_eq. by eapply event_at_in_range.
Qed.

Lemma event_at_below (i : N) (s : State) :
  registry_ok s → i < MAX_EVENTS → ∃ e, event_at i s = Ok e.
Proof.
  intros (_ & Hlen & _) Hi.
  destruct (lookup_lt_is_Some_2 (m_events s) (N.to_nat i)) as [e He].
  - rewrite Hlen. lia.
  - exists e. by apply event_at_Ok.
Qed.

Lemma invocations_log (i j : N) (s : State) :
  invocations i (log_dispatch j s)
  = (invocations i s + if decide (j = i) then 1 else 0)%nat.
Proof.
  unfold invocations, log_dispatch. simpl.
  rewrite filter_cons. destruct (decide (j = i)); simpl; lia.
Qed.

Lemma invocations_log_other (i j : N) (s : State) :
  j ≠ i → invocations i (log_dispatch j s) = invocations i s.
Proof.
  intros Hne. rewrite invocations_log. destruct (decide (j = i)); [done | lia].
Qed.

Lemma invocations_log_self (i : N) (s : State) :
  invocations i (log_dispatch i s) = S (invocations i s).
Proof.
  rewrite invocations_log. destruct (decide (i = i)); [lia | done].
Qed.

(** ** The invariant *)

Lemma registry_ok_ext (s s' : State) :
  m_numEvents s' = m_numEvents s → m_events s' = m_events s →
  registry_ok s → registry_ok s'.
Proof.
  unfold registry_ok. intros -> ->. done.
Qed.

Lemma slot_okb_sound (n k : N) (e : AppEvent_t) :
  slot_okb n k e = true → slot_ok n k e.
Proof.
  unfold slot_okb, slot_ok. intros H.
  apply andb_true_iff in H as [H1 H2].
  split; [| split].
  - intros Hk. apply N.ltb_lt in Hk. rewrite Hk in H1.
    apply andb_true_iff in H1 as [Ha Hb].
    apply N.eqb_eq in Ha. apply negb_true_iff, N.eqb_neq in Hb. done.
  - intros Hk. apply N.ltb_ge in Hk. rewrite Hk in H1.
    by destruct (type e).
  - intros Ht. apply orb_true_iff in H2 as [H2 | H2].
    + by destruct (type e).
    + apply andb_true_iff in H2 as [Ha Hb]. apply N.eqb_eq in Ha.
      split; [done |]. by destruct (irqMode e).
Qed.

Lemma slots_okb_sound (n : N) (l : list AppEvent_t) (k : N) :
  slots_okb n k l = true →
  ∀ j e, l !! j = Some e → slot_ok n (k + N.of_nat j) e.
Proof.
  revert k. induction l as [| a l IH]; intros k H j e Hj; [done |].
  simpl in H. apply andb_true_iff in H as [Ha Hl].
  destruct j as [| j]; simpl in Hj.
  - injection Hj as <-. replace (k + N.of_nat 0) with k by lia.
    by apply slot_okb_sound.
  - replace (k + N.of_nat (S j)) with (k + 1 + N.of_nat j) by lia.
    by apply IH.
Qed.

Lemma registry_okb_sound (s : State) :
  registry_okb s = true → registry_ok s.
Proof.
  unfold registry_okb, registry_ok. intros H.
  apply andb_true_iff in H as [H Hs]. apply andb_true_iff in H as [Hn Hl].
  apply N.leb_le in Hn. apply N.eqb_eq in Hl.
  split; [done |]. split; [lia |].
  intros k e Hk. by apply (slots_okb_sound _ _ 0 Hs k e).
Qed.

Lemma same_identity_refl (e : AppEvent_t) : same_identity e e.
Proof. by unfold same_identity. Qed.

Lemma slot_ok_same_identity (n k : N) (e e' : AppEvent_t) :
  same_identity e e' → slot_ok n k e → slot_ok n k e'.
Proof.
  unfold same_identity, slot_ok.
  intros (-> & -> & -> & -> & ->). done.
Qed.

Lemma registry_ok_set_event (s : State) (j : N) (e e' : AppEvent_t) :
  registry_ok s → event_at j s = Ok e → same_identity e e' →
  registry_ok (set_event j e' s).
Proof.
  intros (Hn & Hlen & Hslots) He Hid.
  split; [done |]. split; [simpl; by rewrite length_insert |].
  intros k ek Hk. simpl in Hk.
  destruct (decide (k = N.to_nat j)) as [-> | Hne].
  - rewrite list_lookup_insert_eq in Hk
      by (by eapply event_at_in_range).
    injection Hk as <-. apply event_at_Ok in He.
    eapply slot_ok_same_identity; [exact Hid |]. by apply Hslots.
  - rewrite list_lookup_insert_ne in Hk by done. by apply Hslots.
Qed.

Lemma registry_ok_log (i : N) (s : State) :
  registry_ok s → registry_ok (log_dispatch i s).
Proof. by apply registry_ok_ext. Qed.

Lemma registry_ok_registered (s : State) (i : N) (e : AppEvent_t) :
  registry_ok s → event_at i s = Ok e → i < m_numEvents s →
  id e = i ∧ callback e ≠ NULL.
Proof.
  intros (_ & _ & Hslots) He Hi. apply event_at_Ok in He.
  destruct (Hslots _ _ He) as (H & _). rewrite N2Nat.id in H. by apply H.
Qed.

Lemma registry_ok_kind (s : State) (i : N) (e : AppEvent_t) :
  registry_ok s → event_at i s = Ok e → type e ≠ EVENT_TYPE_INTERRUPT →
  irqGpio e = NULL ∧ irqMode e = NO_IRQ.
Proof.
  intros (_ & _ & Hslots) He Ht. apply event_at_Ok in He.
  destruct (Hslots _ _ He) as (_ & _ & H). by apply H.
Qed.

Lemma registry_ok_unregistered (s : State) (i : N) (e : AppEvent_t) :
  registry_ok s → event_at i s = Ok e → m_numEvents s ≤ i →
  type e = EVENT_TYPE_GENERAL.
Proof.
  intros (_ & _ & Hslots) He Hi. apply event_at_Ok in He.
  destruct (Hslots _ _ He) as (_ & H & _). rewrite N2Nat.id in H. by apply H.
Qed.

(** ** The loop over the registered slots, and what is known of one slot *)

(** A loop whose body keeps an index-dependent invariant [I] runs to the
    end of the table and returns; 256 rounds always suffice. *)
Lemma for_events_run (body : N → State → outcome State)
    (I : N → State → Prop) (n : N) :
  n < 256 →
  (∀ j s, I j s → m_numEvents s = n) →
  (∀ j s, j < n → I j s → ∃ s', body j s = Ok s' ∧ I (j + 1) s') →
  ∀ (len : nat) (a : N) (fuel : nat) (s : State),
    a + N.of_nat len = n → (len < fuel)%nat → I a s →
    ∃ s', for_events fuel body a s = Ok s' ∧ I n s'.
Proof.
  intros Hn Hnum Hbody. induction len as [| len IH]; intros a fuel s Ha Hf HI.
  - destruct fuel as [| fuel]; [lia |]. simpl.
    assert (a = n) as -> by lia.
    rewrite (Hnum _ _ HI), N.ltb_irrefl. eauto.
  - destruct fuel as [| fuel]; [lia |]. simpl.
    rewrite (Hnum _ _ HI).
    assert (a < n) as Hlt by lia.
    apply N.ltb_lt in Hlt as Hltb. rewrite Hltb.
    destruct (Hbody _ _ Hlt HI) as (s1 & -> & HI1). simpl.
    assert (u8 (a + 1) = a + 1) as -> by (unfold u8; lia).
    apply IH; [lia | lia | done].
Qed.

Lemma Inv_set_other (i j : N) (P : AppEvent_t → nat → Prop) (n : N)
    (s : State) (ej e' : AppEvent_t) :
  Inv i P n s → j ≠ i → event_at j s = Ok ej → same_identity ej e' →
  Inv i P n (set_event j e' s).
Proof.
  intros (Hok & Hn & e & He & HP) Hne Hj Hid.
  split; [by eapply registry_ok_set_event |]. split; [done |].
  exists e. by rewrite event_at_set_event_ne.
Qed.

Lemma Inv_log_other (i j : N) (P : AppEvent_t → nat → Prop) (n : N) (s : State) :
  Inv i P n s → j ≠ i → Inv i P n (log_dispatch j s).
Proof.
  intros (Hok & Hn & e & He & HP) Hne.
  split; [by apply registry_ok_log |]. split; [done |].
  exists e. by rewrite invocations_log_other.
Qed.

Lemma set_timer_same (e : AppEvent_t) : set_timer (timer e) e = e.
Proof. by destruct e. Qed.

Lemma set_event_twice (i : N) (e e' : AppEvent_t) (s : State) :
  set_event i e' (set_event i e s) = set_event i e' s.
Proof.
  unfold set_event, set_events. simpl. by rewrite list_insert_insert_eq.
Qed.

(** The state the sweep hands to the callback of slot [i]. *)
Lemma Inv_dispatch (i : N) (s : State) (e : AppEvent_t) :
  registry_ok s → event_at i s = Ok e →
  Inv i (λ e' k, e' = processed e ∧ k = S (invocations i s)) (m_numEvents s)
    (log_dispatch i (set_event i (processed e) s)).
Proof.
  intros Hok He. split.
  { apply registry_ok_log. eapply registry_ok_set_event; [done | exact He |].
    by unfold same_identity. }
  split; [done |]. exists (processed e).
  split; [by eapply (event_at_set_event_same i e) |].
  split; [done |]. by rewrite invocations_log_self.
Qed.

(** ** The timer accessors and [AppEvent_Stop] *)

(** C7: for a timer-kind descriptor and every value [t],
    [AppEvent_SetTimeout id t] returns; afterwards the descriptor's
    [triggered] flag is false (a pending trigger is discarded), the stored
    timeout and the timer's period are [t], and [AppEvent_GetTimeout id]
    returns [t]. *)
Theorem SetTimeout_then_GetTimeout (i t : N) (s : State) (e : AppEvent_t) :
  registry_ok s → event_at i s = Ok e → type e = EVENT_TYPE_TIMER →
  ∃ s' e', AppEvent_SetTimeout i t s = Ok s' ∧
    event_at i s' = Ok e' ∧
    triggered e' = false ∧ timeout e' = t ∧ ReloadValue (timer e') = t ∧
    AppEvent_GetTimeout i s' = Ok t.
Proof.
  intros Hok He Hty.
  destruct (registry_ok_kind s i e Hok He) as [Hgpio _]; [congruence |].
  unfold AppEvent_SetTimeout. rewrite He. simpl. rewrite Hgpio. simpl.
  eexists _, _. split; [reflexivity |].
  split; [by eapply event_at_set_event_same |].
  repeat (split; [done |]).
  unfold AppEvent_GetTimeout.
  erewrite event_at_set_event_same by exact He. simpl. by rewrite Hgpio.
Qed.

(** [AppEvent_Stop] returns when the descriptor is timer-driven, or bound
    to a line that exists; it writes the timer handle of its slot at most. *)
Lemma AppEvent_Stop_spec (i : N) (s : State) (e : AppEvent_t) :
  event_at i s = Ok e →
  (irqMode e ≠ NO_IRQ → is_Some (gpio_lines s !! irqGpio e)) →
  ∃ s1 tm, AppEvent_Stop i s = Ok s1 ∧
    event_at i s1 = Ok (set_timer tm e) ∧
    (irqMode e = NO_IRQ → IsStarted tm = false) ∧
    m_numEvents s1 = m_numEvents s ∧
    dispatched s1 = dispatched s ∧
    (registry_ok s → registry_ok s1).
Proof.
  intros He Hline. unfold AppEvent_Stop. rewrite He. simpl.
  destruct (irqMode e) eqn:Hmode; simpl.
  1: {
    eexists _, _. split; [reflexivity |].
    split; [by eapply event_at_set_event_same |].
    split; [done |]. split; [done |]. split; [done |].
    intros Hok. eapply registry_ok_set_event; [done | exact He |].
    by unfold same_identity.
  }
  all: destruct Hline as [g Hg]; [done |];
    unfold GpioRemoveInterrupt; rewrite Hg;
    eexists _, (timer e); (split; [reflexivity |]);
    rewrite set_timer_same;
    (split; [exact He |]); (split; [done |]); (split; [done |]);
    (split; [done |]); intros Hok; by eapply registry_ok_ext.
Qed.

(** The checks of the timer accessors: [AppEvent_GetTimeout] and
    [AppEvent_SetTimeout] halt on a descriptor that has a GPIO line, and on
    no other; [AppEvent_TimeRemaining] and [AppEvent_Running] assert
    nothing and return what the timer handle of the slot gives. *)
Lemma timer_accessors (TimerTimeRemaining : TimerEvent_t → N → N)
    (i : N) (s : State) (e : AppEvent_t) :
  event_at i s = Ok e →
  (irqGpio e ≠ NULL →
   AppEvent_GetTimeout i s = Halt ∧ ∀ t, AppEvent_SetTimeout i t s = Halt) ∧
  (irqGpio e = NULL → AppEvent_GetTimeout i s = Ok (timeout e)) ∧
  AppEvent_TimeRemaining TimerTimeRemaining i s
  = Ok (TimerTimeRemaining (timer e) (rtc_now s)) ∧
  AppEvent_Running i s = Ok (TimerRunning (timer e)).
Proof.
  intros He. split; [| split; [| split]].
  - intros Hline. apply N.eqb_neq in Hline.
    unfold AppEvent_GetTimeout, AppEvent_SetTimeout. rewrite He. simpl.
    by rewrite Hline.
  - intros Hline. unfold AppEvent_GetTimeout. rewrite He. simpl.
    by rewrite Hline.
  - unfold AppEvent_TimeRemaining. by rewrite He.
  - unfold AppEvent_Running. by rewrite He.
Qed.

(** ** Registration *)

Lemma registry_ok_boot (lines : gmap N Gpio_t) (now seed : N) :
  registry_ok (AppEvent_Init (boot lines now seed)).
Proof. by apply registry_okb_sound. Qed.

Lemma AppEvent_Init_boot (lines : gmap N Gpio_t) (now seed : N) :
  m_numEvents (AppEvent_Init (boot lines now seed)) = 0.
Proof. done. Qed.

(** Writing a fresh descriptor into the first free slot. *)
Lemma registry_ok_register (s : State) (e0 e' : AppEvent_t) :
  registry_ok s → m_numEvents s < MAX_EVENTS →
  event_at (m_numEvents s) s = Ok e0 →
  id e' = m_numEvents s → callback e' ≠ NULL →
  (type e' ≠ EVENT_TYPE_INTERRUPT → irqGpio e' = NULL ∧ irqMode e' = NO_IRQ) →
  registry_ok
    (set_event (m_numEvents s) e' (set_numEvents (m_numEvents s + 1) s)).
Proof.
  intros (Hn & Hlen & Hslots) Hlt He0 Hid Hcb Hkind.
  split; [simpl; unfold MAX_EVENTS in *; lia |].
  split; [simpl; by rewrite length_insert |].
  intros k ek Hk. simpl in Hk. simpl m_numEvents.
  destruct (decide (k = N.to_nat (m_numEvents s))) as [-> | Hne].
  - rewrite list_lookup_insert_eq in Hk by (by eapply event_at_in_range).
    injection Hk as <-. rewrite N2Nat.id.
    split; [done |]. split; [lia | done].
  - rewrite list_lookup_insert_ne in Hk by done.
    destruct (Hslots _ _ Hk) as (Hreg & Hfree & Hknd).
    split; [intros ?; apply Hreg; lia |].
    split; [intros ?; apply Hfree; lia | done].
Qed.

(** The end of each of the four entry points: the descriptor written is
    well-formed for the slot it takes. *)
Ltac register_tail He0 Hfree :=
  split; [done |]; split; [done |]; split;
  [ eapply registry_ok_register;
    [ done | done | exact He0 | done | done
    | simpl; intros Hkind;
      first [ congruence | split; [by eapply Hfree | done] ] ]
  | eexists; split;
    [ apply event_at_set_event_eq; simpl; by eapply event_at_in_range
    | done ] ].

(** A successful registration returns the number of events registered
    before it, takes one slot and keeps the invariant. *)
Lemma register_spec (r : registration) (s s' : State) (i : N) :
  registry_ok s → register r s = Ok (i, s') →
  i = m_numEvents s ∧ m_numEvents s' = m_numEvents s + 1 ∧ registry_ok s' ∧
  ∃ e, event_at i s' = Ok e ∧ id e = i.
Proof.
  intros Hok Hreg.
  assert (Hcreate : ∀ nm cb ctx,
            m_numEvents s < MAX_EVENTS →
            ∃ e0, event_at (m_numEvents s) s = Ok e0 ∧
              CreateEvent nm cb ctx s
              = Ok (m_numEvents s,
                    set_event (m_numEvents s)
                      (mkEvent (match nm with Some n => Some n | None => name e0 end)
                         ctx cb false false (single e0) (m_numEvents s)
                         EVENT_TYPE_GENERAL (timer e0) (timeout e0)
                         (timeoutRandomizer e0) (irqGpio e0) NO_IRQ
                         (irqPriority e0)
                         (mkDiagnostics true (startTime (diagnostics e0)) 0 0))
                      (set_numEvents (m_numEvents s + 1) s))).
  { intros nm cb ctx Hlt.
    destruct (event_at_below (m_numEvents s) s Hok Hlt) as [e0 He0].
    exists e0. split; [done |]. unfold CreateEvent.
    assert (u8 (m_numEvents s + 1) = m_numEvents s + 1) as ->
      by (unfold u8, MAX_EVENTS in *; lia).
    change (event_at (m_numEvents s) (set_numEvents (m_numEvents s + 1) s))
      with (event_at (m_numEvents s) s).
    by rewrite He0. }
  assert (Hfree : ∀ e0, m_numEvents s < MAX_EVENTS →
            event_at (m_numEvents s) s = Ok e0 → irqGpio e0 = NULL).
  { intros e0 Hlt He0.
    assert (type e0 = EVENT_TYPE_GENERAL) as Hty
      by (eapply registry_ok_unregistered; eauto; lia).
    destruct (registry_ok_kind s _ e0 Hok He0) as [? _]; [congruence | done]. }
  assert (Hwith : ∀ p nm cb t rz ctx,
            AppEvent_RegisterTimerWithRandomizer p nm cb t rz ctx s = Ok (i, s') →
            i = m_numEvents s ∧ m_numEvents s' = m_numEvents s + 1 ∧
            registry_ok s' ∧ ∃ e, event_at i s' = Ok e ∧ id e = i).
  { intros p nm cb t rz ctx H.
    unfold AppEvent_RegisterTimerWithRandomizer in H.
    destruct (m_initialized s) eqn:Hinit; [| done]. simpl in H.
    destruct (m_numEvents s <? MAX_EVENTS) eqn:Hlt; [| done]. simpl in H.
    destruct (negb (p =? NULL)); [| done]. simpl in H.
    destruct (negb (cb =? NULL)) eqn:Hcb; [| done]. simpl in H.
    apply N.ltb_lt in Hlt. apply negb_true_iff, N.eqb_neq in Hcb.
    destruct (Hcreate nm cb ctx Hlt) as (e0 & He0 & Hc). rewrite Hc in H.
    simpl in H. erewrite event_at_set_event_eq in H
      by (simpl; by eapply event_at_in_range).
    simpl in H. rewrite set_event_twice in H. injection H as H1 H2.
    subst i s'. register_tail He0 Hfree. }
  destruct r as [p nm cb ctx | p nm cb t ctx | p nm cb t rz ctx
                | p nm cb g m pr ctx]; simpl in Hreg.
  - unfold AppEvent_RegisterEvent in Hreg.
    destruct (m_initialized s) eqn:Hinit; [| done]. simpl in Hreg.
    destruct (m_numEvents s <? MAX_EVENTS) eqn:Hlt; [| done]. simpl in Hreg.
    destruct (negb (p =? NULL)); [| done]. simpl in Hreg.
    destruct (negb (cb =? NULL)) eqn:Hcb; [| done]. simpl in Hreg.
    apply N.ltb_lt in Hlt. apply negb_true_iff, N.eqb_neq in Hcb.
    destruct (Hcreate nm cb ctx Hlt) as (e0 & He0 & Hc). rewrite Hc in Hreg.
    simpl in Hreg. erewrite event_at_set_event_eq in Hreg
      by (simpl; by eapply event_at_in_range).
    simpl in Hreg. injection Hreg as H1 H2.
    subst i s'. register_tail He0 Hfree.
  - unfold AppEvent_RegisterTimer in Hreg.
    destruct (m_initialized s); [| done]. simpl in Hreg. by eapply Hwith.
  - by eapply Hwith.
  - unfold AppEvent_RegisterInterrupt in Hreg.
    destruct (m_initialized s) eqn:Hinit; [| done]. simpl in Hreg.
    destruct (m_numEvents s <? MAX_EVENTS) eqn:Hlt; [| done]. simpl in Hreg.
    destruct (negb (p =? NULL)); [| done]. simpl in Hreg.
    destruct (negb (cb =? NULL)) eqn:Hcb; [| done]. simpl in Hreg.
    apply N.ltb_lt in Hlt. apply negb_true_iff, N.eqb_neq in Hcb.
    destruct (Hcreate nm cb ctx Hlt) as (e0 & He0 & Hc). rewrite Hc in Hreg.
    simpl in Hreg. erewrite event_at_set_event_eq in Hreg
      by (simpl; by eapply event_at_in_range).
    simpl in Hreg. rewrite set_event_twice in Hreg. injection Hreg as H1 H2.
    subst i s'. register_tail He0 Hfree.
Qed.

(** A registration returns when the module is initialised, a slot is free
    and neither the out-parameter nor the callback is null; it halts
    otherwise. *)
Lemma register_returns (r : registration) (s : State) :
  registry_ok s →
  if m_initialized s && (m_numEvents s <? MAX_EVENTS)
     && negb (request_eventId r =? NULL) && negb (request_callback r =? NULL)
  then ∃ s', register r s = Ok (m_numEvents s, s')
  else register r s = Halt.
Proof.
  intros Hok.
  destruct (m_initialized s) eqn:Hinit; simpl.
  2: { destruct r; reflexivity || (simpl; unfold AppEvent_RegisterEvent,
         AppEvent_RegisterTimer, AppEvent_RegisterTimerWithRandomizer,
         AppEvent_RegisterInterrupt; by rewrite Hinit). }
  destruct (m_numEvents s <? MAX_EVENTS) eqn:Hlt; simpl.
  2: { destruct r; simpl; unfold AppEvent_RegisterEvent,
         AppEvent_RegisterTimer, AppEvent_RegisterTimerWithRandomizer,
         AppEvent_RegisterInterrupt; by rewrite Hinit, ?Hlt; simpl; rewrite ?Hlt. }
  apply N.ltb_lt in Hlt as Hlt'.
  destruct (event_at_below (m_numEvents s) s Hok Hlt') as [e0 He0].
  assert (Hc : ∀ nm cb ctx, ∃ e1 s1,
            CreateEvent nm cb ctx s = Ok (m_numEvents s, s1) ∧
            event_at (m_numEvents s) s1 = Ok e1 ∧ id e1 = m_numEvents s).
  { intros nm cb ctx. unfold CreateEvent.
    change (event_at (m_numEvents s)
              (set_numEvents (u8 (m_numEvents s + 1)) s))
      with (event_at (m_numEvents s) s).
    rewrite He0. eexists _, _. split; [reflexivity |].
    split; [apply event_at_set_event_eq; simpl; by eapply event_at_in_range
           | reflexivity]. }
  destruct r as [p nm cb ctx | p nm cb t ctx | p nm cb t rz ctx
                | p nm cb g m pr ctx]; simpl;
    unfold AppEvent_RegisterEvent, AppEvent_RegisterTimer,
      AppEvent_RegisterTimerWithRandomizer, AppEvent_RegisterInterrupt;
    rewrite Hinit, ?Hlt; simpl; rewrite ?Hlt; simpl;
    destruct (negb (p =? NULL)); simpl; try reflexivity;
    destruct (negb (cb =? NULL)); simpl; try reflexivity;
    destruct (Hc nm cb ctx) as (e1 & s1 & Hcr & He1 & Hid);
    rewrite Hcr; simpl; rewrite He1; simpl; rewrite ?Hid; eauto.
Qed.

Lemma register_all_spec (rs : list registration) :
  ∀ (s s' : State) (ids : list N),
    registry_ok s → register_all rs s = Ok (ids, s') →
    ids = (λ k, m_numEvents s + N.of_nat k) <$> seq 0 (length rs) ∧
    m_numEvents s' = m_numEvents s + N.of_nat (length rs) ∧
    registry_ok s'.
Proof.
  induction rs as [| r rs IH]; intros s s' ids Hok Hall.
  - injection Hall as <- <-. simpl. split; [done |]. split; [lia | done].
  - simpl in Hall.
    destruct (register r s) as [[i s1] | |] eqn:Hr; [| done | done].
    simpl in Hall.
    destruct (register_all rs s1) as [[ids1 s2] | |] eqn:Hrs; [| done | done].
    simpl in Hall. injection Hall as <- <-.
    destruct (register_spec r s s1 i Hok Hr) as (-> & Hn1 & Hok1 & _).
    destruct (IH s1 s2 ids1 Hok1 Hrs) as (-> & Hn2 & Hok2).
    split; [| split; [simpl length; lia | done]].
    simpl length. rewrite <- cons_seq, fmap_cons, <- fmap_S_seq, <- list_fmap_compose.
    f_equal; [f_equal; lia |].
    apply list_fmap_ext. intros _ k _. simpl. lia.
Qed.

(** C5: from [AppEvent_Init] on, whatever sequence of registrations
    succeeds through the four entry points returns the ids 0, 1, 2, ... in
    registration order; the ids are pairwise distinct, they are exactly
    the numbers below [m_numEvents], and the descriptor registered under id
    [k] is the one of slot [k], which carries [k] in its [id] field. *)
Theorem registration_ids (rs : list registration) (lines : gmap N Gpio_t)
    (now seed : N) (ids : list N) (s' : State) :
  register_all rs (AppEvent_Init (boot lines now seed)) = Ok (ids, s') →
  ids = N.of_nat <$> seq 0 (length rs) ∧
  NoDup ids ∧
  m_numEvents s' = N.of_nat (length rs) ∧
  (∀ k, k ∈ ids ↔ k < m_numEvents s') ∧
  (∀ k, k < m_numEvents s' → ∃ e, event_at k s' = Ok e ∧ id e = k).
Proof.
  intros Hall.
  destruct (register_all_spec rs _ s' ids (registry_ok_boot lines now seed) Hall)
    as (Hids & Hn & Hok).
  rewrite AppEvent_Init_boot in Hids, Hn.
  assert (Hids' : ids = N.of_nat <$> seq 0 (length rs)).
  { rewrite Hids. apply list_fmap_ext. intros _ k _. lia. }
  split; [done |]. split.
  { rewrite Hids'. apply NoDup_fmap_2; [apply _ | apply NoDup_seq]. }
  split; [lia |]. split.
  - intros k. rewrite Hids', Hn, list_elem_of_fmap. split.
    + intros (j & -> & Hj). apply elem_of_seq in Hj. lia.
    + intros Hk. exists (N.to_nat k). split; [lia |].
      apply elem_of_seq. lia.
  - intros k Hk.
    destruct (event_at_below k s' Hok) as [e He].
    { destruct Hok as (? & _). lia. }
    exists e. split; [done |].
    by destruct (registry_ok_registered s' k e Hok He Hk).
Qed.

(** ** Arming *)

Section Arming.

Variable rand : N → N * N.
Variable scale_rand : N → N → N.

(** [StartEvent] returns when the descriptor is timer-driven, or bound to a
    line that exists; it writes the timer handle of its slot at most. *)
Lemma StartEvent_spec (i : N) (s : State) (e : AppEvent_t) :
  event_at i s = Ok e →
  (irqMode e ≠ NO_IRQ → is_Some (gpio_lines s !! irqGpio e)) →
  ∃ s' tm, StartEvent rand scale_rand i s = Ok s' ∧
    event_at i s' = Ok (set_timer tm e) ∧
    (irqMode e = NO_IRQ → IsStarted tm = true) ∧
    m_numEvents s' = m_numEvents s ∧
    (∀ j, j ≠ i → event_at j s' = event_at j s) ∧
    dispatched s' = dispatched s ∧
    (registry_ok s → registry_ok s').
Proof.
  intros He Hline. unfold StartEvent. rewrite He. simpl.
  destruct (irqMode e) eqn:Hmode; simpl.
  1: {
    destruct (0 <? timeoutRandomizer e).
    - destruct (rand (rand_seed s)) as [r seed'].
      eexists _, _. split; [reflexivity |].
      split; [by eapply event_at_set_event_same |].
      split; [done |]. split; [done |].
      split; [intros j Hj; by rewrite event_at_set_event_ne |].
      split; [done |]. intros Hok.
      eapply (registry_ok_set_event (set_rand_seed seed' s)); [| exact He |].
      + by eapply registry_ok_ext.
      + by unfold same_identity.
    - eexists _, _. split; [reflexivity |].
      split; [by eapply event_at_set_event_same |].
      split; [done |]. split; [done |].
      split; [intros j Hj; by rewrite event_at_set_event_ne |].
      split; [done |]. intros Hok.
      eapply (registry_ok_set_event (set_rand_seed (rand_seed s) s));
        [| exact He |].
      + by eapply registry_ok_ext.
      + by unfold same_identity.
  }
  all: destruct Hline as [g Hg]; [done |];
    unfold GpioSetInterrupt; rewrite Hg; simpl;
    unfold GpioMcuSetContext; simpl; rewrite lookup_insert_eq;
    eexists _, (timer e); (split; [reflexivity |]);
    rewrite set_timer_same;
    (split; [exact He |]); (split; [done |]); (split; [done |]);
    (split; [done |]); (split; [done |]);
    intros Hok; by eapply registry_ok_ext.
Qed.

(** The descriptor as [AppEvent_Start] leaves it before arming. *)
Lemma AppEvent_Start_unfold (i : N) (b : bool) (s : State) (e : AppEvent_t) :
  event_at i s = Ok e →
  AppEvent_Start rand scale_rand i b s
  = StartEvent rand scale_rand i
      (set_event i
         (set_diagnostics (set_startTime (rtc_now s) (diagnostics e))
            (set_single b (set_triggered false e))) s).
Proof. intros He. unfold AppEvent_Start. by rewrite He. Qed.

End Arming.

Section Dispatch.

Variable cb_sem : N → State → outcome State.

(** ** The sweep around one slot *)

(** Processing another slot keeps what is known of slot [i]. *)
Lemma process_event_other (i j : N) (P : AppEvent_t → nat → Prop) (n : N)
    (s : State) :
  j ≠ i → j < n → (∀ c, cb_keeps cb_sem i P n c) → Inv i P n s →
  ∃ s', process_event cb_sem j s = Ok s' ∧ Inv i P n s'.
Proof.
  intros Hne Hj Hcb HI.
  destruct HI as (Hok & Hn & HP).
  assert (HI : Inv i P n s) by done.
  destruct (event_at_below j s Hok) as [ej Hej].
  { destruct Hok as (Hle & _). lia. }
  unfold process_event. rewrite Hej. simpl.
  destruct (triggered ej && negb (paused ej)); [| eauto].
  set (e1 := set_triggered false ej).
  assert (HI1 : Inv i P n (set_event j e1 s)).
  { eapply Inv_set_other; eauto. by unfold same_identity. }
  destruct (admitted e1); [| eauto].
  set (e2 := set_diagnostics _ e1).
  assert (HI2 : Inv i P n (set_event j e2 (set_event j e1 s))).
  { eapply Inv_set_other; eauto.
    - by eapply event_at_set_event_same.
    - by unfold same_identity. }
  destruct (_ =? NULL); [eauto |].
  apply (Hcb _). by apply Inv_log_other.
Qed.

(** The sweep around slot [i]: the slots before it keep [P], the body at [i]
    turns [P] into [Q], the slots behind it keep [Q]. *)
Lemma sweep_around (i : N) (P Q : AppEvent_t → nat → Prop) (n : N) (s : State) :
  i < n → Inv i P n s →
  (∀ c, cb_keeps cb_sem i P n c) → (∀ c, cb_keeps cb_sem i Q n c) →
  (∀ s, Inv i P n s → ∃ s', process_event cb_sem i s = Ok s' ∧ Inv i Q n s') →
  ∃ s', AppEvent_ProcessMainEvents cb_sem s = Ok s' ∧ Inv i Q n s'.
Proof.
  intros Hi HI HcbP HcbQ Hstep.
  assert (Hn32 : n ≤ MAX_EVENTS).
  { destruct HI as ((Hle & _) & <- & _). done. }
  unfold MAX_EVENTS in Hn32.
  pose (I := λ (j : N) (s : State),
               if decide (j ≤ i) then Inv i P n s else Inv i Q n s).
  destruct (for_events_run (process_event cb_sem) I n) with
    (len := N.to_nat n) (a := 0) (fuel := 256%nat) (s := s)
    as (s' & Hrun & HI').
  - lia.
  - intros j s0. unfold I. destruct (decide (j ≤ i)); by intros (_ & ? & _).
  - intros j s0 Hj. unfold I.
    destruct (decide (j ≤ i)) as [Hle | Hgt].
    + destruct (decide (j = i)) as [-> | Hne].
      * intros H0. destruct (Hstep _ H0) as (s1 & Hs1 & HQ).
        exists s1. split; [done |].
        destruct (decide (i + 1 ≤ i)); [lia | done].
      * intros H0.
        destruct (process_event_other i j P n s0) as (s1 & Hs1 & HP1); try done.
        exists s1. split; [done |].
        destruct (decide (j + 1 ≤ i)); [done | lia].
    + intros H0.
      destruct (process_event_other i j Q n s0) as (s1 & Hs1 & HQ1);
        try done; [lia |].
      exists s1. split; [done |].
      destruct (decide (j + 1 ≤ i)); [lia | done].
  - lia.
  - lia.
  - unfold I. destruct (decide (0 ≤ i)); [done | lia].
  - exists s'. split; [done |].
    unfold I in HI'. destruct (decide (n ≤ i)); [lia | done].
Qed.

(** A framing callback keeps every property of slot [i]. *)
Lemma frames_keeps (i c : N) (P : AppEvent_t → nat → Prop) (n : N) :
  frames cb_sem i c → cb_keeps cb_sem i P n c.
Proof.
  intros Hf s (Hok & Hn & e & He & HP).
  destruct (Hf s Hok) as (s' & Hs' & Hok' & Hn' & He' & Hinv').
  exists s'. split; [done |]. split; [done |]. split; [congruence |].
  exists e. rewrite He', Hinv'. done.
Qed.

(** ** The trigger path *)

Lemma DoTrigger_main (i : N) (s : State) (e : AppEvent_t) :
  event_at i s = Ok e → context e = APP_EVENT_CONTEXT_MAIN →
  DoTrigger cb_sem i s = Ok (set_event i (count_trigger 1 e) s).
Proof.
  intros He Hctx. unfold DoTrigger. rewrite He. simpl. by rewrite Hctx.
Qed.

Lemma DoTrigger_immediate (i : N) (s : State) (e : AppEvent_t) :
  event_at i s = Ok e → context e = APP_EVENT_CONTEXT_IMMEDIATE →
  callback e ≠ NULL →
  DoTrigger cb_sem i s
  = cb_sem (callback e) (log_dispatch i (set_event i (count_immediate e) s)).
Proof.
  intros He Hctx Hcb. unfold DoTrigger. rewrite He. simpl. rewrite Hctx.
  simpl. apply N.eqb_neq in Hcb. by rewrite Hcb.
Qed.

(** The scan finds the one descriptor that carries the id. *)
Lemma AppEvent_Trigger_main (i : N) (s : State) (e : AppEvent_t) :
  registry_ok s → i < m_numEvents s → event_at i s = Ok e →
  context e = APP_EVENT_CONTEXT_MAIN →
  AppEvent_Trigger cb_sem i s = Ok (set_event i (count_trigger 1 e) s).
Proof.
  intros Hok Hi He Hctx.
  set (s' := set_event i (count_trigger 1 e) s).
  assert (Hok' : registry_ok s').
  { eapply registry_ok_set_event; [done | exact He |]. by unfold same_identity. }
  assert (Hn32 : m_numEvents s ≤ 32) by (by destruct Hok as (? & _)).
  pose (I := λ (j : N) (s0 : State),
               if decide (j ≤ i) then s0 = s else s0 = s').
  unfold AppEvent_Trigger.
  edestruct (for_events_run
               (λ i0 s0, event <- event_at i0 s0 ;;
                         if id event =? i then DoTrigger cb_sem i0 s0 else Ok s0)
               I (m_numEvents s))
    with (len := N.to_nat (m_numEvents s)) (a := 0) (fuel := 256%nat) (s := s)
    as (s2 & Hrun & HI2).
  - lia.
  - intros j s0. unfold I. destruct (decide (j ≤ i)); by intros ->.
  - intros j s0 Hj. unfold I. destruct (decide (j ≤ i)) as [Hle | Hgt]; intros ->.
    + destruct (event_at_below j s Hok) as [ej Hej]; [unfold MAX_EVENTS; lia |].
      rewrite Hej. simpl.
      destruct (registry_ok_registered s j ej Hok Hej Hj) as [-> _].
      destruct (decide (j = i)) as [-> | Hne].
      * rewrite N.eqb_refl. assert (ej = e) as -> by congruence.
        exists s'. split; [by apply DoTrigger_main |].
        destruct (decide (i + 1 ≤ i)); [lia | done].
      * apply N.eqb_neq in Hne as Hneb. rewrite Hneb.
        exists s. split; [done |].
        destruct (decide (j + 1 ≤ i)); [done | lia].
    + destruct (event_at_below j s' Hok') as [ej Hej]; [unfold MAX_EVENTS; lia |].
      rewrite Hej. simpl.
      destruct (registry_ok_registered s' j ej Hok' Hej Hj) as [-> _].
      assert (j ≠ i) as Hne by lia.
      apply N.eqb_neq in Hne as Hneb. rewrite Hneb.
      exists s'. split; [done |].
      destruct (decide (j + 1 ≤ i)); [lia | done].
  - lia.
  - lia.
  - unfold I. destruct (decide (0 ≤ i)); [done | lia].
  - unfold I in HI2. destruct (decide (m_numEvents s ≤ i)); [lia |].
    by rewrite Hrun, HI2.
Qed.

(** No registered descriptor carries an id that was never assigned. *)
Lemma AppEvent_Trigger_absent (i : N) (s : State) :
  registry_ok s → m_numEvents s ≤ i →
  AppEvent_Trigger cb_sem i s = Ok s.
Proof.
  intros Hok Hi.
  assert (Hn32 : m_numEvents s ≤ 32) by (by destruct Hok as (? & _)).
  unfold AppEvent_Trigger.
  edestruct (for_events_run
               (λ i0 s0, event <- event_at i0 s0 ;;
                         if id event =? i then DoTrigger cb_sem i0 s0 else Ok s0)
               (λ _ s0, s0 = s) (m_numEvents s))
    with (len := N.to_nat (m_numEvents s)) (a := 0) (fuel := 256%nat) (s := s)
    as (s2 & Hrun & ->); try done; try lia.
  - by intros j s0 ->.
  - intros j s0 Hj ->.
    destruct (event_at_below j s Hok) as [ej Hej]; [unfold MAX_EVENTS; lia |].
    rewrite Hej. simpl.
    destruct (registry_ok_registered s j ej Hok Hej Hj) as [-> _].
    assert (j ≠ i) as Hne by lia.
    apply N.eqb_neq in Hne as Hneb. rewrite Hneb. by exists s.
Qed.

(** ** One round of the sweep at the slot itself, and whole sweeps among
    callbacks that leave the slot alone *)

Lemma process_event_skip (i : N) (s : State) (e : AppEvent_t) :
  event_at i s = Ok e → triggered e && negb (paused e) = false →
  process_event cb_sem i s = Ok s.
Proof.
  intros He Hskip. unfold process_event. rewrite He. simpl. by rewrite Hskip.
Qed.

Lemma process_event_drop (i : N) (s : State) (e : AppEvent_t) :
  event_at i s = Ok e → triggered e = true → paused e = false →
  admitted e = false →
  process_event cb_sem i s = Ok (set_event i (set_triggered false e) s).
Proof.
  intros He Ht Hp Ha. unfold process_event. rewrite He. simpl.
  rewrite Ht, Hp. simpl.
  change (admitted (set_triggered false e)) with (admitted e). by rewrite Ha.
Qed.

Lemma process_event_dispatch (i : N) (s : State) (e : AppEvent_t) :
  event_at i s = Ok e → triggered e = true → paused e = false →
  admitted e = true → callback e ≠ NULL →
  process_event cb_sem i s
  = cb_sem (callback e) (log_dispatch i (set_event i (processed e) s)).
Proof.
  intros He Ht Hp Ha Hcb. unfold process_event. rewrite He. simpl.
  rewrite Ht, Hp. simpl.
  change (admitted (set_triggered false e)) with (admitted e). rewrite Ha.
  apply N.eqb_neq in Hcb. simpl. rewrite Hcb.
  by rewrite set_event_twice.
Qed.

Lemma sweep_framed (i : N) (s : State) (e eQ : AppEvent_t) (kQ : nat) :
  registry_ok s → i < m_numEvents s → event_at i s = Ok e →
  (∀ c, frames cb_sem i c) →
  (∀ s0, Inv i (λ e' k, e' = e ∧ k = invocations i s) (m_numEvents s) s0 →
     ∃ s', process_event cb_sem i s0 = Ok s' ∧
           Inv i (λ e' k, e' = eQ ∧ k = kQ) (m_numEvents s) s') →
  ∃ s', AppEvent_ProcessMainEvents cb_sem s = Ok s' ∧ registry_ok s' ∧
    m_numEvents s' = m_numEvents s ∧ event_at i s' = Ok eQ ∧
    invocations i s' = kQ.
Proof.
  intros Hok Hi He Hfr Hstep.
  destruct (sweep_around i (λ e' k, e' = e ∧ k = invocations i s)
              (λ e' k, e' = eQ ∧ k = kQ) (m_numEvents s) s)
    as (s' & Hs' & Hok' & Hn' & e' & He' & -> & Hk'); try done.
  - split; [done |]. split; [done |]. by exists e.
  - intros c. by apply frames_keeps.
  - intros c. by apply frames_keeps.
  - by exists s'.
Qed.

(** A slot that is not flagged, or is paused, is passed over. *)
Lemma sweep_skips (i : N) (s : State) (e : AppEvent_t) :
  registry_ok s → i < m_numEvents s → event_at i s = Ok e →
  triggered e && negb (paused e) = false →
  (∀ c, frames cb_sem i c) →
  ∃ s', AppEvent_ProcessMainEvents cb_sem s = Ok s' ∧ registry_ok s' ∧
    m_numEvents s' = m_numEvents s ∧ event_at i s' = Ok e ∧
    invocations i s' = invocations i s.
Proof.
  intros Hok Hi He Hskip Hfr. apply sweep_framed with (e := e); try done.
  intros s0 HI. exists s0.
  destruct HI as (Hok0 & Hn0 & e0 & He0 & -> & Hk0).
  split; [by eapply process_event_skip |].
  split; [done |]. split; [done |]. by exists e.
Qed.

(** ... and so it is by any number of sweeps in a row. *)
Lemma sweeps_skip (i : N) (e : AppEvent_t) (k : nat) :
  ∀ s, registry_ok s → i < m_numEvents s → event_at i s = Ok e →
    triggered e && negb (paused e) = false →
    (∀ c, frames cb_sem i c) →
    ∃ s', sweep_times cb_sem k s = Ok s' ∧ registry_ok s' ∧
      m_numEvents s' = m_numEvents s ∧ event_at i s' = Ok e ∧
      invocations i s' = invocations i s.
Proof.
  induction k as [| k IH]; intros s Hok Hi He Hskip Hfr.
  - by exists s.
  - destruct (sweep_skips i s e) as (s1 & Hs1 & Hok1 & Hn1 & He1 & Hk1);
      try done.
    destruct (IH s1) as (s' & Hs' & Hok' & Hn' & He' & Hk'); try done;
      [lia |].
    exists s'. simpl. rewrite Hs1. simpl.
    split; [done |]. split; [done |]. split; [congruence |].
    split; [done | congruence].
Qed.

(** A flagged slot that fails the admission test loses its flag only. *)
Lemma sweep_drops (i : N) (s : State) (e : AppEvent_t) :
  registry_ok s → i < m_numEvents s → event_at i s = Ok e →
  triggered e = true → paused e = false → admitted e = false →
  (∀ c, frames cb_sem i c) →
  ∃ s', AppEvent_ProcessMainEvents cb_sem s = Ok s' ∧ registry_ok s' ∧
    m_numEvents s' = m_numEvents s ∧
    event_at i s' = Ok (set_triggered false e) ∧
    invocations i s' = invocations i s.
Proof.
  intros Hok Hi He Ht Hp Ha Hfr. apply sweep_framed with (e := e); try done.
  intros s0 (Hok0 & Hn0 & e0 & He0 & -> & Hk0).
  exists (set_event i (set_triggered false e) s0).
  split; [by eapply process_event_drop |].
  split.
  { eapply registry_ok_set_event; [done | exact He0 |]. by unfold same_identity. }
  split; [done |]. exists (set_triggered false e).
  split; [by eapply event_at_set_event_same |]. done.
Qed.

(** A flagged, admitted slot is dispatched once. *)
Lemma sweep_dispatches (i : N) (s : State) (e : AppEvent_t) :
  registry_ok s → i < m_numEvents s → event_at i s = Ok e →
  triggered e = true → paused e = false → admitted e = true →
  (∀ c, frames cb_sem i c) →
  ∃ s', AppEvent_ProcessMainEvents cb_sem s = Ok s' ∧ registry_ok s' ∧
    m_numEvents s' = m_numEvents s ∧
    event_at i s' = Ok (processed e) ∧
    invocations i s' = S (invocations i s).
Proof.
  intros Hok Hi He Ht Hp Ha Hfr. apply sweep_framed with (e := e); try done.
  intros s0 (Hok0 & Hn0 & e0 & He0 & -> & Hk0).
  destruct (registry_ok_registered s0 i e Hok0 He0) as [_ Hcb]; [lia |].
  rewrite (process_event_dispatch i s0 e He0 Ht Hp Ha Hcb).
  pose proof (Inv_dispatch i s0 e Hok0 He0) as HI.
  rewrite Hk0, Hn0 in HI.
  by apply (frames_keeps i (callback e)) in HI.
Qed.

(** ** The claims on re-triggering, immediate events, pausing and stopping *)

(** C2: in a sweep, the flag of an admitted main-context event is cleared
    in the state its callback is called with; if that callback triggers the
    same event again, the sweep ends with the flag set (the new trigger is
    kept) and has called the callback exactly once.  The other callbacks
    are taken to leave the descriptor alone. *)
Theorem retrigger_in_callback (i : N) (s : State) (e : AppEvent_t) :
  registry_ok s → i < m_numEvents s → event_at i s = Ok e →
  context e = APP_EVENT_CONTEXT_MAIN →
  triggered e = true → paused e = false → admitted e = true →
  (∀ s0 e0, registry_ok s0 → i < m_numEvents s0 → event_at i s0 = Ok e0 →
     context e0 = APP_EVENT_CONTEXT_MAIN →
     cb_sem (callback e) s0 = AppEvent_Trigger cb_sem i s0) →
  (∀ c, c ≠ callback e → frames cb_sem i c) →
  (process_event cb_sem i s
   = cb_sem (callback e) (log_dispatch i (set_event i (processed e) s)) ∧
   event_at i (log_dispatch i (set_event i (processed e) s)) = Ok (processed e) ∧
   triggered (processed e) = false) ∧
  ∃ s' e', AppEvent_ProcessMainEvents cb_sem s = Ok s' ∧
    event_at i s' = Ok e' ∧
    triggered e' = true ∧
    processCount (diagnostics e')
    = u16 (processCount (diagnostics e) + 1) ∧
    invocations i s' = S (invocations i s).
Proof.
  intros Hok Hi He Hctx Ht Hp Ha Hself Hothers.
  destruct (registry_ok_registered s i e Hok He Hi) as [_ Hcb].
  split.
  { split; [by apply process_event_dispatch |].
    split; [| done]. by eapply (event_at_set_event_same i e). }
  set (k0 := invocations i s).
  set (P := λ (e' : AppEvent_t) (k : nat),
              context e' = APP_EVENT_CONTEXT_MAIN ∧ triggered e' = true ∧
              paused e' = false ∧ admitted e' = true ∧
              callback e' = callback e ∧
              processCount (diagnostics e') = processCount (diagnostics e) ∧
              k = k0).
  set (Q := λ (e' : AppEvent_t) (k : nat),
              context e' = APP_EVENT_CONTEXT_MAIN ∧ triggered e' = true ∧
              processCount (diagnostics e')
              = u16 (processCount (diagnostics e) + 1) ∧
              k = S k0).
  assert (Hkeep : ∀ (R : AppEvent_t → nat → Prop),
            (∀ e' k, R e' k → context e' = APP_EVENT_CONTEXT_MAIN) →
            (∀ e' k, R e' k → R (count_trigger 1 e') k) →
            ∀ c, cb_keeps cb_sem i R (m_numEvents s) c).
  { intros R Hmain Hstable c.
    destruct (decide (c = callback e)) as [-> | Hne];
      [| by apply frames_keeps, Hothers].
    intros s0 (Hok0 & Hn0 & e0 & He0 & HR).
    rewrite (Hself s0 e0), (AppEvent_Trigger_main i s0 e0); eauto; try lia.
    eexists. split; [reflexivity |].
    split.
    { eapply registry_ok_set_event; [done | exact He0 |].
      by unfold same_identity. }
    split; [done |]. exists (count_trigger 1 e0).
    split; [by eapply event_at_set_event_same |]. by apply Hstable. }
  destruct (sweep_around i P Q (m_numEvents s) s)
    as (s' & Hs' & _ & _ & e' & He' & _ & Ht' & Hpc' & Hk'); try done.
  - split; [done |]. split; [done |]. by exists e.
  - apply Hkeep.
    + by intros e' k (? & _).
    + by intros e' k (? & ? & ? & ? & ? & ? & ?).
  - apply Hkeep.
    + by intros e' k (? & _).
    + by intros e' k (? & ? & ? & ?).
  - intros s0 (Hok0 & Hn0 & e0 & He0 & Hc0 & Ht0 & Hp0 & Ha0 & Hcb0 & Hpc0 & Hk0).
    assert (callback e0 ≠ NULL) as Hcbn by congruence.
    rewrite (process_event_dispatch i s0 e0 He0 Ht0 Hp0 Ha0 Hcbn), Hcb0.
    pose proof (Inv_dispatch i s0 e0 Hok0 He0) as (Hok1 & Hn1 & e1 & He1 & -> & Hk1).
    rewrite (Hself _ (processed e0)), (AppEvent_Trigger_main i _ (processed e0));
      try done; try (simpl; lia).
    eexists. split; [reflexivity |].
    split.
    { eapply registry_ok_set_event; [done | exact He1 |].
      by unfold same_identity. }
    split; [simpl; lia |]. exists (count_trigger 1 (processed e0)).
    split; [by eapply event_at_set_event_same |].
    split; [done |]. split; [done |].
    split; [simpl; by rewrite Hpc0 |].
    change (invocations i (log_dispatch i (set_event i (processed e0) s0))
            = S k0).
    rewrite Hk1. by rewrite Hk0.
  - by exists s', e'.
Qed.

(** C6 (as amended): for a registered immediate-context event, one call
    of the trigger path advances [triggerCount] and [processCount] by 1
    modulo 2^16 each (both are [uint16_t]) and then calls the callback,
    once and before returning; the [triggered] flag is not written.  With
    a callback that leaves the descriptor alone, this is the state the
    call returns. *)
Theorem immediate_trigger (i : N) (s : State) (e : AppEvent_t) :
  registry_ok s → i < m_numEvents s → event_at i s = Ok e →
  context e = APP_EVENT_CONTEXT_IMMEDIATE →
  DoTrigger cb_sem i s
  = cb_sem (callback e) (log_dispatch i (set_event i (count_immediate e) s)) ∧
  event_at i (log_dispatch i (set_event i (count_immediate e) s))
  = Ok (count_immediate e) ∧
  invocations i (log_dispatch i (set_event i (count_immediate e) s))
  = S (invocations i s) ∧
  triggerCount (diagnostics (count_immediate e))
  = u16 (triggerCount (diagnostics e) + 1) ∧
  processCount (diagnostics (count_immediate e))
  = u16 (processCount (diagnostics e) + 1) ∧
  triggered (count_immediate e) = triggered e ∧
  (frames cb_sem i (callback e) →
   ∃ s', DoTrigger cb_sem i s = Ok s' ∧
     event_at i s' = Ok (count_immediate e) ∧
     invocations i s' = S (invocations i s)).
Proof.
  intros Hok Hi He Hctx.
  destruct (registry_ok_registered s i e Hok He Hi) as [_ Hcb].
  set (s1 := log_dispatch i (set_event i (count_immediate e) s)).
  assert (He1 : event_at i s1 = Ok (count_immediate e))
    by (by eapply (event_at_set_event_same i e)).
  assert (Hk1 : invocations i s1 = S (invocations i s))
    by (unfold s1; by rewrite invocations_log_self).
  split; [by apply DoTrigger_immediate |].
  split; [done |]. split; [done |]. split; [done |]. split; [done |].
  split; [done |]. intros Hfr.
  rewrite (DoTrigger_immediate i s e He Hctx Hcb). fold s1.
  destruct (Hfr s1) as (s' & Hs' & _ & _ & He' & Hk').
  { apply registry_ok_log. eapply registry_ok_set_event; [done | exact He |].
    by unfold same_identity. }
  exists s'. split; [done |]. split; congruence.
Qed.

(** C8 (as amended): while a main-context event is paused, no sweep,
    however many follow, calls its callback or writes its descriptor, and
    the trigger
    path still sets [triggered] and advances [triggerCount] (by 1 modulo
    2^16).  After [AppEvent_Resume], the next sweep clears a pending flag;
    it calls the callback (once, with [processCount] advanced) when the
    descriptor passes the admission test of the sweep, and drops the flag
    without a call when it does not.  Callbacks are taken to leave the
    descriptor alone. *)
Theorem pause_resume (i : N) (s : State) (e : AppEvent_t) :
  registry_ok s → i < m_numEvents s → event_at i s = Ok e →
  context e = APP_EVENT_CONTEXT_MAIN → paused e = true →
  (∀ c, frames cb_sem i c) →
  (∀ k, ∃ s', sweep_times cb_sem k s = Ok s' ∧
     event_at i s' = Ok e ∧ invocations i s' = invocations i s) ∧
  (∃ s' e', DoTrigger cb_sem i s = Ok s' ∧ event_at i s' = Ok e' ∧
     triggered e' = true ∧ paused e' = true ∧
     triggerCount (diagnostics e')
     = u16 (triggerCount (diagnostics e) + 1)) ∧
  (triggered e = true →
   ∃ s1 s2 e2, AppEvent_Resume i s = Ok s1 ∧
     AppEvent_ProcessMainEvents cb_sem s1 = Ok s2 ∧
     event_at i s2 = Ok e2 ∧ triggered e2 = false ∧
     (admitted e = true →
      processCount (diagnostics e2)
      = u16 (processCount (diagnostics e) + 1) ∧
      invocations i s2 = S (invocations i s)) ∧
     (admitted e = false →
      processCount (diagnostics e2) = processCount (diagnostics e) ∧
      invocations i s2 = invocations i s)).
Proof.
  intros Hok Hi He Hctx Hp Hfr. split; [| split].
  - intros k.
    destruct (sweeps_skip i e k s) as (s' & Hs' & _ & _ & He' & Hk'); try done.
    { rewrite Hp. by rewrite andb_false_r. }
    by exists s'.
  - rewrite (DoTrigger_main i s e He Hctx).
    eexists _, _. split; [reflexivity |].
    split; [by eapply event_at_set_event_same |]. done.
  - intros Ht. unfold AppEvent_Resume. rewrite He. simpl. rewrite Hctx. simpl.
    set (e1 := set_paused false e). set (s1 := set_event i e1 s).
    assert (Hok1 : registry_ok s1).
    { eapply registry_ok_set_event; [done | exact He |]. by unfold same_identity. }
    assert (He1 : event_at i s1 = Ok e1) by (by eapply event_at_set_event_same).
    destruct (admitted e) eqn:Ha.
    + destruct (sweep_dispatches i s1 e1) as (s2 & Hs2 & _ & _ & He2 & Hk2);
        try done.
      eexists s1, s2, _. split; [done |]. split; [done |].
      split; [exact He2 |]. split; [done |]. split; [| done].
      intros _. split; [done |]. by rewrite Hk2.
    + destruct (sweep_drops i s1 e1) as (s2 & Hs2 & _ & _ & He2 & Hk2);
        try done.
      eexists s1, s2, _. split; [done |]. split; [done |].
      split; [exact He2 |]. split; [done |]. split; [done |].
      intros _. split; [done |]. by rewrite Hk2.
Qed.

(** C9 (as amended): [AppEvent_Stop] leaves [triggered], [triggerCount]
    and [processCount] of the descriptor as they are.  For a continuous
    timer event that is flagged and not paused when stopped, the next
    sweep clears the flag without calling the callback and without
    advancing [processCount]; a paused event keeps its flag through the
    sweep.  Callbacks are taken to leave the descriptor alone. *)
Theorem stop_keeps_flag (i : N) (s : State) (e : AppEvent_t) :
  registry_ok s → i < m_numEvents s → event_at i s = Ok e →
  (irqMode e ≠ NO_IRQ → is_Some (gpio_lines s !! irqGpio e)) →
  ∃ s1 e1, AppEvent_Stop i s = Ok s1 ∧ event_at i s1 = Ok e1 ∧
    triggered e1 = triggered e ∧
    triggerCount (diagnostics e1) = triggerCount (diagnostics e) ∧
    processCount (diagnostics e1) = processCount (diagnostics e) ∧
    (irqMode e = NO_IRQ → TimerRunning (timer e1) = false) ∧
    (type e = EVENT_TYPE_TIMER → single e = false →
     triggered e = true → paused e = false →
     (∀ c, frames cb_sem i c) →
     ∃ s2 e2, AppEvent_ProcessMainEvents cb_sem s1 = Ok s2 ∧
       event_at i s2 = Ok e2 ∧ triggered e2 = false ∧
       processCount (diagnostics e2) = processCount (diagnostics e) ∧
       invocations i s2 = invocations i s) ∧
    (paused e = true → (∀ c, frames cb_sem i c) →
     ∃ s2, AppEvent_ProcessMainEvents cb_sem s1 = Ok s2 ∧
       event_at i s2 = Ok e1 ∧
       invocations i s2 = invocations i s).
Proof.
  intros Hok Hi He Hline.
  destruct (AppEvent_Stop_spec i s e He Hline)
    as (s1 & tm & Hs1 & He1 & Hoff & Hn1 & Hd1 & Hok1).
  eexists s1, _. split; [exact Hs1 |]. split; [exact He1 |].
  split; [done |]. split; [done |]. split; [done |]. split; [done |].
  split.
  - intros Hty Hsingle Ht Hp Hfr.
    destruct (registry_ok_kind s i e Hok He) as [_ Hmode]; [congruence |].
    destruct (sweep_drops i s1 (set_timer tm e))
      as (s2 & Hs2 & _ & _ & He2 & Hk2); try done.
    + by apply Hok1.
    + lia.
    + unfold admitted. simpl. unfold TimerRunning.
      rewrite Hmode, Hsingle, (Hoff Hmode), Hty. done.
    + eexists s2, _. split; [exact Hs2 |]. split; [exact He2 |].
      split; [done |]. split; [done |].
      rewrite Hk2. unfold invocations. by rewrite Hd1.
  - intros Hp Hfr.
    destruct (sweep_skips i s1 (set_timer tm e))
      as (s2 & Hs2 & _ & _ & He2 & Hk2); try done.
    + by apply Hok1.
    + lia.
    + simpl. rewrite Hp. by rewrite andb_false_r.
    + exists s2. split; [done |]. split; [done |].
      rewrite Hk2. unfold invocations. by rewrite Hd1.
Qed.

Section Timers.

Variable rand : N → N * N.
Variable scale_rand : N → N → N.

(** ** Timer expiries, starting, and ids that were never assigned *)

(** One expiry of a continuous main-context timer: the flag is set, the
    counter advances and the timer is started again. *)
Lemma OnEvent_main_continuous (i : N) (s : State) (e : AppEvent_t) :
  registry_ok s → event_at i s = Ok e →
  type e = EVENT_TYPE_TIMER → context e = APP_EVENT_CONTEXT_MAIN →
  single e = false →
  ∃ s' tm, OnEvent cb_sem rand scale_rand i s = Ok s' ∧
    event_at i s' = Ok (set_timer tm (count_trigger 1 e)) ∧
    IsStarted tm = true ∧ m_numEvents s' = m_numEvents s ∧
    dispatched s' = dispatched s ∧ registry_ok s'.
Proof.
  intros Hok He Hty Hctx Hsingle.
  destruct (registry_ok_kind s i e Hok He) as [_ Hmode]; [congruence |].
  unfold OnEvent. rewrite (DoTrigger_main i s e He Hctx). simpl.
  set (s1 := set_event i (count_trigger 1 e) s).
  assert (He1 : event_at i s1 = Ok (count_trigger 1 e))
    by (by eapply event_at_set_event_same).
  rewrite He1. simpl. rewrite Hsingle. simpl.
  destruct (StartEvent_spec rand scale_rand i s1 (count_trigger 1 e) He1)
    as (s' & tm & Hs' & He' & Hrun & Hn & _ & Hd & Hok'); [done |].
  exists s', tm. split; [done |]. split; [done |].
  split; [by apply Hrun |]. split; [done |]. split; [done |].
  apply Hok'. eapply registry_ok_set_event; [done | exact He |].
  by unfold same_identity.
Qed.

Lemma fire_times_spec (i : N) (n : nat) :
  ∀ (s : State) (e : AppEvent_t),
    registry_ok s → event_at i s = Ok e →
    type e = EVENT_TYPE_TIMER → context e = APP_EVENT_CONTEXT_MAIN →
    single e = false →
    ∃ s' tm, fire_times cb_sem rand scale_rand (S n) i s = Ok s' ∧
      event_at i s' = Ok (set_timer tm (count_trigger (N.of_nat (S n)) e)) ∧
      IsStarted tm = true ∧ m_numEvents s' = m_numEvents s ∧
      dispatched s' = dispatched s ∧ registry_ok s'.
Proof.
  induction n as [| n IH]; intros s e Hok He Hty Hctx Hsingle.
  - destruct (OnEvent_main_continuous i s e) as (s' & tm & Hs' & H); try done.
    exists s', tm. simpl. rewrite Hs'. simpl. done.
  - destruct (OnEvent_main_continuous i s e)
      as (s1 & tm1 & Hs1 & He1 & _ & Hn1 & Hd1 & Hok1); try done.
    destruct (IH s1 _ Hok1 He1) as (s' & tm & Hs' & He' & Hrun & Hn & Hd & Hok');
      try done.
    exists s', tm.
    split.
    { change (fire_times cb_sem rand scale_rand (S (S n)) i s)
        with (s0 <- OnEvent cb_sem rand scale_rand i s ;;
              fire_times cb_sem rand scale_rand (S n) i s0).
      rewrite Hs1. simpl obind. exact Hs'. }
    split.
    { rewrite He'. f_equal.
      unfold count_trigger, set_timer, set_diagnostics, set_triggerCount,
        set_triggered. simpl. f_equal. f_equal. unfold u16. lia. }
    split; [done |]. split; [congruence |]. split; [congruence | done].
Qed.

(** C1 (as amended): a registered continuous main-context timer event
    whose timer expires [n >= 1] times with no sweep in between ends with
    [triggered = true] and with [triggerCount] advanced by [n] modulo 2^16
    (the counter is a [uint16_t]: by [n] itself while it stays below
    65536); its timer is armed again.  If the event is not paused, one
    sweep then clears the flag, advances [processCount] by 1 modulo 2^16
    and calls the callback exactly once; if it is paused, the sweep passes
    it over.  Callbacks are taken to leave the descriptor alone. *)
Theorem coalescing_law (i : N) (n : nat) (s : State) (e : AppEvent_t) :
  registry_ok s → i < m_numEvents s → event_at i s = Ok e →
  type e = EVENT_TYPE_TIMER → context e = APP_EVENT_CONTEXT_MAIN →
  single e = false → (1 ≤ n)%nat →
  (∀ c, frames cb_sem i c) →
  ∃ s1 e1, fire_times cb_sem rand scale_rand n i s = Ok s1 ∧
    event_at i s1 = Ok e1 ∧
    triggered e1 = true ∧
    triggerCount (diagnostics e1)
    = u16 (triggerCount (diagnostics e) + N.of_nat n) ∧
    processCount (diagnostics e1) = processCount (diagnostics e) ∧
    invocations i s1 = invocations i s ∧
    TimerRunning (timer e1) = true ∧
    (triggerCount (diagnostics e) + N.of_nat n < 65536 →
     triggerCount (diagnostics e1)
     = triggerCount (diagnostics e) + N.of_nat n) ∧
    (paused e = false →
     ∃ s2 e2, AppEvent_ProcessMainEvents cb_sem s1 = Ok s2 ∧
       event_at i s2 = Ok e2 ∧
       triggered e2 = false ∧
       processCount (diagnostics e2)
       = u16 (processCount (diagnostics e) + 1) ∧
       triggerCount (diagnostics e2) = triggerCount (diagnostics e1) ∧
       invocations i s2 = S (invocations i s1)) ∧
    (paused e = true →
     ∃ s2, AppEvent_ProcessMainEvents cb_sem s1 = Ok s2 ∧
       event_at i s2 = Ok e1 ∧
       invocations i s2 = invocations i s1).
Proof.
  intros Hok Hi He Hty Hctx Hsingle Hn Hfr.
  destruct n as [| n]; [lia |].
  destruct (fire_times_spec i n s e)
    as (s1 & tm & Hs1 & He1 & Hrun & Hn1 & Hd1 & Hok1); try done.
  eexists s1, _. split; [exact Hs1 |]. split; [exact He1 |].
  split; [done |]. split; [done |]. split; [done |].
  split; [unfold invocations; by rewrite Hd1 |].
  split; [done |].
  split; [intros Hsmall; simpl; unfold u16; by rewrite N.mod_small |].
  split; intros Hp.
  - destruct (sweep_dispatches i s1
                (set_timer tm (count_trigger (N.of_nat (S n)) e)))
      as (s2 & Hs2 & _ & _ & He2 & Hk2); try done.
    + lia.
    + unfold admitted. simpl. unfold TimerRunning. rewrite Hrun.
      by rewrite !orb_true_r.
    + eexists s2, _. split; [exact Hs2 |]. split; [exact He2 |]. done.
  - destruct (sweep_skips i s1
                (set_timer tm (count_trigger (N.of_nat (S n)) e)))
      as (s2 & Hs2 & _ & _ & He2 & Hk2); try done.
    + lia.
    + simpl. by rewrite Hp.
    + by exists s2.
Qed.

(** C10: for a registered event, [AppEvent_Start id single] clears
    [triggered] before it arms the timer or the line, and records [single]
    and the clock as start time; the call returns with the flag cleared, so
    that the sweeps that follow, however many, pass the descriptor over: a
    trigger pending from before the call is not dispatched.  Callbacks are taken to leave the
    descriptor alone. *)
Theorem start_discards_pending (i : N) (b : bool) (s : State) (e : AppEvent_t) :
  registry_ok s → i < m_numEvents s → event_at i s = Ok e →
  (irqMode e ≠ NO_IRQ → is_Some (gpio_lines s !! irqGpio e)) →
  ∃ s0 e0 s1 e1,
    AppEvent_Start rand scale_rand i b s = StartEvent rand scale_rand i s0 ∧
    event_at i s0 = Ok e0 ∧ triggered e0 = false ∧
    StartEvent rand scale_rand i s0 = Ok s1 ∧
    event_at i s1 = Ok e1 ∧
    triggered e1 = false ∧ single e1 = b ∧
    startTime (diagnostics e1) = rtc_now s ∧
    processCount (diagnostics e1) = processCount (diagnostics e) ∧
    (irqMode e = NO_IRQ → TimerRunning (timer e1) = true) ∧
    ((∀ c, frames cb_sem i c) →
     ∀ k, ∃ s2, sweep_times cb_sem k s1 = Ok s2 ∧
       event_at i s2 = Ok e1 ∧ invocations i s2 = invocations i s).
Proof.
  intros Hok Hi He Hline.
  set (e0 := set_diagnostics (set_startTime (rtc_now s) (diagnostics e))
               (set_single b (set_triggered false e))).
  set (s0 := set_event i e0 s).
  assert (He0 : event_at i s0 = Ok e0) by (by eapply event_at_set_event_same).
  assert (Hok0 : registry_ok s0).
  { eapply registry_ok_set_event; [done | exact He |]. by unfold same_identity. }
  destruct (StartEvent_spec rand scale_rand i s0 e0 He0 Hline)
    as (s1 & tm & Hs1 & He1 & Hrun & Hn1 & _ & Hd1 & Hok1).
  eexists s0, e0, s1, _.
  split; [by apply AppEvent_Start_unfold |].
  split; [done |]. split; [done |]. split; [exact Hs1 |].
  split; [exact He1 |].
  split; [done |]. split; [done |]. split; [done |]. split; [done |].
  split; [done |]. intros Hfr k.
  destruct (sweeps_skip i (set_timer tm e0) k s1)
    as (s2 & Hs2 & _ & _ & He2 & Hk2); try done.
  - by apply Hok1.
  - simpl in Hn1. lia.
  - exists s2. split; [done |]. split; [done |].
    rewrite Hk2. unfold invocations. by rewrite Hd1.
Qed.

(** C3 (as amended): an id at or above the number of registered events is
    not checked.  [AppEvent_Trigger] finds no descriptor with that id and
    returns with the state as it was; [AppEvent_Start], for an id below
    [MAX_EVENTS], returns after writing [triggered], [single] and the start
    time of the unregistered slot and starting its timer, and for an id
    from [MAX_EVENTS] on it writes outside the table.  Neither halts on an
    assertion. *)
Theorem unassigned_id (i : N) (b : bool) (s : State) :
  registry_ok s → m_numEvents s ≤ i →
  AppEvent_Trigger cb_sem i s = Ok s ∧
  (MAX_EVENTS ≤ i → AppEvent_Start rand scale_rand i b s = Undefined) ∧
  (i < MAX_EVENTS →
   ∃ s' e', AppEvent_Start rand scale_rand i b s = Ok s' ∧
     event_at i s' = Ok e' ∧
     triggered e' = false ∧ single e' = b ∧
     startTime (diagnostics e') = rtc_now s ∧
     TimerRunning (timer e') = true ∧
     m_numEvents s' = m_numEvents s).
Proof.
  intros Hok Hi. split; [by apply AppEvent_Trigger_absent |].
  split.
  { intros Hmax. unfold AppEvent_Start, event_at.
    destruct Hok as (_ & Hlen & _).
    rewrite (lookup_ge_None_2 (m_events s) (N.to_nat i)); [done |].
    rewrite Hlen. lia. }
  intros Hmax.
  destruct (event_at_below i s Hok Hmax) as [e He].
  assert (type e = EVENT_TYPE_GENERAL) as Hty
    by (by eapply registry_ok_unregistered).
  destruct (registry_ok_kind s i e Hok He) as [_ Hmode]; [congruence |].
  rewrite (AppEvent_Start_unfold rand scale_rand i b s e He).
  set (e0 := set_diagnostics _ _). set (s0 := set_event i e0 s).
  assert (He0 : event_at i s0 = Ok e0) by (by eapply event_at_set_event_same).
  destruct (StartEvent_spec rand scale_rand i s0 e0 He0)
    as (s1 & tm & Hs1 & He1 & Hrun & Hn1 & _); [done |].
  eexists s1, _. split; [exact Hs1 |]. split; [exact He1 |].
  split; [done |]. split; [done |]. split; [done |].
  split; [by apply Hrun |]. done.
Qed.

End Timers.

End Dispatch.

(** ** The invariant of the module is kept by every call *)

Lemma module_inv_ext (s s' : State) :
  m_numEvents s' = m_numEvents s → m_events s' = m_events s →
  m_initialized s' = m_initialized s →
  module_inv s → module_inv s'.
Proof.
  intros Hn He Hi (Hok & Hinit). split.
  - by eapply registry_ok_ext.
  - rewrite Hn, Hi. exact Hinit.
Qed.

Lemma module_inv_set_event (s : State) (j : N) (e e' : AppEvent_t) :
  module_inv s → event_at j s = Ok e → same_identity e e' →
  module_inv (set_event j e' s).
Proof.
  intros (Hok & Hinit) He Hid. split; [by eapply registry_ok_set_event | done].
Qed.

Lemma module_inv_boot (lines : gmap N Gpio_t) (now seed : N) :
  module_inv (boot lines now seed).
Proof. split; [by apply registry_okb_sound | done]. Qed.

Lemma for_events_keeps (body : N → State → outcome State) (P : State → Prop) :
  (∀ i s s', P s → body i s = Ok s' → P s') →
  ∀ (fuel : nat) (i : N) (s s' : State),
    P s → for_events fuel body i s = Ok s' → P s'.
Proof.
  intros Hbody. induction fuel as [| fuel IH]; intros i s s' HP Hrun; [done |].
  simpl in Hrun. destruct (i <? m_numEvents s).
  - destruct (body i s) as [s1 | |] eqn:Hb; [| done | done].
    simpl in Hrun. eapply IH; [| exact Hrun]. by eapply Hbody.
  - by injection Hrun as <-.
Qed.

Lemma StartEvent_keeps (rand : N → N * N) (scale_rand : N → N → N)
    (i : N) (s s' : State) :
  module_inv s → StartEvent rand scale_rand i s = Ok s' → module_inv s'.
Proof.
  intros Hinv Hs. unfold StartEvent in Hs.
  destruct (event_at i s) as [e | |] eqn:He; [| done | done]. simpl in Hs.
  destruct (is_no_irq (irqMode e)).
  - destruct (0 <? timeoutRandomizer e).
    + destruct (rand (rand_seed s)) as [r seed']. injection Hs as <-.
      eapply (module_inv_set_event (set_rand_seed seed' s)); [| exact He |].
      * by eapply module_inv_ext.
      * by unfold same_identity.
    + injection Hs as <-.
      eapply (module_inv_set_event (set_rand_seed (rand_seed s) s));
        [| exact He |].
      * by eapply module_inv_ext.
      * by unfold same_identity.
  - unfold GpioSetInterrupt in Hs.
    destruct (gpio_lines s !! irqGpio e) as [g |]; [| done]. simpl in Hs.
    unfold GpioMcuSetContext in Hs. simpl in Hs.
    rewrite lookup_insert_eq in Hs. injection Hs as <-.
    by eapply module_inv_ext.
Qed.

Lemma DoTrigger_keeps (cb_sem : N → State → outcome State) (i : N) (s s' : State) :
  callbacks_keep_inv cb_sem →
  module_inv s → DoTrigger cb_sem i s = Ok s' → module_inv s'.
Proof.
  intros Hcb Hinv Hs. unfold DoTrigger in Hs.
  destruct (event_at i s) as [e | |] eqn:He; [| done | done]. simpl in Hs.
  destruct (context e).
  - injection Hs as <-. eapply module_inv_set_event; [done | exact He |].
    by unfold same_identity.
  - set (s2 := set_event i _ s) in Hs.
    assert (module_inv s2) as Hinv2.
    { eapply module_inv_set_event; [done | exact He |]. by unfold same_identity. }
    destruct (_ =? NULL); [by injection Hs as <- |].
    eapply Hcb; [| exact Hs]. by eapply module_inv_ext.
Qed.

Lemma process_event_keeps (cb_sem : N → State → outcome State) (i : N)
    (s s' : State) :
  callbacks_keep_inv cb_sem →
  module_inv s → process_event cb_sem i s = Ok s' → module_inv s'.
Proof.
  intros Hcb Hinv Hs. unfold process_event in Hs.
  destruct (event_at i s) as [e | |] eqn:He; [| done | done]. simpl in Hs.
  destruct (triggered e && negb (paused e)); [| by injection Hs as <-].
  set (s1 := set_event i (set_triggered false e) s) in Hs.
  assert (module_inv s1) as Hinv1.
  { eapply module_inv_set_event; [done | exact He |]. by unfold same_identity. }
  destruct (admitted _); [| by injection Hs as <-].
  set (s2 := set_event i _ s1) in Hs.
  assert (module_inv s2) as Hinv2.
  { eapply module_inv_set_event; [done | by eapply event_at_set_event_same |].
    by unfold same_identity. }
  destruct (_ =? NULL); [by injection Hs as <- |].
  eapply Hcb; [| exact Hs]. by eapply module_inv_ext.
Qed.

Lemma OnEvent_keeps (cb_sem : N → State → outcome State) (rand : N → N * N)
    (scale_rand : N → N → N) (i : N) (s s' : State) :
  callbacks_keep_inv cb_sem →
  module_inv s → OnEvent cb_sem rand scale_rand i s = Ok s' → module_inv s'.
Proof.
  intros Hcb Hinv Hs. unfold OnEvent in Hs.
  destruct (DoTrigger cb_sem i s) as [s1 | |] eqn:Hd; [| done | done].
  simpl in Hs. apply DoTrigger_keeps in Hd; [| done | done].
  destruct (event_at i s1) as [e | |]; [| done | done]. simpl in Hs.
  destruct (negb (single e)); [by eapply StartEvent_keeps |].
  by injection Hs as <-.
Qed.

Lemma interrupt_scan_keeps (cb_sem : N → State → outcome State)
    (intNo0 : N) (fuel : nat) :
  callbacks_keep_inv cb_sem →
  ∀ (i : N) (s s' : State),
    module_inv s → interrupt_scan cb_sem fuel intNo0 i s = Ok s' →
    module_inv s'.
Proof.
  intros Hcb. induction fuel as [| fuel IH]; intros i s s' Hinv Hrun; [done |].
  simpl in Hrun. destruct (i <? m_numEvents s); [| by injection Hrun as <-].
  destruct (event_at i s) as [e | |]; [| done | done]. simpl in Hrun.
  destruct (line_matches intNo0 e s) as [[|] | |]; simpl in Hrun;
    [| by eapply IH | done | done].
  destruct (DoTrigger cb_sem i s) as [s1 | |] eqn:Hd; [| done | done].
  simpl in Hrun. apply DoTrigger_keeps in Hd; [| done | done].
  destruct (event_at i s1) as [e1 | |]; [| done | done]. simpl in Hrun.
  destruct (single e1); [| by injection Hrun as <-].
  unfold GpioRemoveInterrupt in Hrun.
  destruct (gpio_lines s1 !! irqGpio e1); [| done]. injection Hrun as <-.
  by eapply module_inv_ext.
Qed.

Lemma register_initialized (r : registration) (s s' : State) (i : N) :
  register r s = Ok (i, s') → m_initialized s' = true.
Proof.
  assert (Hcreate : ∀ nm cb ctx ev s1,
            CreateEvent nm cb ctx s = Ok (ev, s1) →
            m_initialized s1 = m_initialized s).
  { intros nm cb ctx ev s1 H. unfold CreateEvent in H.
    destruct (event_at _ _); [| done | done]. by injection H as _ <-. }
  assert (Hwith : ∀ p nm cb t rz ctx,
            AppEvent_RegisterTimerWithRandomizer p nm cb t rz ctx s = Ok (i, s') →
            m_initialized s' = true).
  { intros p nm cb t rz ctx H.
    unfold AppEvent_RegisterTimerWithRandomizer in H.
    destruct (m_initialized s) eqn:Hinit; [| done]. simpl in H.
    destruct (_ <? _); [| done]. simpl in H.
    destruct (negb (p =? NULL)); [| done]. simpl in H.
    destruct (negb (cb =? NULL)); [| done]. simpl in H.
    destruct (CreateEvent nm cb ctx s) as [[ev s1] | |] eqn:Hc; [| done | done].
    simpl in H. destruct (event_at ev s1); [| done | done].
    injection H as _ <-. simpl. by eapply Hcreate. }
  intros Hreg.
  destruct r as [p nm cb ctx | p nm cb t ctx | p nm cb t rz ctx
                | p nm cb g m pr ctx]; simpl in Hreg.
  - unfold AppEvent_RegisterEvent in Hreg.
    destruct (m_initialized s) eqn:Hinit; [| done]. simpl in Hreg.
    destruct (_ <? _); [| done]. simpl in Hreg.
    destruct (negb (p =? NULL)); [| done]. simpl in Hreg.
    destruct (negb (cb =? NULL)); [| done]. simpl in Hreg.
    destruct (CreateEvent nm cb ctx s) as [[ev s1] | |] eqn:Hc; [| done | done].
    simpl in Hreg. destruct (event_at ev s1); [| done | done].
    injection Hreg as _ <-. by eapply Hcreate.
  - unfold AppEvent_RegisterTimer in Hreg.
    destruct (m_initialized s); simpl in Hreg; [| done]. by eapply Hwith.
  - by eapply Hwith.
  - unfold AppEvent_RegisterInterrupt in Hreg.
    destruct (m_initialized s) eqn:Hinit; [| done]. simpl in Hreg.
    destruct (_ <? _); [| done]. simpl in Hreg.
    destruct (negb (p =? NULL)); [| done]. simpl in Hreg.
    destruct (negb (cb =? NULL)); [| done]. simpl in Hreg.
    destruct (CreateEvent nm cb ctx s) as [[ev s1] | |] eqn:Hc; [| done | done].
    simpl in Hreg. destruct (event_at ev s1); [| done | done].
    injection Hreg as _ <-. simpl. by eapply Hcreate.
Qed.

(** Every call that returns keeps the invariant of the module, which holds
    at power-on; no call takes a registered event away. *)
Lemma module_inv_preserved (cb_sem : N → State → outcome State)
    (rand : N → N * N) (scale_rand : N → N → N) (c : call) (s s' : State) :
  callbacks_keep_inv cb_sem →
  module_inv s → run_call cb_sem rand scale_rand c s = Ok s' →
  module_inv s'.
Proof.
  intros Hcb Hinv Hrun. destruct c; simpl in Hrun.
  - injection Hrun as <-. unfold AppEvent_Init.
    destruct (m_initialized s) eqn:Hinit; [done |].
    destruct Hinv as (Hok & H0). split; [| done].
    eapply registry_ok_ext; [| | exact Hok]; [simpl; by rewrite H0 | done].
  - unfold registered in Hrun.
    destruct (register r s) as [[i s1] | |] eqn:Hr; [| done | done].
    simpl in Hrun. injection Hrun as <-. destruct Hinv as (Hok & _).
    destruct (register_spec r s s1 i Hok Hr) as (_ & _ & Hok1 & _).
    split; [done |]. by rewrite (register_initialized r s s1 i Hr).
  - unfold AppEvent_Trigger in Hrun.
    eapply (for_events_keeps _ module_inv); [| exact Hinv | exact Hrun].
    intros i s0 s1 Hinv0 Hb. simpl in Hb.
    destruct (event_at i s0) as [e | |]; simpl in Hb; [| done | done].
    destruct (id e =? id0); [by eapply DoTrigger_keeps |].
    by injection Hb as <-.
  - unfold AppEvent_Start in Hrun.
    destruct (event_at id0 s) as [e | |] eqn:He; [| done | done].
    simpl in Hrun. eapply StartEvent_keeps; [| exact Hrun].
    eapply module_inv_set_event; [done | exact He |]. by unfold same_identity.
  - unfold AppEvent_Stop in Hrun.
    destruct (event_at id0 s) as [e | |] eqn:He; [| done | done].
    simpl in Hrun. destruct (is_no_irq (irqMode e)).
    + injection Hrun as <-.
      eapply module_inv_set_event; [done | exact He |]. by unfold same_identity.
    + unfold GpioRemoveInterrupt in Hrun.
      destruct (gpio_lines s !! irqGpio e); [| done]. injection Hrun as <-.
      by eapply module_inv_ext.
  - unfold AppEvent_SetTimeout in Hrun.
    destruct (event_at id0 s) as [e | |] eqn:He; [| done | done].
    simpl in Hrun. destruct (irqGpio e =? NULL); [| done]. simpl in Hrun.
    injection Hrun as <-.
    eapply module_inv_set_event; [done | exact He |]. by unfold same_identity.
  - unfold AppEvent_ProcessMainEvents in Hrun.
    eapply (for_events_keeps _ module_inv); [| exact Hinv | exact Hrun].
    intros i s0 s1 Hinv0 Hb. by eapply process_event_keeps.
  - unfold AppEvent_Pause in Hrun.
    destruct (event_at id0 s) as [e | |] eqn:He; [| done | done].
    simpl in Hrun. destruct (is_main (context e)); [| done]. simpl in Hrun.
    injection Hrun as <-.
    eapply module_inv_set_event; [done | exact He |]. by unfold same_identity.
  - unfold AppEvent_Resume in Hrun.
    destruct (event_at id0 s) as [e | |] eqn:He; [| done | done].
    simpl in Hrun. destruct (is_main (context e)); [| done]. simpl in Hrun.
    injection Hrun as <-.
    eapply module_inv_set_event; [done | exact He |]. by unfold same_identity.
  - unfold TimerIrqHandler in Hrun.
    destruct (event_at ev s) as [e | |] eqn:He; [| done | done].
    simpl in Hrun. destruct (TimerRunning (timer e)); [| by injection Hrun as <-].
    eapply OnEvent_keeps; [done | | exact Hrun].
    eapply module_inv_set_event; [done | exact He |]. by unfold same_identity.
  - unfold AppEvent_EnableDebug in Hrun.
    destruct (event_at id0 s) as [e | |] eqn:He; [| done | done].
    injection Hrun as <-.
    eapply module_inv_set_event; [done | exact He |]. by unfold same_identity.
  - unfold AppEvent_DisableDebug in Hrun.
    destruct (event_at id0 s) as [e | |] eqn:He; [| done | done].
    injection Hrun as <-.
    eapply module_inv_set_event; [done | exact He |]. by unfold same_identity.
  - unfold OnInterruptEvent in Hrun. by eapply interrupt_scan_keeps.
Qed.

(** In every state the module reaches from power-on, the registry
    invariant holds. *)
Lemma reachable_registry_ok (cb_sem : N → State → outcome State)
    (rand : N → N * N) (scale_rand : N → N → N) (cs : list call)
    (lines : gmap N Gpio_t) (now seed : N) (s' : State) :
  callbacks_keep_inv cb_sem →
  run_calls cb_sem rand scale_rand cs (boot lines now seed) = Ok s' →
  registry_ok s'.
Proof.
  intros Hcb.
  assert (H : ∀ s, module_inv s →
            run_calls cb_sem rand scale_rand cs s = Ok s' → module_inv s').
  { induction cs as [| c cs IH]; intros s Hinv Hrun; simpl in Hrun.
    - by injection Hrun as <-.
    - destruct (run_call cb_sem rand scale_rand c s) as [s1 | |] eqn:Hc;
        [| done | done].
      simpl in Hrun. eapply IH; [| exact Hrun].
      by eapply module_inv_preserved. }
  intros Hrun. by destruct (H _ (module_inv_boot lines now seed) Hrun).
Qed.

(** ** What no call undoes *)

Lemma same_registration_refl (e : AppEvent_t) : same_registration e e.
Proof. by unfold same_registration, same_identity. Qed.

Lemma same_registration_trans (e1 e2 e3 : AppEvent_t) :
  same_registration e1 e2 → same_registration e2 e3 → same_registration e1 e3.
Proof.
  unfold same_registration, same_identity.
  intros ((? & ? & ? & ? & ?) & ? & ? & ? & ?) ((? & ? & ? & ? & ?) & ? & ? & ? & ?).
  repeat split; congruence.
Qed.

Lemma extends_refl (s : State) : extends s s.
Proof.
  split; [lia |]. intros k e _ He. exists e.
  split; [done | apply same_registration_refl].
Qed.

Lemma extends_trans (s1 s2 s3 : State) :
  extends s1 s2 → extends s2 s3 → extends s1 s3.
Proof.
  intros (Hn12 & H12) (Hn23 & H23). split; [lia |].
  intros k e Hk He. destruct (H12 k e Hk He) as (e2 & He2 & Hr2).
  destruct (H23 k e2) as (e3 & He3 & Hr3); [lia | done |].
  exists e3. split; [done |]. by eapply same_registration_trans.
Qed.

Lemma extends_ext (s s' : State) :
  m_numEvents s' = m_numEvents s → m_events s' = m_events s → extends s s'.
Proof.
  intros Hn He. split; [lia |]. intros k e _ Hk. exists e.
  split; [| apply same_registration_refl].
  unfold event_at in *. by rewrite He.
Qed.

Lemma flags_ok_ext (s s' : State) :
  m_events s' = m_events s → flags_ok s → flags_ok s'.
Proof.
  intros He Hf k e Hk. apply (Hf k e). unfold event_at in *. by rewrite <- He.
Qed.

Lemma sound_ext (s s' : State) :
  m_numEvents s' = m_numEvents s → m_events s' = m_events s →
  m_initialized s' = m_initialized s →
  sound s → sound s' ∧ extends s s'.
Proof.
  intros Hn He Hi (Hinv & Hf). split; [split |].
  - by eapply module_inv_ext.
  - by eapply flags_ok_ext.
  - by apply extends_ext.
Qed.

(** Writing a descriptor that keeps its registration, and carries a flag
    only in the main context. *)
Lemma sound_set_event (s : State) (j : N) (e e' : AppEvent_t) :
  sound s → event_at j s = Ok e → same_registration e e' →
  (triggered e' = true → context e' = APP_EVENT_CONTEXT_MAIN) →
  sound (set_event j e' s) ∧ extends s (set_event j e' s).
Proof.
  intros (Hinv & Hf) He Hreg Hflag. split; [split |].
  - eapply module_inv_set_event; [done | exact He |]. by destruct Hreg.
  - intros k ek Hk Ht. destruct (decide (k = j)) as [-> | Hne].
    + rewrite (event_at_set_event_same j e e' s He) in Hk.
      injection Hk as <-. by apply Hflag.
    + rewrite event_at_set_event_ne in Hk by done. by eapply Hf.
  - split; [done |]. intros k ek _ Hk.
    destruct (decide (k = j)) as [-> | Hne].
    + exists e'. split; [by eapply event_at_set_event_same |]. congruence.
    + exists ek. rewrite event_at_set_event_ne by done.
      split; [done | apply same_registration_refl].
Qed.

Lemma sound_step (s0 s1 s2 : State) :
  sound s1 ∧ extends s0 s1 → (sound s1 → sound s2 ∧ extends s1 s2) →
  sound s2 ∧ extends s0 s2.
Proof.
  intros (Hs1 & He1) H. destruct (H Hs1) as (Hs2 & He2).
  split; [done |]. by eapply extends_trans.
Qed.

Ltac same_reg := by unfold same_registration, same_identity.

Lemma for_events_grows (body : N → State → outcome State) :
  (∀ i s s', sound s → body i s = Ok s' → sound s' ∧ extends s s') →
  ∀ (fuel : nat) (i : N) (s s' : State),
    sound s → for_events fuel body i s = Ok s' → sound s' ∧ extends s s'.
Proof.
  intros Hbody fuel i s s' Hs Hrun.
  apply (for_events_keeps body (λ s1, sound s1 ∧ extends s s1))
    with (fuel := fuel) (i := i) (s := s); [| | done].
  - intros j s1 s2 H1 Hb. eapply sound_step; [exact H1 |].
    intros Hs1. by eapply Hbody.
  - split; [done | apply extends_refl].
Qed.

Lemma StartEvent_grows (rand : N → N * N) (scale_rand : N → N → N)
    (i : N) (s s' : State) :
  sound s → StartEvent rand scale_rand i s = Ok s' →
  sound s' ∧ extends s s'.
Proof.
  intros Hs Hrun. unfold StartEvent in Hrun.
  destruct (event_at i s) as [e | |] eqn:He; [| done | done]. simpl in Hrun.
  destruct (is_no_irq (irqMode e)).
  - destruct (0 <? timeoutRandomizer e).
    + destruct (rand (rand_seed s)) as [r seed']. injection Hrun as <-.
      eapply sound_step; [by apply (sound_ext s (set_rand_seed seed' s)) |].
      intros Hs1. eapply sound_set_event; [done | exact He | same_reg |].
      simpl. by destruct Hs as (_ & Hf); apply (Hf i e).
    + injection Hrun as <-.
      eapply sound_step;
        [by apply (sound_ext s (set_rand_seed (rand_seed s) s)) |].
      intros Hs1. eapply sound_set_event; [done | exact He | same_reg |].
      simpl. by destruct Hs as (_ & Hf); apply (Hf i e).
  - unfold GpioSetInterrupt in Hrun.
    destruct (gpio_lines s !! irqGpio e) as [g |]; [| done]. simpl in Hrun.
    unfold GpioMcuSetContext in Hrun. simpl in Hrun.
    rewrite lookup_insert_eq in Hrun. injection Hrun as <-.
    by apply sound_ext.
Qed.

Lemma DoTrigger_grows (cb_sem : N → State → outcome State) (i : N)
    (s s' : State) :
  callbacks_grow cb_sem →
  sound s → DoTrigger cb_sem i s = Ok s' → sound s' ∧ extends s s'.
Proof.
  intros Hcb Hs Hrun. unfold DoTrigger in Hrun.
  destruct (event_at i s) as [e | |] eqn:He; [| done | done]. simpl in Hrun.
  destruct (context e) eqn:Hctx.
  - injection Hrun as <-.
    eapply sound_set_event; [done | exact He | same_reg | done].
  - set (s2 := set_event i _ s) in Hrun.
    assert (sound s2 ∧ extends s s2) as H2.
    { eapply sound_set_event; [done | exact He | same_reg |].
      simpl. intros Ht. destruct Hs as (_ & Hf). by apply (Hf i e). }
    destruct (_ =? NULL); [by injection Hrun as <- |].
    eapply sound_step; [exact H2 |]. intros Hs2.
    eapply sound_step; [by apply (sound_ext s2 (log_dispatch i s2)) |].
    intros Hs3. by eapply Hcb.
Qed.

Lemma process_event_grows (cb_sem : N → State → outcome State) (i : N)
    (s s' : State) :
  callbacks_grow cb_sem →
  sound s → process_event cb_sem i s = Ok s' → sound s' ∧ extends s s'.
Proof.
  intros Hcb Hs Hrun. unfold process_event in Hrun.
  destruct (event_at i s) as [e | |] eqn:He; [| done | done]. simpl in Hrun.
  destruct (triggered e && negb (paused e));
    [| injection Hrun as <-; split; [done | apply extends_refl]].
  set (s1 := set_event i (set_triggered false e) s) in Hrun.
  assert (sound s1 ∧ extends s s1) as H1.
  { eapply sound_set_event; [done | exact He | same_reg | done]. }
  destruct (admitted _); [| by injection Hrun as <-].
  set (s2 := set_event i _ s1) in Hrun.
  assert (sound s2 ∧ extends s s2) as H2.
  { eapply sound_step; [exact H1 |]. intros Hs1.
    eapply sound_set_event;
      [done | by eapply event_at_set_event_same | same_reg | done]. }
  destruct (_ =? NULL); [by injection Hrun as <- |].
  eapply sound_step; [exact H2 |]. intros Hs2.
  eapply sound_step; [by apply (sound_ext s2 (log_dispatch i s2)) |].
  intros Hs3. by eapply Hcb.
Qed.

Lemma OnEvent_grows (cb_sem : N → State → outcome State) (rand : N → N * N)
    (scale_rand : N → N → N) (i : N) (s s' : State) :
  callbacks_grow cb_sem →
  sound s → OnEvent cb_sem rand scale_rand i s = Ok s' →
  sound s' ∧ extends s s'.
Proof.
  intros Hcb Hs Hrun. unfold OnEvent in Hrun.
  destruct (DoTrigger cb_sem i s) as [s1 | |] eqn:Hd; [| done | done].
  simpl in Hrun. apply DoTrigger_grows in Hd; [| done | done].
  destruct (event_at i s1) as [e | |]; [| done | done]. simpl in Hrun.
  destruct (negb (single e)).
  - eapply sound_step; [exact Hd |]. intros Hs1. by eapply StartEvent_grows.
  - by injection Hrun as <-.
Qed.

Lemma interrupt_scan_grows (cb_sem : N → State → outcome State)
    (intNo0 : N) (fuel : nat) :
  callbacks_grow cb_sem →
  ∀ (i : N) (s s' : State),
    sound s → interrupt_scan cb_sem fuel intNo0 i s = Ok s' →
    sound s' ∧ extends s s'.
Proof.
  intros Hcb. induction fuel as [| fuel IH]; intros i s s' Hs Hrun; [done |].
  simpl in Hrun.
  destruct (i <? m_numEvents s);
    [| injection Hrun as <-; split; [done | apply extends_refl]].
  destruct (event_at i s) as [e | |]; [| done | done]. simpl in Hrun.
  destruct (line_matches intNo0 e s) as [[|] | |]; simpl in Hrun;
    [| by eapply IH | done | done].
  destruct (DoTrigger cb_sem i s) as [s1 | |] eqn:Hd; [| done | done].
  simpl in Hrun. apply DoTrigger_grows in Hd; [| done | done].
  destruct (event_at i s1) as [e1 | |]; [| done | done]. simpl in Hrun.
  destruct (single e1); [| by injection Hrun as <-].
  unfold GpioRemoveInterrupt in Hrun.
  destruct (gpio_lines s1 !! irqGpio e1); [| done]. injection Hrun as <-.
  eapply sound_step; [exact Hd |]. intros Hs1. by apply sound_ext.
Qed.

(** The state a registration leaves: one descriptor written into the first
    free slot, without a flag. *)
Lemma register_shape (r : registration) (s s' : State) (i : N) :
  register r s = Ok (i, s') →
  ∃ e', s' = set_event (m_numEvents s) e'
               (set_numEvents (u8 (m_numEvents s + 1)) s) ∧
        triggered e' = false ∧ m_numEvents s < MAX_EVENTS.
Proof.
  assert (Hcreate : ∀ nm cb ctx ev s1,
            CreateEvent nm cb ctx s = Ok (ev, s1) →
            ev = m_numEvents s ∧
            ∃ e1, s1 = set_event (m_numEvents s) e1
                         (set_numEvents (u8 (m_numEvents s + 1)) s) ∧
                  triggered e1 = false).
  { intros nm cb ctx ev s1 H. unfold CreateEvent in H.
    destruct (event_at _ _); [| done | done]. injection H as <- <-.
    split; [done |]. eexists. split; [reflexivity | done]. }
  assert (Hwith : ∀ p nm cb t rz ctx,
            AppEvent_RegisterTimerWithRandomizer p nm cb t rz ctx s = Ok (i, s') →
            ∃ e', s' = set_event (m_numEvents s) e'
                         (set_numEvents (u8 (m_numEvents s + 1)) s) ∧
                  triggered e' = false ∧ m_numEvents s < MAX_EVENTS).
  { intros p nm cb t rz ctx H.
    unfold AppEvent_RegisterTimerWithRandomizer in H.
    destruct (m_initialized s); [| done]. simpl in H.
    destruct (_ <? _) eqn:Hlt; [| done]. simpl in H. apply N.ltb_lt in Hlt.
    destruct (negb (p =? NULL)); [| done]. simpl in H.
    destruct (negb (cb =? NULL)); [| done]. simpl in H.
    destruct (CreateEvent nm cb ctx s) as [[ev s1] | |] eqn:Hc; [| done | done].
    simpl in H. destruct (Hcreate _ _ _ _ _ Hc) as (-> & e1 & -> & Ht1).
    destruct (event_at _ _) as [e2 | |] eqn:He2; [| done | done].
    injection H as _ <-. rewrite set_event_twice.
    eexists. split; [reflexivity |]. split; [| done]. simpl.
    apply event_at_in_range in He2 as Hr.
    rewrite event_at_set_event_eq in He2; [| simpl in *; by rewrite length_insert in Hr].
    by injection He2 as <-. }
  intros Hreg.
  destruct r as [p nm cb ctx | p nm cb t ctx | p nm cb t rz ctx
                | p nm cb g m pr ctx]; simpl in Hreg.
  - unfold AppEvent_RegisterEvent in Hreg.
    destruct (m_initialized s); [| done]. simpl in Hreg.
    destruct (_ <? _) eqn:Hlt; [| done]. simpl in Hreg. apply N.ltb_lt in Hlt.
    destruct (negb (p =? NULL)); [| done]. simpl in Hreg.
    destruct (negb (cb =? NULL)); [| done]. simpl in Hreg.
    destruct (CreateEvent nm cb ctx s) as [[ev s1] | |] eqn:Hc; [| done | done].
    simpl in Hreg. destruct (Hcreate _ _ _ _ _ Hc) as (-> & e1 & -> & Ht1).
    destruct (event_at _ _); [| done | done]. injection Hreg as _ <-.
    by exists e1.
  - unfold AppEvent_RegisterTimer in Hreg.
    destruct (m_initialized s); simpl in Hreg; [| done]. by eapply Hwith.
  - by eapply Hwith.
  - unfold AppEvent_RegisterInterrupt in Hreg.
    destruct (m_initialized s); [| done]. simpl in Hreg.
    destruct (_ <? _) eqn:Hlt; [| done]. simpl in Hreg. apply N.ltb_lt in Hlt.
    destruct (negb (p =? NULL)); [| done]. simpl in Hreg.
    destruct (negb (cb =? NULL)); [| done]. simpl in Hreg.
    destruct (CreateEvent nm cb ctx s) as [[ev s1] | |] eqn:Hc; [| done | done].
    simpl in Hreg. destruct (Hcreate _ _ _ _ _ Hc) as (-> & e1 & -> & Ht1).
    destruct (event_at _ _) as [e2 | |] eqn:He2; [| done | done].
    injection Hreg as _ <-. rewrite set_event_twice.
    eexists. split; [reflexivity |]. split; [| done]. simpl.
    apply event_at_in_range in He2 as Hr.
    rewrite event_at_set_event_eq in He2; [| simpl in *; by rewrite length_insert in Hr].
    by injection He2 as <-.
Qed.

Lemma register_grows (r : registration) (s s' : State) (i : N) :
  sound s → register r s = Ok (i, s') → sound s' ∧ extends s s'.
Proof.
  intros ((Hok & Hinit) & Hf) Hreg.
  destruct (register_spec r s s' i Hok Hreg) as (_ & Hn & Hok' & _).
  pose proof (register_initialized r s s' i Hreg) as Hi'.
  destruct (register_shape r s s' i Hreg) as (e' & -> & Ht' & Hlt).
  assert (Hne : ∀ k, k ≠ m_numEvents s →
            event_at k (set_event (m_numEvents s) e'
                          (set_numEvents (u8 (m_numEvents s + 1)) s))
            = event_at k s).
  { intros k Hk. by rewrite event_at_set_event_ne. }
  split; [split; [split |] |].
  - done.
  - by rewrite Hi'.
  - intros k ek Hk Ht. destruct (decide (k = m_numEvents s)) as [-> | Hne'].
    + destruct (event_at_below (m_numEvents s) s Hok Hlt) as [e0 He0].
      rewrite (event_at_set_event_same _ e0) in Hk by done.
      injection Hk as <-. congruence.
    + rewrite Hne in Hk by done. by eapply Hf.
  - split; [lia |]. intros k ek Hk Hek. exists ek.
    rewrite Hne by lia. split; [done | apply same_registration_refl].
Qed.

(** Every call that returns keeps the invariants and every registered
    descriptor, when the callbacks do. *)
Lemma run_call_grows (cb_sem : N → State → outcome State)
    (rand : N → N * N) (scale_rand : N → N → N) (c : call) (s s' : State) :
  callbacks_grow cb_sem →
  sound s → run_call cb_sem rand scale_rand c s = Ok s' →
  sound s' ∧ extends s s'.
Proof.
  intros Hcb Hs Hrun. destruct c; simpl in Hrun.
  - injection Hrun as <-. unfold AppEvent_Init.
    destruct (m_initialized s) eqn:Hinit; [split; [done | apply extends_refl] |].
    destruct Hs as ((Hok & H0) & Hf).
    assert (m_numEvents s = 0) as H0' by (by apply H0). clear H0. rename H0' into H0.
    split; [split; [split |] |].
    + eapply registry_ok_ext; [| | exact Hok]; [simpl; by rewrite H0 | done].
    + done.
    + by eapply flags_ok_ext.
    + apply extends_ext; [simpl; by rewrite H0 | done].
  - unfold registered in Hrun.
    destruct (register r s) as [[i s1] | |] eqn:Hr; [| done | done].
    simpl in Hrun. injection Hrun as <-. by eapply register_grows.
  - unfold AppEvent_Trigger in Hrun.
    eapply for_events_grows; [| exact Hs | exact Hrun].
    intros i s0 s1 Hs0 Hb. simpl in Hb.
    destruct (event_at i s0) as [e | |]; simpl in Hb; [| done | done].
    destruct (id e =? id0); [by eapply DoTrigger_grows |].
    injection Hb as <-. split; [done | apply extends_refl].
  - unfold AppEvent_Start in Hrun.
    destruct (event_at id0 s) as [e | |] eqn:He; [| done | done].
    simpl in Hrun.
    eapply sound_step; [| intros Hs1; eapply StartEvent_grows; [exact Hs1 | exact Hrun]].
    eapply sound_set_event; [done | exact He | same_reg | done].
  - unfold AppEvent_Stop in Hrun.
    destruct (event_at id0 s) as [e | |] eqn:He; [| done | done].
    simpl in Hrun. destruct (is_no_irq (irqMode e)).
    + injection Hrun as <-.
      eapply sound_set_event; [done | exact He | same_reg |].
      simpl. by destruct Hs as (_ & Hf); apply (Hf id0 e).
    + unfold GpioRemoveInterrupt in Hrun.
      destruct (gpio_lines s !! irqGpio e); [| done]. injection Hrun as <-.
      by apply sound_ext.
  - unfold AppEvent_SetTimeout in Hrun.
    destruct (event_at id0 s) as [e | |] eqn:He; [| done | done].
    simpl in Hrun. destruct (irqGpio e =? NULL); [| done]. simpl in Hrun.
    injection Hrun as <-.
    eapply sound_set_event; [done | exact He | same_reg | done].
  - unfold AppEvent_ProcessMainEvents in Hrun.
    eapply for_events_grows; [| exact Hs | exact Hrun].
    intros i s0 s1 Hs0 Hb. by eapply process_event_grows.
  - unfold AppEvent_Pause in Hrun.
    destruct (event_at id0 s) as [e | |] eqn:He; [| done | done].
    simpl in Hrun. destruct (is_main (context e)); [| done]. simpl in Hrun.
    injection Hrun as <-.
    eapply sound_set_event; [done | exact He | same_reg |].
    simpl. by destruct Hs as (_ & Hf); apply (Hf id0 e).
  - unfold AppEvent_Resume in Hrun.
    destruct (event_at id0 s) as [e | |] eqn:He; [| done | done].
    simpl in Hrun. destruct (is_main (context e)); [| done]. simpl in Hrun.
    injection Hrun as <-.
    eapply sound_set_event; [done | exact He | same_reg |].
    simpl. by destruct Hs as (_ & Hf); apply (Hf id0 e).
  - unfold TimerIrqHandler in Hrun.
    destruct (event_at ev s) as [e | |] eqn:He; [| done | done].
    simpl in Hrun.
    destruct (TimerRunning (timer e));
      [| injection Hrun as <-; split; [done | apply extends_refl]].
    eapply sound_step;
      [| intros Hs1; eapply OnEvent_grows; [done | exact Hs1 | exact Hrun]].
    eapply sound_set_event; [done | exact He | same_reg |].
    simpl. by destruct Hs as (_ & Hf); apply (Hf ev e).
  - unfold AppEvent_EnableDebug in Hrun.
    destruct (event_at id0 s) as [e | |] eqn:He; [| done | done].
    injection Hrun as <-.
    eapply sound_set_event; [done | exact He | same_reg |].
    simpl. by destruct Hs as (_ & Hf); apply (Hf id0 e).
  - unfold AppEvent_DisableDebug in Hrun.
    destruct (event_at id0 s) as [e | |] eqn:He; [| done | done].
    injection Hrun as <-.
    eapply sound_set_event; [done | exact He | same_reg |].
    simpl. by destruct Hs as (_ & Hf); apply (Hf id0 e).
  - unfold OnInterruptEvent in Hrun. by eapply interrupt_scan_grows.
Qed.

Lemma run_calls_grows (cb_sem : N → State → outcome State)
    (rand : N → N * N) (scale_rand : N → N → N) (cs : list call) :
  callbacks_grow cb_sem →
  ∀ s s', sound s → run_calls cb_sem rand scale_rand cs s = Ok s' →
    sound s' ∧ extends s s'.
Proof.
  intros Hcb. induction cs as [| c cs IH]; intros s s' Hs Hrun; simpl in Hrun.
  - injection Hrun as <-. split; [done | apply extends_refl].
  - destruct (run_call cb_sem rand scale_rand c s) as [s1 | |] eqn:Hc;
      [| done | done].
    simpl in Hrun. eapply sound_step; [by eapply run_call_grows |].
    intros Hs1. by eapply IH.
Qed.

Lemma sound_boot (lines : gmap N Gpio_t) (now seed : N) :
  sound (boot lines now seed).
Proof.
  split; [apply module_inv_boot |].
  intros k e Hk Ht. apply event_at_Ok in Hk.
  unfold boot, m_events in Hk.
  apply lookup_replicate in Hk as [-> _]. done.
Qed.

(** X1: in every state the module reaches from power-on, whatever calls
    were made, the registered descriptors are the first [m_numEvents]
    slots, [m_numEvents] is at most [MAX_EVENTS], descriptor [k] carries id
    [k] and a callback that is not null, only interrupt descriptors have a
    GPIO line or an interrupt mode, and only main-context descriptors carry
    a pending flag. *)
Theorem reachable_invariants (cb_sem : N → State → outcome State)
    (rand : N → N * N) (scale_rand : N → N → N) (cs : list call)
    (lines : gmap N Gpio_t) (now seed : N) (s : State) :
  callbacks_grow cb_sem →
  run_calls cb_sem rand scale_rand cs (boot lines now seed) = Ok s →
  m_numEvents s ≤ MAX_EVENTS ∧
  (∀ k, k < m_numEvents s →
     ∃ e, event_at k s = Ok e ∧ id e = k ∧ callback e ≠ NULL) ∧
  (∀ k e, event_at k s = Ok e → type e ≠ EVENT_TYPE_INTERRUPT →
     irqGpio e = NULL ∧ irqMode e = NO_IRQ) ∧
  (∀ k e, event_at k s = Ok e → triggered e = true →
     context e = APP_EVENT_CONTEXT_MAIN).
Proof.
  intros Hcb Hrun.
  destruct (run_calls_grows cb_sem rand scale_rand cs Hcb _ s
              (sound_boot lines now seed) Hrun) as (((Hok & _) & Hf) & _).
  split; [by destruct Hok as (? & _) |]. split; [| split; [| done]].
  - intros k Hk. destruct (event_at_below k s Hok) as [e He].
    { destruct Hok as (? & _). lia. }
    exists e. split; [done |]. by eapply registry_ok_registered.
  - intros k e He Hty. by eapply registry_ok_kind.
Qed.

(** X2: the registry only grows.  Between any two states of a run, the
    number of events does not go down, and every registered descriptor
    keeps its id, callback, context, kind, GPIO line, interrupt mode and
    priority, jitter bound and name. *)
Theorem registry_append_only (cb_sem : N → State → outcome State)
    (rand : N → N * N) (scale_rand : N → N → N) (cs1 cs2 : list call)
    (lines : gmap N Gpio_t) (now seed : N) (s s' : State) :
  callbacks_grow cb_sem →
  run_calls cb_sem rand scale_rand cs1 (boot lines now seed) = Ok s →
  run_calls cb_sem rand scale_rand cs2 s = Ok s' →
  m_numEvents s ≤ m_numEvents s' ∧
  ∀ k e, k < m_numEvents s → event_at k s = Ok e →
    ∃ e', event_at k s' = Ok e' ∧
      id e' = id e ∧ callback e' = callback e ∧ context e' = context e ∧
      type e' = type e ∧ irqGpio e' = irqGpio e ∧ irqMode e' = irqMode e ∧
      irqPriority e' = irqPriority e ∧
      timeoutRandomizer e' = timeoutRandomizer e ∧ name e' = name e.
Proof.
  intros Hcb Hrun1 Hrun2.
  destruct (run_calls_grows cb_sem rand scale_rand cs1 Hcb _ s
              (sound_boot lines now seed) Hrun1) as (Hs & _).
  destruct (run_calls_grows cb_sem rand scale_rand cs2 Hcb s s' Hs Hrun2)
    as (_ & Hn & Hext).
  split; [done |]. intros k e Hk He.
  destruct (Hext k e Hk He)
    as (e' & He' & (? & ? & ? & ? & ?) & ? & ? & ? & ?).
  exists e'. by repeat split.
Qed.

(** X5: once an event is registered, [AppEvent_Init] changes nothing: a
    second initialisation cannot empty the registry. *)
Theorem Init_keeps_registry (cb_sem : N → State → outcome State)
    (rand : N → N * N) (scale_rand : N → N → N) (cs : list call)
    (lines : gmap N Gpio_t) (now seed : N) (s : State) :
  callbacks_grow cb_sem →
  run_calls cb_sem rand scale_rand cs (boot lines now seed) = Ok s →
  0 < m_numEvents s →
  AppEvent_Init s = s.
Proof.
  intros Hcb Hrun Hn.
  destruct (run_calls_grows cb_sem rand scale_rand cs Hcb _ s
              (sound_boot lines now seed) Hrun) as (((_ & Hinit) & _) & _).
  unfold AppEvent_Init. destruct (m_initialized s) eqn:Hi; [done |].
  assert (m_numEvents s = 0) by (by apply Hinit). lia.
Qed.

(** ** Registration: when it returns, and how often *)

Lemma valid_request_test (r : registration) :
  valid_request r ↔
  negb (request_eventId r =? NULL) && negb (request_callback r =? NULL) = true.
Proof.
  unfold valid_request. rewrite andb_true_iff, !negb_true_iff, !N.eqb_neq. done.
Qed.

(** X3: a registration through any of the four entry points returns
    exactly when the module is initialised, a slot is free and neither the
    out-parameter nor the callback is null, and it then returns the number
    of events registered so far; in every other case it halts on an
    assertion.  It never reads or writes outside the table. *)
Theorem registration_preconditions (r : registration) (s : State) :
  registry_ok s →
  ((∃ i s', register r s = Ok (i, s')) ↔
   m_initialized s = true ∧ m_numEvents s < MAX_EVENTS ∧ valid_request r) ∧
  (register r s = Halt ↔
   ¬ (m_initialized s = true ∧ m_numEvents s < MAX_EVENTS ∧ valid_request r)) ∧
  (∀ i s', register r s = Ok (i, s') → i = m_numEvents s) ∧
  register r s ≠ Undefined.
Proof.
  intros Hok. pose proof (register_returns r s Hok) as H.
  assert (Hcond : m_initialized s && (m_numEvents s <? MAX_EVENTS)
                  && negb (request_eventId r =? NULL)
                  && negb (request_callback r =? NULL) = true
                  ↔ m_initialized s = true ∧ m_numEvents s < MAX_EVENTS ∧
                    valid_request r).
  { rewrite valid_request_test, <- andb_assoc, !andb_true_iff, N.ltb_lt.
    tauto. }
  destruct (_ && _) eqn:Hb in H.
  - destruct H as [s' Hs']. apply Hcond in Hb.
    split; [split; [done | by eexists _, _] |].
    split; [split; [by rewrite Hs' | tauto] |].
    split; [| by rewrite Hs']. intros i s1. rewrite Hs'. by intros [= <- _].
  - assert (Hn : ¬ (m_initialized s = true ∧ m_numEvents s < MAX_EVENTS ∧
                    valid_request r)).
    { intros Hc. apply Hcond in Hc. congruence. }
    split; [split; [intros (i & s' & Hs'); congruence | tauto] |].
    split; [done |]. split; [| by rewrite H]. intros i s'. by rewrite H.
Qed.

Lemma register_all_capacity (rs : list registration) :
  ∀ s, registry_ok s → m_initialized s = true → Forall valid_request rs →
    if decide (m_numEvents s + N.of_nat (length rs) ≤ MAX_EVENTS)
    then ∃ ids s', register_all rs s = Ok (ids, s')
    else register_all rs s = Halt.
Proof.
  induction rs as [| r rs IH]; intros s Hok Hinit Hvalid.
  - destruct Hok as (Hn & _). simpl.
    destruct (decide _); [by eexists _, _ | lia].
  - apply Forall_cons in Hvalid as [Hr Hrs].
    pose proof (register_returns r s Hok) as H.
    apply valid_request_test in Hr.
    rewrite Hinit, <- andb_assoc, Hr, andb_true_r in H. simpl in H.
    destruct (m_numEvents s <? MAX_EVENTS) eqn:Hlt.
    + apply N.ltb_lt in Hlt. destruct H as [s1 Hs1].
      destruct (register_spec r s s1 _ Hok Hs1) as (_ & Hn1 & Hok1 & _).
      pose proof (register_initialized r s s1 _ Hs1) as Hinit1.
      specialize (IH s1 Hok1 Hinit1 Hrs). rewrite Hn1 in IH.
      simpl register_all. rewrite Hs1. simpl.
      destruct (decide (m_numEvents s + 1 + N.of_nat (length rs) ≤ MAX_EVENTS)).
      * destruct IH as (ids & s' & ->). simpl.
        destruct (decide _); [by eexists _, _ | simpl length in *; lia].
      * rewrite IH. simpl. destruct (decide _); [simpl length in *; lia | done].
    + apply N.ltb_ge in Hlt. simpl register_all. rewrite H. simpl.
      destruct (decide _); [simpl length in *; lia | done].
Qed.

(** X4: the table has room for [MAX_EVENTS] = 32 events.  From
    initialisation on, a sequence of requests with valid arguments is
    registered in full when it has at most 32 requests, with the ids 0, 1,
    2, ...; a longer sequence halts the program at its 33rd request. *)
Theorem registry_capacity (rs : list registration) (lines : gmap N Gpio_t)
    (now seed : N) :
  Forall valid_request rs →
  ((length rs ≤ 32)%nat →
   ∃ s', register_all rs (AppEvent_Init (boot lines now seed))
         = Ok (N.of_nat <$> seq 0 (length rs), s') ∧
         m_numEvents s' = N.of_nat (length rs)) ∧
  ((32 < length rs)%nat →
   register_all rs (AppEvent_Init (boot lines now seed)) = Halt ∧
   ∃ ids s', register_all (take 32 rs) (AppEvent_Init (boot lines now seed))
             = Ok (ids, s') ∧ m_numEvents s' = 32).
Proof.
  intros Hvalid.
  pose proof (registry_ok_boot lines now seed) as Hok.
  assert (Hinit : m_initialized (AppEvent_Init (boot lines now seed)) = true)
    by done.
  assert (Hfit : ∀ rs', Forall valid_request rs' → (length rs' ≤ 32)%nat →
            ∃ s', register_all rs' (AppEvent_Init (boot lines now seed))
                  = Ok (N.of_nat <$> seq 0 (length rs'), s') ∧
                  m_numEvents s' = N.of_nat (length rs')).
  { intros rs' Hv Hlen.
    pose proof (register_all_capacity rs' _ Hok Hinit Hv) as H.
    rewrite AppEvent_Init_boot in H.
    destruct (decide _) as [_ | Hn] in H;
      [| exfalso; apply Hn; unfold MAX_EVENTS; lia].
    destruct H as (ids & s' & Hs').
    destruct (register_all_spec rs' _ s' ids Hok Hs') as (-> & Hn' & _).
    rewrite AppEvent_Init_boot in Hn', Hs'. exists s'. split; [| lia].
    rewrite Hs'. reflexivity. }
  split; [by apply Hfit |]. intros Hlen.
  split.
  - pose proof (register_all_capacity rs _ Hok Hinit Hvalid) as H.
    rewrite AppEvent_Init_boot in H.
    destruct (decide _) as [Hn | _] in H; [| done].
    exfalso. revert Hn. unfold MAX_EVENTS. lia.
  - destruct (Hfit (take 32 rs)) as (s' & Hs' & Hn').
    + by apply Forall_take.
    + rewrite length_take. lia.
    + eexists _, s'. split; [exact Hs' |]. rewrite Hn', length_take. lia.
Qed.

(** ** [AppEvent_IsIdle] and the sweep over the whole table *)

Lemma idle_scan_spec (s : State) :
  registry_ok s →
  ∀ (len : nat) (i : N) (fuel : nat),
    i + N.of_nat len = m_numEvents s → (len < fuel)%nat →
    ∃ b, idle_scan fuel i s = Ok b ∧
      if b : bool
      then ∀ k e, i ≤ k → k < m_numEvents s → event_at k s = Ok e →
             triggered e = false
      else ∃ k e, i ≤ k ∧ k < m_numEvents s ∧ event_at k s = Ok e ∧
             triggered e = true.
Proof.
  intros Hok. assert (Hn : m_numEvents s ≤ 32) by (by destruct Hok as (? & _)).
  induction len as [| len IH]; intros i fuel Hi Hf.
  - destruct fuel as [| fuel]; [lia |]. simpl.
    assert ((i <? m_numEvents s) = false) as -> by (apply N.ltb_ge; lia).
    exists true. split; [done |]. intros k e ? ?. lia.
  - destruct fuel as [| fuel]; [lia |]. simpl.
    assert ((i <? m_numEvents s) = true) as -> by (apply N.ltb_lt; lia).
    destruct (event_at_below i s Hok) as [e He]; [unfold MAX_EVENTS; lia |].
    rewrite He. simpl. destruct (triggered e) eqn:Ht.
    + exists false. split; [done |]. exists i, e.
      split; [lia |]. split; [lia | done].
    + assert (u8 (i + 1) = i + 1) as -> by (unfold u8; lia).
      destruct (IH (i + 1) fuel) as (b & Hb & Hspec); [lia | lia |].
      exists b. split; [done |]. destruct b.
      * intros k ek Hk1 Hk2 Hek.
        destruct (decide (k = i)) as [-> | Hne]; [congruence |].
        apply (Hspec k ek); [lia | done | done].
      * destruct Hspec as (k & ek & Hk1 & Hk2 & Hek & Htk).
        exists k, ek. split; [lia | done].
Qed.

Lemma IsIdle_help (s : State) :
  registry_ok s →
  ∃ b, AppEvent_IsIdle s = Ok b ∧
    if b : bool
    then ∀ k e, k < m_numEvents s → event_at k s = Ok e → triggered e = false
    else ∃ k e, k < m_numEvents s ∧ event_at k s = Ok e ∧ triggered e = true.
Proof.
  intros Hok. assert (Hn : m_numEvents s ≤ 32) by (by destruct Hok as (? & _)).
  destruct (idle_scan_spec s Hok (N.to_nat (m_numEvents s)) 0 256)
    as (b & Hb & Hspec); [lia | lia |].
  exists b. split; [done |]. destruct b.
  - intros k e Hk He. apply (Hspec k e); [lia | done | done].
  - destruct Hspec as (k & e & _ & H). by exists k, e.
Qed.

(** X6: [AppEvent_IsIdle] returns, and it returns [true] exactly when no
    registered descriptor has its [triggered] flag set; paused descriptors
    count, slots that are not registered do not. *)
Theorem IsIdle_spec (s : State) :
  registry_ok s →
  (AppEvent_IsIdle s = Ok true ↔
   ∀ k e, k < m_numEvents s → event_at k s = Ok e → triggered e = false) ∧
  (AppEvent_IsIdle s = Ok false ↔
   ∃ k e, k < m_numEvents s ∧ event_at k s = Ok e ∧ triggered e = true).
Proof.
  intros Hok. destruct (IsIdle_help s Hok) as (b & -> & Hspec).
  destruct b.
  - split; [done |]. split; [done |].
    intros (k & e & Hk & He & Ht). rewrite (Hspec k e Hk He) in Ht. done.
  - split; [| done]. split; [done |]. intros H.
    destruct Hspec as (k & e & Hk & He & Ht). rewrite (H k e Hk He) in Ht. done.
Qed.

Lemma event_at_same_table (s s' : State) (k : N) :
  m_events s' = m_events s → event_at k s' = event_at k s.
Proof. intros H. unfold event_at. by rewrite H. Qed.

Lemma invocations_same_log (s s' : State) (k : N) :
  dispatched s' = dispatched s → invocations k s' = invocations k s.
Proof. intros H. unfold invocations. by rewrite H. Qed.

Lemma triggered_swept (e : AppEvent_t) :
  triggered (swept e) = triggered e && paused e.
Proof.
  unfold swept.
  destruct (triggered e) eqn:Ht, (paused e) eqn:Hp; simpl;
    try destruct (admitted e); simpl; by rewrite ?Ht.
Qed.

(** X7: with callbacks that return and write neither the table nor the
    log, one sweep treats every registered descriptor on its own: a flagged
    descriptor that is not paused loses its flag; if it passes the admission
    test its [processCount] advances and its callback is called exactly
    once; every other descriptor, and every slot that is not registered,
    is left as it was and its callback is not called.  After the sweep
    [AppEvent_IsIdle] answers [true] exactly when no registered descriptor
    was flagged while paused. *)
Theorem sweep_whole_table (cb_sem : N → State → outcome State) (s : State) :
  registry_ok s → (∀ c, harmless cb_sem c) →
  ∃ s', AppEvent_ProcessMainEvents cb_sem s = Ok s' ∧
    m_numEvents s' = m_numEvents s ∧
    (∀ k e, k < m_numEvents s → event_at k s = Ok e →
       event_at k s' = Ok (swept e) ∧
       invocations k s'
       = (invocations k s
          + if triggered e && negb (paused e) && admitted e then 1 else 0)%nat) ∧
    (∀ k e, m_numEvents s ≤ k → event_at k s = Ok e →
       event_at k s' = Ok e ∧ invocations k s' = invocations k s) ∧
    (AppEvent_IsIdle s' = Ok true ↔
     ∀ k e, k < m_numEvents s → event_at k s = Ok e →
       triggered e = true → paused e = false).
Proof.
  intros Hok Hcb.
  assert (Hn32 : m_numEvents s ≤ 32) by (by destruct Hok as (? & _)).
  set (n := m_numEvents s).
  pose (count := λ (e : AppEvent_t),
          if triggered e && negb (paused e) && admitted e then 1%nat else 0%nat).
  pose (I := λ (j : N) (s1 : State),
          registry_ok s1 ∧ m_numEvents s1 = n ∧
          (∀ k e, event_at k s = Ok e →
             event_at k s1 = Ok (if decide (k < j) then swept e else e)) ∧
          (∀ k e, event_at k s = Ok e →
             invocations k s1
             = (invocations k s + if decide (k < j)%N then count e else 0)%nat)).
  destruct (for_events_run (process_event cb_sem) I n) with
    (len := N.to_nat n) (a := 0) (fuel := 256%nat) (s := s)
    as (s' & Hrun & Hok' & Hn' & Hslots & Hcalls).
  - lia.
  - by intros j s1 (_ & ? & _).
  - intros j s1 Hj (Hok1 & Hn1 & Hs1 & Hc1).
    destruct (event_at_below j s Hok) as [e He]; [unfold MAX_EVENTS; lia |].
    assert (He1 : event_at j s1 = Ok e).
    { rewrite (Hs1 j e He). destruct (decide (j < j)); [lia | done]. }
    assert (Hstep : ∀ s2 (d : nat),
              registry_ok s2 → m_numEvents s2 = n →
              event_at j s2 = Ok (swept e) →
              (∀ k, k ≠ j → event_at k s2 = event_at k s1) →
              (∀ k, invocations k s2
                    = (invocations k s1 + if decide (k = j) then d else 0)%nat) →
              d = count e →
              I (j + 1) s2).
    { intros s2 d Hok2 Hn2 Hj2 Hne2 Hc2 Hd.
      split; [done |]. split; [done |]. split.
      - intros k ek Hk. destruct (decide (k = j)) as [-> | Hkj].
        + assert (ek = e) as -> by congruence.
          destruct (decide (j < j + 1)); [done | lia].
        + rewrite (Hne2 k Hkj), (Hs1 k ek Hk).
          destruct (decide (k < j)), (decide (k < j + 1)); try done; lia.
      - intros k ek Hk. rewrite Hc2, (Hc1 k ek Hk).
        destruct (decide (k = j)) as [-> | Hkj].
        + assert (ek = e) as -> by congruence.
          destruct (decide (j < j)), (decide (j < j + 1)); lia.
        + destruct (decide (k < j)), (decide (k < j + 1)); lia. }
    destruct (triggered e && negb (paused e)) eqn:Hflag.
    2: { exists s1. split; [by eapply process_event_skip |].
         apply (Hstep s1 0%nat); try done.
         - unfold swept. by rewrite Hflag.
         - intros k. destruct (decide (k = j)); lia.
         - unfold count. by rewrite Hflag. }
    apply andb_true_iff in Hflag as [Ht Hp]. apply negb_true_iff in Hp.
    destruct (admitted e) eqn:Ha.
    2: { exists (set_event j (set_triggered false e) s1).
         split; [by eapply process_event_drop |].
         apply (Hstep _ 0%nat); try done.
         - eapply registry_ok_set_event; [done | exact He1 |].
           by unfold same_identity.
         - rewrite (event_at_set_event_same j e _ s1 He1).
           unfold swept. by rewrite Ht, Hp, Ha.
         - intros k Hk. by rewrite event_at_set_event_ne.
         - intros k. change (invocations k (set_event j _ s1))
             with (invocations k s1). destruct (decide (k = j)); lia.
         - unfold count. by rewrite Ht, Hp, Ha. }
    destruct (registry_ok_registered s1 j e Hok1 He1) as [_ Hcbn]; [lia |].
    rewrite (process_event_dispatch cb_sem j s1 e He1 Ht Hp Ha Hcbn).
    set (s2 := log_dispatch j (set_event j (processed e) s1)).
    destruct (Hcb (callback e) s2) as (s3 & Hs3 & Hev3 & Hn3 & Hd3).
    exists s3. split; [done |].
    apply (Hstep _ 1%nat).
    + eapply (registry_ok_ext s2); [done | done |].
      apply registry_ok_log. eapply registry_ok_set_event; [done | exact He1 |].
      by unfold same_identity.
    + by rewrite Hn3.
    + rewrite (event_at_same_table s2 s3 j Hev3).
      unfold s2. change (event_at j (log_dispatch j ?x)) with (event_at j x).
      rewrite (event_at_set_event_same j e _ s1 He1).
      unfold swept, processed. by rewrite Ht, Hp, Ha.
    + intros k Hk. rewrite (event_at_same_table s2 s3 k Hev3).
      unfold s2. change (event_at k (log_dispatch j ?x)) with (event_at k x).
      by rewrite event_at_set_event_ne.
    + intros k. rewrite (invocations_same_log s2 s3 k Hd3).
      unfold s2. rewrite invocations_log.
      change (invocations k (set_event j (processed e) s1))
        with (invocations k s1).
      destruct (decide (j = k)), (decide (k = j)); try done; congruence.
    + unfold count. by rewrite Ht, Hp, Ha.
  - lia.
  - lia.
  - split; [done |]. split; [done |]. split.
    + intros k e He. destruct (decide (k < 0)); [lia | done].
    + intros k e He. destruct (decide (k < 0)); lia.
  - exists s'. split; [done |]. split; [done |].
    assert (Hreg : ∀ k e, k < n → event_at k s = Ok e →
              event_at k s' = Ok (swept e)).
    { intros k e Hk He. rewrite (Hslots k e He).
      destruct (decide (k < n)); [done | lia]. }
    split; [| split].
    + intros k e Hk He. split; [by apply Hreg |].
      rewrite (Hcalls k e He). unfold count.
      destruct (decide (k < n)); [done | lia].
    + intros k e Hk He. split.
      * rewrite (Hslots k e He). destruct (decide (k < n)); [lia | done].
      * rewrite (Hcalls k e He). destruct (decide (k < n)); lia.
    + destruct (IsIdle_help s' Hok') as (b & Hb & Hspec). rewrite Hb.
      rewrite Hn' in Hspec. destruct b.
      * split; [| done]. intros _ k e Hk He Ht.
        assert (triggered (swept e) = false) as Hsw
          by (apply (Hspec k (swept e)); [done | by apply Hreg]).
        rewrite triggered_swept, Ht in Hsw. by destruct (paused e).
      * split; [done |]. intros H. exfalso.
        destruct Hspec as (k & e' & Hk & He' & Ht').
        destruct (event_at_below k s Hok) as [e He]; [unfold MAX_EVENTS; lia |].
        rewrite (Hreg k e Hk He) in He'. injection He' as <-.
        rewrite triggered_swept in Ht'.
        apply andb_true_iff in Ht' as [Ht Hp].
        rewrite (H k e Hk He Ht) in Hp. done.
Qed.

(** ** Interrupts *)

Lemma line_matches_other (n0 : N) (e : AppEvent_t) (s : State) :
  irqMode e = NO_IRQ ∨
    (∃ g, gpio_lines s !! irqGpio e = Some g ∧ intNo g ≠ n0) →
  line_matches n0 e s = Ok false.
Proof.
  unfold line_matches. intros [-> | (g & Hg & Hne)]; [done |].
  destruct (negb (is_no_irq (irqMode e))); [| done].
  rewrite Hg. apply N.eqb_neq in Hne. by rewrite Hne.
Qed.

(** The scan passes the descriptors that do not listen to the line. *)
Lemma interrupt_scan_passes (cb_sem : N → State → outcome State) (n0 : N)
    (s : State) (k : N) :
  registry_ok s → k ≤ m_numEvents s →
  (∀ j ej, j < k → event_at j s = Ok ej → line_matches n0 ej s = Ok false) →
  ∀ (len : nat) (i : N) (fuel : nat),
    i + N.of_nat len = k →
    interrupt_scan cb_sem (len + fuel) n0 i s
    = interrupt_scan cb_sem fuel n0 k s.
Proof.
  intros Hok Hk Hpass.
  assert (Hn : m_numEvents s ≤ 32) by (by destruct Hok as (? & _)).
  induction len as [| len IH]; intros i fuel Hi.
  - simpl. f_equal. lia.
  - simpl.
    assert ((i <? m_numEvents s) = true) as -> by (apply N.ltb_lt; lia).
    destruct (event_at_below i s Hok) as [e He]; [unfold MAX_EVENTS; lia |].
    rewrite He. simpl. rewrite (Hpass i e); [| lia | done]. simpl.
    assert (u8 (i + 1) = i + 1) as -> by (unfold u8; lia).
    apply IH. lia.
Qed.

Lemma OnInterruptEvent_from (cb_sem : N → State → outcome State) (n0 : N)
    (s : State) (k : N) :
  registry_ok s → k ≤ m_numEvents s →
  (∀ j ej, j < k → event_at j s = Ok ej → line_matches n0 ej s = Ok false) →
  OnInterruptEvent cb_sem n0 s
  = interrupt_scan cb_sem (256 - N.to_nat k) n0 k s.
Proof.
  intros Hok Hk Hpass.
  assert (Hn : m_numEvents s ≤ 32) by (by destruct Hok as (? & _)).
  unfold OnInterruptEvent.
  replace 256%nat with (N.to_nat k + (256 - N.to_nat k))%nat at 1 by lia.
  apply interrupt_scan_passes; [done | done | done | lia].
Qed.

Lemma OnInterruptEvent_first (cb_sem : N → State → outcome State) (n0 : N)
    (s : State) (k : N) (e : AppEvent_t) (g : Gpio_t) :
  registry_ok s → k < m_numEvents s → event_at k s = Ok e →
  irqMode e ≠ NO_IRQ → gpio_lines s !! irqGpio e = Some g → intNo g = n0 →
  (∀ j ej, j < k → event_at j s = Ok ej → line_matches n0 ej s = Ok false) →
  OnInterruptEvent cb_sem n0 s
  = (s1 <- DoTrigger cb_sem k s ;;
     event1 <- event_at k s1 ;;
     if single event1 then GpioRemoveInterrupt (irqGpio event1) s1 else Ok s1).
Proof.
  intros Hok Hk He Hmode Hg Hno Hpass.
  assert (Hn : m_numEvents s ≤ 32) by (by destruct Hok as (? & _)).
  rewrite (OnInterruptEvent_from cb_sem n0 s k Hok); [| lia | done].
  destruct (256 - N.to_nat k)%nat as [| fuel] eqn:Hfuel; [lia |].
  simpl. apply N.ltb_lt in Hk. rewrite Hk, He. simpl.
  unfold line_matches.
  destruct (irqMode e); [done | | | ]; simpl; rewrite Hg, Hno, N.eqb_refl; done.
Qed.

(** X8: an interrupt on a line that no registered descriptor listens to
    changes nothing: no flag is set, no callback is called, no line is
    detached. *)
Theorem interrupt_without_listener (cb_sem : N → State → outcome State)
    (n0 : N) (s : State) :
  registry_ok s →
  (∀ k e, k < m_numEvents s → event_at k s = Ok e →
     irqMode e = NO_IRQ ∨
     ∃ g, gpio_lines s !! irqGpio e = Some g ∧ intNo g ≠ n0) →
  OnInterruptEvent cb_sem n0 s = Ok s.
Proof.
  intros Hok Hnone.
  assert (Hn : m_numEvents s ≤ 32) by (by destruct Hok as (? & _)).
  rewrite (OnInterruptEvent_from cb_sem n0 s (m_numEvents s) Hok); [| lia |].
  - destruct (256 - N.to_nat (m_numEvents s))%nat as [| fuel] eqn:Hfuel;
      [lia |].
    simpl. by rewrite N.ltb_irrefl.
  - intros j ej Hj Hej. apply line_matches_other. by apply (Hnone j).
Qed.

(** X9: an interrupt is delivered to the first registered descriptor that
    listens to the line, and to no other.  For a main-context descriptor
    the flag is set and [triggerCount] advances by 1 modulo 2^16; every
    other slot, also one that listens to the same line, is left as it was
    and no callback is called.  The line is detached when the descriptor
    was started as single-shot, and is left alone otherwise. *)
Theorem interrupt_first_listener (cb_sem : N → State → outcome State)
    (n0 : N) (s : State) (k : N) (e : AppEvent_t) (g : Gpio_t) :
  registry_ok s → k < m_numEvents s → event_at k s = Ok e →
  irqMode e ≠ NO_IRQ → gpio_lines s !! irqGpio e = Some g → intNo g = n0 →
  (∀ j ej, j < k → event_at j s = Ok ej →
     irqMode ej = NO_IRQ ∨
     ∃ gj, gpio_lines s !! irqGpio ej = Some gj ∧ intNo gj ≠ n0) →
  context e = APP_EVENT_CONTEXT_MAIN →
  ∃ s', OnInterruptEvent cb_sem n0 s = Ok s' ∧
    event_at k s' = Ok (count_trigger 1 e) ∧
    (∀ j, j ≠ k → event_at j s' = event_at j s) ∧
    m_numEvents s' = m_numEvents s ∧
    dispatched s' = dispatched s ∧
    gpio_lines s'
    = if single e
      then <[irqGpio e := mkGpio (intNo g) false (attachedMode g)
                            (attachedPriority g) (hasContext g)]> (gpio_lines s)
      else gpio_lines s.
Proof.
  intros Hok Hk He Hmode Hg Hno Hpass Hctx.
  rewrite (OnInterruptEvent_first cb_sem n0 s k e g); try done.
  2: { intros j ej Hj Hej. apply line_matches_other. by apply (Hpass j). }
  rewrite (DoTrigger_main cb_sem k s e He Hctx). simpl.
  rewrite (event_at_set_event_same k e _ s He). simpl.
  destruct (single e) eqn:Hsingle.
  - unfold GpioRemoveInterrupt. simpl. rewrite Hg.
    eexists. split; [reflexivity |].
    split; [by apply (event_at_set_event_same k e _ s) |].
    split; [intros j Hj; by apply (event_at_set_event_ne k j) |]. done.
  - eexists. split; [reflexivity |].
    split; [by apply (event_at_set_event_same k e _ s) |].
    split; [intros j Hj; by apply (event_at_set_event_ne k j) |]. done.
Qed.

(** ** Stopping, single-shot events and manual triggers *)

Lemma admitted_set_timer (tm : TimerEvent_t) (e : AppEvent_t) :
  type e = EVENT_TYPE_GENERAL ∨ irqMode e ≠ NO_IRQ ∨ single e = true →
  admitted (set_timer tm e) = true.
Proof.
  unfold admitted. simpl. intros [Hty | [Hmode | Hsingle]].
  - rewrite Hty. simpl. by rewrite !orb_true_r.
  - destruct (irqMode e); [done | done..].
  - rewrite Hsingle. simpl. by rewrite orb_true_r.
Qed.

(** X10: [AppEvent_Stop] withdraws a pending trigger from continuous
    timers only.  A general event, an event bound to a line and an event
    started as single-shot that is flagged and not paused when stopped is
    still dispatched by the next sweep: the flag is cleared, [processCount]
    advances and the callback is called once.  Callbacks are taken to leave
    the descriptor alone. *)
Theorem stop_keeps_pending_dispatch (cb_sem : N → State → outcome State)
    (i : N) (s : State) (e : AppEvent_t) :
  registry_ok s → i < m_numEvents s → event_at i s = Ok e →
  (irqMode e ≠ NO_IRQ → is_Some (gpio_lines s !! irqGpio e)) →
  type e = EVENT_TYPE_GENERAL ∨ irqMode e ≠ NO_IRQ ∨ single e = true →
  triggered e = true → paused e = false →
  (∀ c, frames cb_sem i c) →
  ∃ s1 s2 e2, AppEvent_Stop i s = Ok s1 ∧
    AppEvent_ProcessMainEvents cb_sem s1 = Ok s2 ∧
    event_at i s2 = Ok e2 ∧ triggered e2 = false ∧
    triggerCount (diagnostics e2) = triggerCount (diagnostics e) ∧
    processCount (diagnostics e2) = u16 (processCount (diagnostics e) + 1) ∧
    invocations i s2 = S (invocations i s).
Proof.
  intros Hok Hi He Hline Hkind Ht Hp Hfr.
  destruct (AppEvent_Stop_spec i s e He Hline)
    as (s1 & tm & Hs1 & He1 & _ & Hn1 & Hd1 & Hok1).
  destruct (sweep_dispatches cb_sem i s1 (set_timer tm e))
    as (s2 & Hs2 & _ & _ & He2 & Hk2); try done.
  - by apply Hok1.
  - lia.
  - by apply admitted_set_timer.
  - exists s1, s2, (processed (set_timer tm e)).
    split; [done |]. split; [done |]. split; [done |].
    split; [done |]. split; [done |]. split; [done |].
    rewrite Hk2. unfold invocations. by rewrite Hd1.
Qed.


Lemma count_trigger_again (n : N) (e : AppEvent_t) :
  count_trigger n (count_trigger 1 e) = count_trigger (n + 1) e.
Proof.
  unfold count_trigger, set_diagnostics, set_triggerCount, set_triggered.
  simpl. do 2 f_equal. unfold u16. lia.
Qed.

Lemma trigger_times_main (cb_sem : N → State → outcome State) (i : N)
    (n : nat) :
  ∀ (s : State) (e : AppEvent_t),
    registry_ok s → i < m_numEvents s → event_at i s = Ok e →
    context e = APP_EVENT_CONTEXT_MAIN →
    trigger_times cb_sem (S n) i s
    = Ok (set_event i (count_trigger (N.of_nat (S n)) e) s).
Proof.
  induction n as [| n IH]; intros s e Hok Hi He Hctx.
  - simpl. rewrite (AppEvent_Trigger_main cb_sem i s e); done.
  - change (trigger_times cb_sem (S (S n)) i s)
      with (s0 <- AppEvent_Trigger cb_sem i s ;;
            trigger_times cb_sem (S n) i s0).
    rewrite (AppEvent_Trigger_main cb_sem i s e); try done.
    cbv beta iota delta [obind].
    rewrite (IH _ (count_trigger 1 e)); try done.
    + rewrite set_event_twice, count_trigger_again. do 3 f_equal. lia.
    + eapply registry_ok_set_event; [done | exact He |].
      by unfold same_identity.
    + by eapply event_at_set_event_same.
Qed.

(** X12: [n >= 1] calls of [AppEvent_Trigger] for a registered
    main-context event with no sweep in between leave one pending flag:
    the state is the one before the calls with [triggered] set and
    [triggerCount] advanced by [n] modulo 2^16 in the descriptor, and no
    callback has been called.  If the descriptor is admitted and not
    paused, the next sweep calls the callback once.  Callbacks are taken
    to leave the descriptor alone. *)
Theorem manual_triggers_coalesce (cb_sem : N → State → outcome State)
    (i : N) (n : nat) (s : State) (e : AppEvent_t) :
  registry_ok s → i < m_numEvents s → event_at i s = Ok e →
  context e = APP_EVENT_CONTEXT_MAIN → (1 ≤ n)%nat →
  trigger_times cb_sem n i s
  = Ok (set_event i (count_trigger (N.of_nat n) e) s) ∧
  (paused e = false → admitted e = true → (∀ c, frames cb_sem i c) →
   ∃ s2, AppEvent_ProcessMainEvents cb_sem
           (set_event i (count_trigger (N.of_nat n) e) s) = Ok s2 ∧
     event_at i s2 = Ok (processed (count_trigger (N.of_nat n) e)) ∧
     invocations i s2 = S (invocations i s)).
Proof.
  intros Hok Hi He Hctx Hn.
  destruct n as [| n]; [lia |].
  split; [by apply trigger_times_main |].
  intros Hp Ha Hfr.
  destruct (sweep_dispatches cb_sem i
              (set_event i (count_trigger (N.of_nat (S n)) e) s)
              (count_trigger (N.of_nat (S n)) e))
    as (s2 & Hs2 & _ & _ & He2 & Hk2); try done.
  - eapply registry_ok_set_event; [done | exact He |]. by unfold same_identity.
  - by eapply event_at_set_event_same.
  - by exists s2.
Qed.

(** X13: [AppEvent_Trigger] for a registered immediate-context event
    calls the callback of that event once, on the state with the two
    counters advanced, and returns what the callback returned: the scan
    finds no second descriptor with the id.  The callback is taken to
    return with the registry as it was. *)
Theorem trigger_immediate_event (cb_sem : N → State → outcome State)
    (i : N) (s s' : State) (e : AppEvent_t) :
  registry_ok s → i < m_numEvents s → event_at i s = Ok e →
  context e = APP_EVENT_CONTEXT_IMMEDIATE →
  cb_sem (callback e) (log_dispatch i (set_event i (count_immediate e) s))
  = Ok s' →
  registry_ok s' → m_numEvents s' = m_numEvents s →
  AppEvent_Trigger cb_sem i s = Ok s'.
Proof.
  intros Hok Hi He Hctx Hcall Hok' Hn'.
  assert (Hn32 : m_numEvents s ≤ 32) by (by destruct Hok as (? & _)).
  pose (I := λ (j : N) (s0 : State),
          registry_ok s0 ∧ m_numEvents s0 = m_numEvents s ∧
          s0 = if decide (j ≤ i) then s else s').
  unfold AppEvent_Trigger.
  edestruct (for_events_run
               (λ i0 s0, event <- event_at i0 s0 ;;
                         if id event =? i then DoTrigger cb_sem i0 s0
                         else Ok s0) I (m_numEvents s))
    with (len := N.to_nat (m_numEvents s)) (a := 0) (fuel := 256%nat) (s := s)
    as (s2 & Hs2 & _ & _ & Heq).
  - lia.
  - by intros j s0 (_ & ? & _).
  - intros j s0 Hj (Hok0 & Hn0 & Hs0).
    destruct (event_at_below j s0 Hok0) as [ej Hej]; [unfold MAX_EVENTS; lia |].
    destruct (registry_ok_registered s0 j ej Hok0 Hej) as [Hid _]; [lia |].
    rewrite Hej. simpl. rewrite Hid.
    destruct (decide (j = i)) as [-> | Hne].
    + rewrite N.eqb_refl.
      destruct (decide (i ≤ i)); [| lia]. subst s0.
      destruct (registry_ok_registered s i e Hok He Hi) as [_ Hcb].
      rewrite (DoTrigger_immediate cb_sem i s e He Hctx Hcb).
      exists s'. split; [done |]. split; [done |]. split; [done |].
      destruct (decide (i + 1 ≤ i)); [lia | done].
    + apply N.eqb_neq in Hne as Hneb. rewrite Hneb.
      exists s0. split; [done |]. split; [done |]. split; [done |].
      rewrite Hs0. destruct (decide (j ≤ i)), (decide (j + 1 ≤ i)); try done; lia.
  - lia.
  - lia.
  - split; [done |]. split; [done |]. destruct (decide (0 ≤ i)); [done | lia].
  - rewrite Hs2. f_equal. rewrite Heq.
    destruct (decide (m_numEvents s ≤ i)); [lia | done].
Qed.

Lemma set_event_same (i : N) (s : State) (e : AppEvent_t) :
  event_at i s = Ok e → set_event i e s = s.
Proof.
  intros He. apply event_at_Ok in He. destruct s. unfold set_event, set_events.
  simpl in *. by rewrite list_insert_id.
Qed.

Lemma set_paused_same (e : AppEvent_t) : set_paused (paused e) e = e.
Proof. by destruct e. Qed.

(** X14: [AppEvent_Pause] and [AppEvent_Resume] halt on an
    immediate-context event.  On a main-context event they write the
    [paused] field only: pausing an event that is not paused and resuming
    it gives back the state before the two calls, and so does resuming and
    pausing one that is paused. *)
Theorem pause_resume_round_trip (i : N) (s : State) (e : AppEvent_t) :
  event_at i s = Ok e →
  (context e = APP_EVENT_CONTEXT_IMMEDIATE →
   AppEvent_Pause i s = Halt ∧ AppEvent_Resume i s = Halt) ∧
  (context e = APP_EVENT_CONTEXT_MAIN →
   (paused e = false →
    (s1 <- AppEvent_Pause i s ;; AppEvent_Resume i s1) = Ok s) ∧
   (paused e = true →
    (s1 <- AppEvent_Resume i s ;; AppEvent_Pause i s1) = Ok s)).
Proof.
  intros He. split.
  - intros Hctx. unfold AppEvent_Pause, AppEvent_Resume. rewrite He. simpl.
    by rewrite Hctx.
  - intros Hctx.
    assert (HP : AppEvent_Pause i s = Ok (set_event i (set_paused true e) s)).
    { unfold AppEvent_Pause. rewrite He. simpl. by rewrite Hctx. }
    assert (HR : AppEvent_Resume i s = Ok (set_event i (set_paused false e) s)).
    { unfold AppEvent_Resume. rewrite He. simpl. by rewrite Hctx. }
    split.
    + intros Hp. rewrite HP. simpl. unfold AppEvent_Resume.
      rewrite (event_at_set_event_same i e _ s He). simpl. rewrite Hctx. simpl.
      rewrite set_event_twice. f_equal.
      replace (set_paused false (set_paused true e)) with e.
      * by apply set_event_same.
      * rewrite <- (set_paused_same e) at 1. by rewrite Hp.
    + intros Hp. rewrite HR. simpl. unfold AppEvent_Pause.
      rewrite (event_at_set_event_same i e _ s He). simpl. rewrite Hctx. simpl.
      rewrite set_event_twice. f_equal.
      replace (set_paused true (set_paused false e)) with e.
      * by apply set_event_same.
      * rewrite <- (set_paused_same e) at 1. by rewrite Hp.
Qed.

(** X15: in every state the module reaches from power-on, the sweeps,
    however many follow, do not call the callback of an immediate-context
    event and do not write its descriptor: such an event is dispatched on
    the trigger path only.  Callbacks are taken to leave the descriptor
    alone. *)
Theorem sweeps_pass_immediate (cb_sem : N → State → outcome State)
    (rand : N → N * N) (scale_rand : N → N → N) (cs : list call)
    (lines : gmap N Gpio_t) (now seed : N) (s : State)
    (i : N) (e : AppEvent_t) (k : nat) :
  callbacks_grow cb_sem →
  run_calls cb_sem rand scale_rand cs (boot lines now seed) = Ok s →
  i < m_numEvents s → event_at i s = Ok e →
  context e = APP_EVENT_CONTEXT_IMMEDIATE →
  (∀ c, frames cb_sem i c) →
  ∃ s', sweep_times cb_sem k s = Ok s' ∧ event_at i s' = Ok e ∧
    invocations i s' = invocations i s.
Proof.
  intros Hcb Hrun Hi He Hctx Hfr.
  destruct (run_calls_grows cb_sem rand scale_rand cs Hcb _ s
              (sound_boot lines now seed) Hrun) as (((Hok & _) & Hflags) & _).
  assert (Ht : triggered e = false).
  { destruct (triggered e) eqn:Ht; [| done].
    rewrite (Hflags i e He Ht) in Hctx. done. }
  destruct (sweeps_skip cb_sem i e k s) as (s' & Hs' & _ & _ & He' & Hk');
    try done.
  - by rewrite Ht.
  - by exists s'.
Qed.

(** X16: the generated name of a descriptor registered without one fits
    [genericName] with its terminator, whatever the [uint8_t] id, and
    tells the ids apart. *)
Theorem generic_names (e e' : AppEvent_t) :
  name e = None → id e < 256 →
  (String.length (GetEventName e) + 1 ≤ GENERIC_NAME_SIZE)%nat ∧
  (name e' = None → GetEventName e' = GetEventName e → id e' = id e).
Proof.
  intros Hname Hid. unfold GetEventName. rewrite Hname. split.
  - assert (Hall : forallb
              (λ k : nat,
                 (String.length ("EVENT" +:+ pretty (N.of_nat k)) + 1
                  <=? GENERIC_NAME_SIZE)%nat) (seq 0 256) = true)
      by (vm_compute; reflexivity).
    rewrite forallb_forall in Hall.
    specialize (Hall (N.to_nat (id e))). rewrite N2Nat.id in Hall.
    apply Nat.leb_le, Hall, in_seq. lia.
  - intros ->. simpl. intros H. injection H as H.
    change (pretty (id e') = pretty (id e)) in H. by apply (inj pretty) in H.
Qed.

(** X17: starting an event that is bound to a line attaches the line with
    the mode and the priority of the descriptor and gives it its context,
    and does not touch the timer handle; stopping it detaches the line and
    writes nothing in the descriptor. *)
Theorem interrupt_start_stop (rand : N → N * N) (scale_rand : N → N → N)
    (i : N) (b : bool) (s : State) (e : AppEvent_t) (g : Gpio_t) :
  event_at i s = Ok e → irqMode e ≠ NO_IRQ →
  gpio_lines s !! irqGpio e = Some g →
  ∃ s1 s2 e1, AppEvent_Start rand scale_rand i b s = Ok s1 ∧
    event_at i s1 = Ok e1 ∧ timer e1 = timer e ∧
    triggered e1 = false ∧ single e1 = b ∧
    gpio_lines s1 !! irqGpio e
    = Some (mkGpio (intNo g) true (irqMode e) (irqPriority e) true) ∧
    AppEvent_Stop i s1 = Ok s2 ∧
    event_at i s2 = Ok e1 ∧
    gpio_lines s2 !! irqGpio e
    = Some (mkGpio (intNo g) false (irqMode e) (irqPriority e) true).
Proof.
  intros He Hmode Hg.
  set (e1 := set_diagnostics (set_startTime (rtc_now s) (diagnostics e))
               (set_single b (set_triggered false e))).
  assert (He1 : event_at i (set_event i e1 s) = Ok e1)
    by (by eapply event_at_set_event_same).
  rewrite (AppEvent_Start_unfold rand scale_rand i b s e He). fold e1.
  assert (Hno : is_no_irq (irqMode e) = false)
    by (by destruct (irqMode e)).
  unfold StartEvent. rewrite He1. simpl.
  change (irqMode e1) with (irqMode e). change (irqGpio e1) with (irqGpio e).
  change (irqPriority e1) with (irqPriority e).
  eexists _, _, e1. split.
  { rewrite Hno. unfold GpioSetInterrupt. simpl. rewrite Hg. simpl.
    unfold GpioMcuSetContext. simpl. rewrite lookup_insert_eq. reflexivity. }
  split; [exact He1 |]. split; [done |]. split; [done |]. split; [done |].
  split; [simpl; by rewrite lookup_insert_eq |].
  unfold AppEvent_Stop.
  repeat change (event_at i (set_gpio_lines ?l ?x)) with (event_at i x).
  rewrite He1. cbv beta iota delta [obind].
  change (irqMode e1) with (irqMode e). change (irqGpio e1) with (irqGpio e).
  rewrite Hno. unfold GpioRemoveInterrupt. simpl. rewrite lookup_insert_eq.
  simpl. split; [reflexivity |]. split; [exact He1 |].
  simpl. by rewrite lookup_insert_eq.
Qed.

(** * The statements on the scenarios *)

(** The callbacks of the scenarios leave every descriptor alone. *)
Lemma frames_quiet (i c : N) : frames quiet i c.
Proof. intros s Hok. by exists s. Qed.

Lemma frames_retrigger_other (i c : N) : c ≠ 100 → frames retrigger i c.
Proof.
  intros Hne s Hok. exists s. unfold retrigger.
  apply N.eqb_neq in Hne. by rewrite Hne.
Qed.

(** [coalescing_law] on the started timer: three expiries, then one sweep. *)
Lemma coalescing_law_witness :
  ∃ s1 e1 s2 e2,
    fire_times quiet demo_rand demo_scale 3 0 main_timer_started = Ok s1 ∧
    event_at 0 s1 = Ok e1 ∧
    triggered e1 = true ∧ triggerCount (diagnostics e1) = 3 ∧
    AppEvent_ProcessMainEvents quiet s1 = Ok s2 ∧
    event_at 0 s2 = Ok e2 ∧
    triggered e2 = false ∧ processCount (diagnostics e2) = 1 ∧
    invocations 0 s2 = 1%nat.
Proof.
  destruct (coalescing_law quiet demo_rand demo_scale 0 3 main_timer_started
              (event_of (event_at 0 main_timer_started)))
    as (s1 & e1 & Hs1 & He1 & Ht1 & Hc1 & Hp1 & Hk1 & Hr1 & _ & Hsweep & _).
  - apply registry_okb_sound. vm_compute. reflexivity.
  - vm_compute. reflexivity.
  - vm_compute. reflexivity.
  - vm_compute. reflexivity.
  - vm_compute. reflexivity.
  - vm_compute. reflexivity.
  - lia.
  - intros c. apply frames_quiet.
  - destruct Hsweep as (s2 & e2 & Hs2 & He2 & Ht2 & Hp2 & Hc2 & Hk2);
      [vm_compute; reflexivity |].
    exists s1, e1, s2, e2.
    split; [exact Hs1 |]. split; [exact He1 |]. split; [exact Ht1 |].
    split; [rewrite Hc1; vm_compute; reflexivity |].
    split; [exact Hs2 |]. split; [exact He2 |]. split; [exact Ht2 |].
    split; [rewrite Hp2; vm_compute; reflexivity |].
    rewrite Hk2, Hk1. vm_compute. reflexivity.
Defined.

(** C1, refuted as stated.  A paused timer event: after three expiries
    with the timer armed, the sweep leaves the flag set, [processCount] as
    it was and the callback uncalled.  A timer event whose [triggerCount]
    is 65535: one more expiry takes the counter to 0, not to 65536. *)
Lemma coalescing_law_counterexample :
  (∃ e s1 e1 s2 e2,
     event_at 0 main_timer_paused = Ok e ∧
     type e = EVENT_TYPE_TIMER ∧ context e = APP_EVENT_CONTEXT_MAIN ∧
     single e = false ∧
     fire_times quiet demo_rand demo_scale 3 0 main_timer_paused = Ok s1 ∧
     event_at 0 s1 = Ok e1 ∧
     triggered e1 = true ∧ TimerRunning (timer e1) = true ∧
     AppEvent_ProcessMainEvents quiet s1 = Ok s2 ∧
     event_at 0 s2 = Ok e2 ∧
     triggered e2 ≠ false ∧
     processCount (diagnostics e2) ≠ processCount (diagnostics e1) + 1 ∧
     invocations 0 s2 ≠ S (invocations 0 s1)) ∧
  (∃ e s1 e1,
     event_at 0 main_timer_worn = Ok e ∧
     type e = EVENT_TYPE_TIMER ∧ context e = APP_EVENT_CONTEXT_MAIN ∧
     single e = false ∧ triggerCount (diagnostics e) = 65535 ∧
     fire_times quiet demo_rand demo_scale 1 0 main_timer_worn = Ok s1 ∧
     event_at 0 s1 = Ok e1 ∧
     triggerCount (diagnostics e1) = 0 ∧
     triggerCount (diagnostics e1) ≠ triggerCount (diagnostics e) + 1).
Proof.
  split.
  - eexists _, _, _, _, _.
    do 10 (split; [vm_compute; reflexivity |]).
    split; [vm_compute; discriminate |].
    split; vm_compute; discriminate.
  - eexists _, _, _.
    do 8 (split; [vm_compute; reflexivity |]).
    vm_compute; discriminate.
Qed.

(** [retrigger_in_callback] on the flagged timer, with the callback at 100
    triggering event 0 again. *)
Lemma retrigger_in_callback_witness :
  ∃ e s' e',
    event_at 0 main_timer_flagged = Ok e ∧
    triggered e = true ∧ callback e = 100 ∧
    AppEvent_ProcessMainEvents retrigger main_timer_flagged = Ok s' ∧
    event_at 0 s' = Ok e' ∧
    triggered e' = true ∧ processCount (diagnostics e') = 1 ∧
    invocations 0 s' = 1%nat.
Proof.
  destruct (retrigger_in_callback retrigger 0 main_timer_flagged
              (event_of (event_at 0 main_timer_flagged)))
    as (_ & s' & e' & Hs' & He' & Ht' & Hp' & Hk').
  - apply registry_okb_sound. vm_compute. reflexivity.
  - vm_compute. reflexivity.
  - vm_compute. reflexivity.
  - vm_compute. reflexivity.
  - vm_compute. reflexivity.
  - vm_compute. reflexivity.
  - vm_compute. reflexivity.
  - intros s0 e0 Hok0 Hi0 He0 Hctx0.
    change (retrigger (callback (event_of (event_at 0 main_timer_flagged))) s0)
      with (AppEvent_Trigger quiet 0 s0).
    rewrite (AppEvent_Trigger_main quiet 0 s0 e0 Hok0 Hi0 He0 Hctx0).
    rewrite (AppEvent_Trigger_main retrigger 0 s0 e0 Hok0 Hi0 He0 Hctx0).
    reflexivity.
  - intros c Hc. apply frames_retrigger_other. exact Hc.
  - exists (event_of (event_at 0 main_timer_flagged)), s', e'.
    split; [vm_compute; reflexivity |].
    split; [vm_compute; reflexivity |].
    split; [vm_compute; reflexivity |].
    split; [exact Hs' |]. split; [exact He' |]. split; [exact Ht' |].
    split; [rewrite Hp'; vm_compute; reflexivity |].
    rewrite Hk'. vm_compute. reflexivity.
Defined.

(** C3, refuted as stated.  With one event registered, the ids 1 and 200
    are out of range: [AppEvent_Trigger] returns with the state as it was,
    and [AppEvent_Start 1] returns after writing slot 1. *)
Lemma unassigned_id_counterexample :
  m_numEvents main_timer = 1 ∧
  AppEvent_Trigger quiet 1 main_timer = Ok main_timer ∧
  AppEvent_Trigger quiet 200 main_timer = Ok main_timer ∧
  AppEvent_Trigger quiet 1 main_timer ≠ Halt ∧
  ∃ s' e e',
    AppEvent_Start demo_rand demo_scale 1 true main_timer = Ok s' ∧
    event_at 1 main_timer = Ok e ∧ event_at 1 s' = Ok e' ∧
    single e = false ∧ single e' = true ∧
    TimerRunning (timer e) = false ∧ TimerRunning (timer e') = true.
Proof.
  split; [vm_compute; reflexivity |].
  split; [vm_compute; reflexivity |].
  split; [vm_compute; reflexivity |].
  split; [vm_compute; discriminate |].
  eexists _, _, _. repeat split; vm_compute; reflexivity.
Qed.

(** [unassigned_id] at id 1, with one event registered. *)
Lemma unassigned_id_witness :
  m_numEvents main_timer ≤ 1 ∧
  AppEvent_Trigger quiet 1 main_timer = Ok main_timer ∧
  ∃ s' e', AppEvent_Start demo_rand demo_scale 1 true main_timer = Ok s' ∧
    event_at 1 s' = Ok e' ∧
    triggered e' = false ∧ single e' = true ∧
    startTime (diagnostics e') = 7 ∧
    TimerRunning (timer e') = true ∧
    m_numEvents s' = 1.
Proof.
  destruct (unassigned_id quiet demo_rand demo_scale 1 true main_timer)
    as (Htrig & _ & Hstart).
  - apply registry_okb_sound. vm_compute. reflexivity.
  - vm_compute. discriminate.
  - split; [vm_compute; discriminate |]. split; [exact Htrig |].
    destruct Hstart as (s' & e' & Hs' & He' & Ht' & Hsg' & Hst' & Hr' & Hn');
      [vm_compute; reflexivity |].
    exists s', e'. repeat split; assumption.
Defined.

(** C4: the code at the failing inputs.  Event 0 is a general event and
    event 1 an interrupt event on a line.  [AppEvent_Running] and
    [AppEvent_TimeRemaining] return on both without halting, and
    [AppEvent_GetTimeout] returns on the general event; of the three
    accessors on the two kinds, only [AppEvent_GetTimeout] on the interrupt
    event halts. *)
Lemma timer_accessors_on_other_kinds :
  ∃ e0 e1,
    event_at 0 general_and_interrupt = Ok e0 ∧ type e0 = EVENT_TYPE_GENERAL ∧
    event_at 1 general_and_interrupt = Ok e1 ∧ type e1 = EVENT_TYPE_INTERRUPT ∧
    AppEvent_Running 0 general_and_interrupt = Ok false ∧
    AppEvent_TimeRemaining demo_remaining 0 general_and_interrupt = Ok 0 ∧
    AppEvent_GetTimeout 0 general_and_interrupt = Ok 0 ∧
    AppEvent_Running 1 general_and_interrupt = Ok false ∧
    AppEvent_TimeRemaining demo_remaining 1 general_and_interrupt = Ok 0 ∧
    AppEvent_GetTimeout 1 general_and_interrupt = Halt.
Proof.
  eexists _, _. repeat split; vm_compute; reflexivity.
Qed.

(** [registration_ids] on one registration through each entry point. *)
Lemma registration_ids_witness :
  register_all four_registrations (AppEvent_Init (boot demo_lines 7 1))
  = Ok ([0; 1; 2; 3], after_four_registrations) ∧
  NoDup [0; 1; 2; 3] ∧
  m_numEvents after_four_registrations = 4 ∧
  (∀ k, k ∈ [0; 1; 2; 3] ↔ k < m_numEvents after_four_registrations) ∧
  (∀ k, k < m_numEvents after_four_registrations →
     ∃ e, event_at k after_four_registrations = Ok e ∧ id e = k).
Proof.
  assert (Hrun : register_all four_registrations
                   (AppEvent_Init (boot demo_lines 7 1))
                 = Ok ([0; 1; 2; 3], after_four_registrations))
    by (vm_compute; reflexivity).
  destruct (registration_ids four_registrations demo_lines 7 1 [0; 1; 2; 3]
              after_four_registrations Hrun)
    as (_ & Hnodup & Hn & Hmem & Hslots).
  split; [exact Hrun |]. split; [exact Hnodup |].
  split; [exact Hn |]. split; [exact Hmem | exact Hslots].
Defined.

(** [immediate_trigger] on the first trigger of an immediate event. *)
Lemma immediate_trigger_witness :
  ∃ e s' e',
    event_at 0 immediate_event = Ok e ∧
    context e = APP_EVENT_CONTEXT_IMMEDIATE ∧
    DoTrigger quiet 0 immediate_event = Ok s' ∧
    event_at 0 s' = Ok e' ∧
    triggerCount (diagnostics e') = 1 ∧ processCount (diagnostics e') = 1 ∧
    triggered e' = false ∧
    invocations 0 s' = 1%nat.
Proof.
  destruct (immediate_trigger quiet 0 immediate_event
              (event_of (event_at 0 immediate_event)))
    as (_ & _ & _ & Htc & Hpc & Htr & Hret).
  - apply registry_okb_sound. vm_compute. reflexivity.
  - vm_compute. reflexivity.
  - vm_compute. reflexivity.
  - vm_compute. reflexivity.
  - destruct Hret as (s' & Hs' & He' & Hk'); [apply frames_quiet |].
    eexists _, s', _.
    split; [vm_compute; reflexivity |].
    split; [vm_compute; reflexivity |].
    split; [exact Hs' |]. split; [exact He' |].
    split; [rewrite Htc; vm_compute; reflexivity |].
    split; [rewrite Hpc; vm_compute; reflexivity |].
    split; [rewrite Htr; vm_compute; reflexivity |].
    rewrite Hk'. vm_compute. reflexivity.
Defined.

(** C6, refuted as stated.  An immediate event whose counters are at
    65535: one more pass through the trigger path takes both to 0, not to
    65536. *)
Lemma immediate_trigger_counterexample :
  ∃ e e',
    event_at 0 immediate_event_worn = Ok e ∧
    context e = APP_EVENT_CONTEXT_IMMEDIATE ∧
    triggerCount (diagnostics e) = 65535 ∧
    processCount (diagnostics e) = 65535 ∧
    (s' <- DoTrigger quiet 0 immediate_event_worn ;; event_at 0 s') = Ok e' ∧
    triggerCount (diagnostics e') = 0 ∧ processCount (diagnostics e') = 0 ∧
    triggerCount (diagnostics e') ≠ triggerCount (diagnostics e) + 1 ∧
    processCount (diagnostics e') ≠ processCount (diagnostics e) + 1.
Proof.
  eexists _, _.
  do 7 (split; [vm_compute; reflexivity |]).
  split; vm_compute; discriminate.
Qed.

(** [SetTimeout_then_GetTimeout] on the flagged timer: the period goes from
    100 to 250 and the pending flag is dropped. *)
Lemma SetTimeout_then_GetTimeout_witness :
  ∃ e s' e',
    event_at 0 main_timer_flagged = Ok e ∧
    type e = EVENT_TYPE_TIMER ∧ triggered e = true ∧ timeout e = 100 ∧
    AppEvent_SetTimeout 0 250 main_timer_flagged = Ok s' ∧
    event_at 0 s' = Ok e' ∧
    triggered e' = false ∧ timeout e' = 250 ∧ ReloadValue (timer e') = 250 ∧
    AppEvent_GetTimeout 0 s' = Ok 250.
Proof.
  destruct (SetTimeout_then_GetTimeout 0 250 main_timer_flagged
              (event_of (event_at 0 main_timer_flagged)))
    as (s' & e' & H).
  - apply registry_okb_sound. vm_compute. reflexivity.
  - vm_compute. reflexivity.
  - vm_compute. reflexivity.
  - eexists _, s', e'.
    split; [vm_compute; reflexivity |].
    split; [vm_compute; reflexivity |].
    split; [vm_compute; reflexivity |].
    split; [vm_compute; reflexivity |]. exact H.
Defined.

(** [pause_resume] on the flagged and paused timer, whose timer is armed. *)
Lemma pause_resume_witness :
  ∃ e s1 s2 e2 s3 e3,
    event_at 0 main_timer_flagged_paused = Ok e ∧
    paused e = true ∧ triggered e = true ∧ admitted e = true ∧
    sweep_times quiet 2 main_timer_flagged_paused = Ok s1 ∧
    event_at 0 s1 = Ok e ∧ invocations 0 s1 = 0%nat ∧
    DoTrigger quiet 0 main_timer_flagged_paused = Ok s2 ∧
    event_at 0 s2 = Ok e2 ∧ triggered e2 = true ∧
    triggerCount (diagnostics e2) = 2 ∧
    (r <- AppEvent_Resume 0 main_timer_flagged_paused ;;
     AppEvent_ProcessMainEvents quiet r) = Ok s3 ∧
    event_at 0 s3 = Ok e3 ∧ triggered e3 = false ∧
    processCount (diagnostics e3) = 1 ∧ invocations 0 s3 = 1%nat.
Proof.
  destruct (pause_resume quiet 0 main_timer_flagged_paused
              (event_of (event_at 0 main_timer_flagged_paused)))
    as (Hsweeps & (s2 & e2 & Hs2 & He2 & Ht2 & _ & Hc2) & Hres).
  - apply registry_okb_sound. vm_compute. reflexivity.
  - vm_compute. reflexivity.
  - vm_compute. reflexivity.
  - vm_compute. reflexivity.
  - vm_compute. reflexivity.
  - intros c. apply frames_quiet.
  - destruct (Hsweeps 2%nat) as (s1 & Hs1 & He1 & Hk1).
    destruct Hres as (r & s3 & e3 & Hr & Hs3 & He3 & Ht3 & Hadm & _);
      [vm_compute; reflexivity |].
    destruct Hadm as (Hp3 & Hk3); [vm_compute; reflexivity |].
    eexists _, s1, s2, e2, s3, e3.
    split; [vm_compute; reflexivity |].
    split; [vm_compute; reflexivity |].
    split; [vm_compute; reflexivity |].
    split; [vm_compute; reflexivity |].
    split; [exact Hs1 |]. split; [exact He1 |].
    split; [rewrite Hk1; vm_compute; reflexivity |].
    split; [exact Hs2 |]. split; [exact He2 |]. split; [exact Ht2 |].
    split; [rewrite Hc2; vm_compute; reflexivity |].
    split; [rewrite Hr; exact Hs3 |].
    split; [exact He3 |]. split; [exact Ht3 |].
    split; [rewrite Hp3; vm_compute; reflexivity |].
    rewrite Hk3. vm_compute. reflexivity.
Defined.

(** C8, refuted as stated.  A continuous main-context timer event is
    flagged, paused, stopped while paused, and resumed: the flag is pending
    and the event is no longer paused, yet the next sweep clears the flag
    without calling the callback. *)
Lemma pause_resume_counterexample :
  ∃ e s' e',
    event_at 0 main_timer_resumed = Ok e ∧
    context e = APP_EVENT_CONTEXT_MAIN ∧
    triggered e = true ∧ paused e = false ∧
    AppEvent_ProcessMainEvents quiet main_timer_resumed = Ok s' ∧
    event_at 0 s' = Ok e' ∧
    triggered e' = false ∧
    processCount (diagnostics e') = processCount (diagnostics e) ∧
    invocations 0 s' = invocations 0 main_timer_resumed ∧
    invocations 0 s' ≠ S (invocations 0 main_timer_resumed).
Proof.
  eexists _, _, _.
  do 9 (split; [vm_compute; reflexivity |]).
  vm_compute; discriminate.
Qed.

(** [stop_keeps_flag] on the flagged timer. *)
Lemma stop_keeps_flag_witness :
  ∃ e s1 e1 s2 e2,
    event_at 0 main_timer_flagged = Ok e ∧
    triggered e = true ∧ triggerCount (diagnostics e) = 1 ∧
    AppEvent_Stop 0 main_timer_flagged = Ok s1 ∧
    event_at 0 s1 = Ok e1 ∧
    triggered e1 = true ∧ triggerCount (diagnostics e1) = 1 ∧
    processCount (diagnostics e1) = 0 ∧
    TimerRunning (timer e1) = false ∧
    AppEvent_ProcessMainEvents quiet s1 = Ok s2 ∧
    event_at 0 s2 = Ok e2 ∧
    triggered e2 = false ∧ processCount (diagnostics e2) = 0 ∧
    invocations 0 s2 = 0%nat.
Proof.
  destruct (stop_keeps_flag quiet 0 main_timer_flagged
              (event_of (event_at 0 main_timer_flagged)))
    as (s1 & e1 & Hs1 & He1 & Ht1 & Hc1 & Hp1 & Hr1 & Hsweep & _).
  - apply registry_okb_sound. vm_compute. reflexivity.
  - vm_compute. reflexivity.
  - vm_compute. reflexivity.
  - intros Hmode. exfalso. apply Hmode. vm_compute. reflexivity.
  - destruct Hsweep as (s2 & e2 & Hs2 & He2 & Ht2 & Hp2 & Hk2).
    + vm_compute. reflexivity.
    + vm_compute. reflexivity.
    + vm_compute. reflexivity.
    + vm_compute. reflexivity.
    + intros c. apply frames_quiet.
    + eexists _, s1, e1, s2, e2.
      split; [vm_compute; reflexivity |].
      split; [vm_compute; reflexivity |].
      split; [vm_compute; reflexivity |].
      split; [exact Hs1 |]. split; [exact He1 |].
      split; [rewrite Ht1; vm_compute; reflexivity |].
      split; [rewrite Hc1; vm_compute; reflexivity |].
      split; [rewrite Hp1; vm_compute; reflexivity |].
      split; [apply Hr1; vm_compute; reflexivity |].
      split; [exact Hs2 |]. split; [exact He2 |]. split; [exact Ht2 |].
      split; [rewrite Hp2; vm_compute; reflexivity |].
      rewrite Hk2. vm_compute. reflexivity.
Defined.

(** C9, refuted as stated.  A continuous main-context timer event is
    flagged, paused and then stopped: the next sweep does not clear the
    stale flag. *)
Lemma stop_keeps_flag_counterexample :
  ∃ e s' e',
    event_at 0 main_timer_paused_stopped = Ok e ∧
    type e = EVENT_TYPE_TIMER ∧ context e = APP_EVENT_CONTEXT_MAIN ∧
    single e = false ∧ triggered e = true ∧
    TimerRunning (timer e) = false ∧
    AppEvent_ProcessMainEvents quiet main_timer_paused_stopped = Ok s' ∧
    event_at 0 s' = Ok e' ∧
    triggered e' = true ∧ triggered e' ≠ false.
Proof.
  eexists _, _, _.
  do 9 (split; [vm_compute; reflexivity |]).
  vm_compute; discriminate.
Qed.

(** [start_discards_pending] on the flagged timer, started again as a
    single-shot timer. *)
Lemma start_discards_pending_witness :
  ∃ e s1 e1 s2,
    event_at 0 main_timer_flagged = Ok e ∧ triggered e = true ∧
    AppEvent_Start demo_rand demo_scale 0 true main_timer_flagged = Ok s1 ∧
    event_at 0 s1 = Ok e1 ∧
    triggered e1 = false ∧ single e1 = true ∧
    startTime (diagnostics e1) = 7 ∧
    TimerRunning (timer e1) = true ∧
    sweep_times quiet 2 s1 = Ok s2 ∧
    event_at 0 s2 = Ok e1 ∧ invocations 0 s2 = 0%nat.
Proof.
  destruct (start_discards_pending quiet demo_rand demo_scale 0 true
              main_timer_flagged (event_of (event_at 0 main_timer_flagged)))
    as (s0 & e0 & s1 & e1 & Heq & He0 & Ht0 & Hs1 & He1 & Ht1 & Hsg1 & Hst1
        & Hp1 & Hr1 & Hsweep).
  - apply registry_okb_sound. vm_compute. reflexivity.
  - vm_compute. reflexivity.
  - vm_compute. reflexivity.
  - intros Hmode. exfalso. apply Hmode. vm_compute. reflexivity.
  - destruct (Hsweep (λ c, frames_quiet 0 c) 2%nat) as (s2 & Hs2 & He2 & Hk2).
    eexists _, s1, e1, s2.
    split; [vm_compute; reflexivity |].
    split; [vm_compute; reflexivity |].
    split; [rewrite Heq; exact Hs1 |].
    split; [exact He1 |]. split; [exact Ht1 |]. split; [exact Hsg1 |].
    split; [rewrite Hst1; vm_compute; reflexivity |].
    split; [apply Hr1; vm_compute; reflexivity |].
    split; [exact Hs2 |]. split; [exact He2 |].
    rewrite Hk2. vm_compute. reflexivity.
Defined.

(** ** The further properties on the scenarios *)

Lemma callbacks_grow_quiet : callbacks_grow quiet.
Proof.
  intros c s s' Hs [= <-]. split; [done |]. split; [lia |].
  intros k e _ He. exists e. split; [done |].
  by unfold same_registration, same_identity.
Qed.

Lemma harmless_quiet (c : N) : harmless quiet c.
Proof. intros s. by exists s. Qed.

(** [reachable_invariants] on the setup, the pending triggers and the
    longer run, in a row. *)
Lemma reachable_invariants_witness :
  run_calls quiet demo_rand demo_scale
    (demo_setup ++ demo_pending_calls ++ demo_run) (boot demo_lines 7 1)
  = Ok after_demo_run ∧
  m_numEvents after_demo_run ≤ MAX_EVENTS ∧
  (∀ k, k < m_numEvents after_demo_run →
     ∃ e, event_at k after_demo_run = Ok e ∧ id e = k ∧ callback e ≠ NULL) ∧
  (∀ k e, event_at k after_demo_run = Ok e →
     type e ≠ EVENT_TYPE_INTERRUPT → irqGpio e = NULL ∧ irqMode e = NO_IRQ) ∧
  (∀ k e, event_at k after_demo_run = Ok e → triggered e = true →
     context e = APP_EVENT_CONTEXT_MAIN).
Proof.
  assert (Hrun : run_calls quiet demo_rand demo_scale
                   (demo_setup ++ demo_pending_calls ++ demo_run)
                   (boot demo_lines 7 1)
                 = Ok after_demo_run) by (vm_compute; reflexivity).
  split; [exact Hrun |].
  exact (reachable_invariants quiet demo_rand demo_scale
           (demo_setup ++ demo_pending_calls ++ demo_run) demo_lines 7 1
           after_demo_run callbacks_grow_quiet Hrun).
Defined.

(** [registry_append_only] between the setup and the end of the run. *)
Lemma registry_append_only_witness :
  run_calls quiet demo_rand demo_scale demo_setup (boot demo_lines 7 1)
  = Ok after_demo_setup ∧
  run_calls quiet demo_rand demo_scale (demo_pending_calls ++ demo_run)
    after_demo_setup
  = Ok after_demo_run ∧
  m_numEvents after_demo_setup ≤ m_numEvents after_demo_run ∧
  ∃ e e', event_at 1 after_demo_setup = Ok e ∧
    event_at 1 after_demo_run = Ok e' ∧
    id e' = id e ∧ callback e' = callback e ∧ context e' = context e ∧
    type e' = type e ∧ irqGpio e' = irqGpio e ∧ irqMode e' = irqMode e ∧
    irqPriority e' = irqPriority e ∧
    timeoutRandomizer e' = timeoutRandomizer e ∧ name e' = name e.
Proof.
  assert (Hrun1 : run_calls quiet demo_rand demo_scale demo_setup
                    (boot demo_lines 7 1)
                  = Ok after_demo_setup) by (vm_compute; reflexivity).
  assert (Hrun2 : run_calls quiet demo_rand demo_scale
                    (demo_pending_calls ++ demo_run) after_demo_setup
                  = Ok after_demo_run) by (vm_compute; reflexivity).
  destruct (registry_append_only quiet demo_rand demo_scale demo_setup
              (demo_pending_calls ++ demo_run) demo_lines 7 1
              after_demo_setup after_demo_run callbacks_grow_quiet Hrun1 Hrun2)
    as (Hn & Hkeep).
  split; [exact Hrun1 |]. split; [exact Hrun2 |]. split; [exact Hn |].
  destruct (Hkeep 1 (event_of (event_at 1 after_demo_setup)))
    as (e' & He' & H).
  - vm_compute. reflexivity.
  - vm_compute. reflexivity.
  - eexists _, e'. split; [vm_compute; reflexivity |].
    split; [exact He' |]. exact H.
Defined.

(** [registration_preconditions] on a request for a timer after
    initialisation: it returns the id 0. *)
Lemma registration_preconditions_witness :
  registry_ok fresh ∧
  (∃ s', register (RegTimer 1 None 100 100 APP_EVENT_CONTEXT_MAIN) fresh
         = Ok (0, s')) ∧
  register (RegTimer 1 None 100 100 APP_EVENT_CONTEXT_MAIN) fresh ≠ Halt.
Proof.
  assert (Hok : registry_ok fresh)
    by (apply registry_okb_sound; vm_compute; reflexivity).
  destruct (registration_preconditions
              (RegTimer 1 None 100 100 APP_EVENT_CONTEXT_MAIN) fresh Hok)
    as (Hret & Hhalt & Hid & _).
  assert (Hpre : m_initialized fresh = true ∧ m_numEvents fresh < MAX_EVENTS ∧
                 valid_request (RegTimer 1 None 100 100 APP_EVENT_CONTEXT_MAIN)).
  { split; [vm_compute; reflexivity |]. split; [vm_compute; reflexivity |].
    split; vm_compute; discriminate. }
  split; [exact Hok |]. split.
  - destruct (proj2 Hret Hpre) as (i & s' & Hs').
    exists s'. rewrite Hs'. by rewrite (Hid i s' Hs').
  - intros Hh. by apply (proj1 Hhalt Hh).
Defined.

(** [registry_capacity] on four requests, and on thirty-three. *)
Lemma registry_capacity_witness :
  Forall valid_request four_registrations ∧
  Forall valid_request too_many_registrations ∧
  (∃ s', register_all four_registrations (AppEvent_Init (boot demo_lines 7 1))
         = Ok ([0; 1; 2; 3], s') ∧ m_numEvents s' = 4) ∧
  register_all too_many_registrations (AppEvent_Init (boot demo_lines 7 1))
  = Halt.
Proof.
  assert (Hfour : Forall valid_request four_registrations).
  { repeat (apply Forall_cons_2; [split; vm_compute; discriminate |]).
    apply Forall_nil_2. }
  assert (Hmany : Forall valid_request too_many_registrations).
  { apply Forall_replicate. split; vm_compute; discriminate. }
  split; [exact Hfour |]. split; [exact Hmany |]. split.
  - destruct (registry_capacity four_registrations demo_lines 7 1 Hfour)
      as (Hfit & _).
    apply Hfit. vm_compute. lia.
  - destruct (registry_capacity too_many_registrations demo_lines 7 1 Hmany)
      as (_ & Hover).
    destruct Hover as (Hhalt & _); [vm_compute; lia | exact Hhalt].
Defined.

(** [Init_keeps_registry] on the state after the run. *)
Lemma Init_keeps_registry_witness :
  run_calls quiet demo_rand demo_scale
    (demo_setup ++ demo_pending_calls ++ demo_run) (boot demo_lines 7 1)
  = Ok after_demo_run ∧
  0 < m_numEvents after_demo_run ∧
  AppEvent_Init after_demo_run = after_demo_run.
Proof.
  assert (Hrun : run_calls quiet demo_rand demo_scale
                   (demo_setup ++ demo_pending_calls ++ demo_run)
                   (boot demo_lines 7 1)
                 = Ok after_demo_run) by (vm_compute; reflexivity).
  assert (Hn : 0 < m_numEvents after_demo_run) by (vm_compute; reflexivity).
  split; [exact Hrun |]. split; [exact Hn |].
  exact (Init_keeps_registry quiet demo_rand demo_scale
           (demo_setup ++ demo_pending_calls ++ demo_run) demo_lines 7 1
           after_demo_run callbacks_grow_quiet Hrun Hn).
Defined.

(** [IsIdle_spec] on the flagged timer, and on the timer before its
    expiry. *)
Lemma IsIdle_spec_witness :
  registry_ok main_timer_flagged ∧ registry_ok main_timer_started ∧
  AppEvent_IsIdle main_timer_flagged = Ok false ∧
  AppEvent_IsIdle main_timer_started = Ok true.
Proof.
  assert (Hok : registry_ok main_timer_flagged)
    by (apply registry_okb_sound; vm_compute; reflexivity).
  assert (Hok' : registry_ok main_timer_started)
    by (apply registry_okb_sound; vm_compute; reflexivity).
  split; [exact Hok |]. split; [exact Hok' |]. split.
  - destruct (IsIdle_spec main_timer_flagged Hok) as (_ & Hbusy).
    apply Hbusy. exists 0, (event_of (event_at 0 main_timer_flagged)).
    split; [vm_compute; reflexivity |].
    split; vm_compute; reflexivity.
  - destruct (IsIdle_spec main_timer_started Hok') as (Hidle & _).
    apply Hidle. intros k e Hk He.
    assert (Hn : m_numEvents main_timer_started = 1)
      by (vm_compute; reflexivity).
    rewrite Hn in Hk. assert (k = 0) as -> by lia.
    vm_compute in He. injection He as <-. reflexivity.
Defined.

(** [sweep_whole_table] on the three events with two pending triggers:
    the timer event is dispatched, the paused interrupt event keeps its
    flag, the immediate event is passed over, and the module is not idle
    after the sweep. *)
Lemma sweep_whole_table_witness :
  registry_ok demo_pending ∧
  ∃ s' e0 e1 e2,
    AppEvent_ProcessMainEvents quiet demo_pending = Ok s' ∧
    event_at 0 s' = Ok e0 ∧ triggered e0 = false ∧
    processCount (diagnostics e0) = 1 ∧
    invocations 0 s' = S (invocations 0 demo_pending) ∧
    event_at 1 s' = Ok e1 ∧ triggered e1 = true ∧
    invocations 1 s' = invocations 1 demo_pending ∧
    event_at 2 s' = Ok e2 ∧ event_at 2 demo_pending = Ok e2 ∧
    invocations 2 s' = invocations 2 demo_pending ∧
    AppEvent_IsIdle s' ≠ Ok true.
Proof.
  assert (Hok : registry_ok demo_pending)
    by (apply registry_okb_sound; vm_compute; reflexivity).
  split; [exact Hok |].
  destruct (sweep_whole_table quiet demo_pending Hok harmless_quiet)
    as (s' & Hs' & _ & Hreg & _ & Hidle).
  destruct (Hreg 0 (event_of (event_at 0 demo_pending))) as (He0 & Hk0);
    [vm_compute; reflexivity | vm_compute; reflexivity |].
  destruct (Hreg 1 (event_of (event_at 1 demo_pending))) as (He1 & Hk1);
    [vm_compute; reflexivity | vm_compute; reflexivity |].
  destruct (Hreg 2 (event_of (event_at 2 demo_pending))) as (He2 & Hk2);
    [vm_compute; reflexivity | vm_compute; reflexivity |].
  eexists s', _, _, _.
  split; [exact Hs' |].
  split; [exact He0 |]. split; [vm_compute; reflexivity |].
  split; [vm_compute; reflexivity |].
  split; [rewrite Hk0; vm_compute; reflexivity |].
  split; [exact He1 |]. split; [vm_compute; reflexivity |].
  split; [rewrite Hk1; vm_compute; reflexivity |].
  split; [exact He2 |]. split; [vm_compute; reflexivity |].
  split; [rewrite Hk2; vm_compute; reflexivity |].
  intros Hi. pose proof (proj1 Hidle Hi) as Hall.
  assert (Hp : paused (event_of (event_at 1 demo_pending)) = false).
  { apply (Hall 1); vm_compute; reflexivity. }
  vm_compute in Hp. discriminate.
Defined.

(** [interrupt_without_listener] on the three events: no descriptor
    listens to interrupt number 9. *)
Lemma interrupt_without_listener_witness :
  registry_ok demo_listening ∧
  OnInterruptEvent quiet 9 demo_listening = Ok demo_listening.
Proof.
  assert (Hok : registry_ok demo_listening)
    by (apply registry_okb_sound; vm_compute; reflexivity).
  split; [exact Hok |].
  apply (interrupt_without_listener quiet 9 demo_listening Hok).
  intros k e Hk He.
  assert (Hn : m_numEvents demo_listening = 3) by (vm_compute; reflexivity).
  rewrite Hn in Hk.
  assert (k = 0 ∨ k = 1 ∨ k = 2) as [-> | [-> | ->]] by lia;
    vm_compute in He; injection He as <-.
  - left. reflexivity.
  - right. eexists. split; [vm_compute; reflexivity | vm_compute; discriminate].
  - left. reflexivity.
Defined.

(** [interrupt_first_listener] on the three events: interrupt number 5
    goes to event 1, which was started as single-shot, so that the line is
    detached. *)
Lemma interrupt_first_listener_witness :
  registry_ok demo_listening ∧
  ∃ e s' e',
    event_at 1 demo_listening = Ok e ∧ irqMode e = IRQ_RISING_EDGE ∧
    single e = true ∧
    gpio_lines demo_listening !! 4096
    = Some (mkGpio 5 true IRQ_RISING_EDGE 0 true) ∧
    OnInterruptEvent quiet 5 demo_listening = Ok s' ∧
    event_at 1 s' = Ok e' ∧ triggered e' = true ∧
    triggerCount (diagnostics e') = 1 ∧
    event_at 0 s' = event_at 0 demo_listening ∧
    event_at 2 s' = event_at 2 demo_listening ∧
    dispatched s' = dispatched demo_listening ∧
    gpio_lines s' !! 4096 = Some (mkGpio 5 false IRQ_RISING_EDGE 0 true).
Proof.
  assert (Hok : registry_ok demo_listening)
    by (apply registry_okb_sound; vm_compute; reflexivity).
  split; [exact Hok |].
  destruct (interrupt_first_listener quiet 5 demo_listening 1
              (event_of (event_at 1 demo_listening))
              (mkGpio 5 true IRQ_RISING_EDGE 0 true) Hok)
    as (s' & Hs' & He' & Hothers & _ & Hlog & Hlines).
  - vm_compute. reflexivity.
  - vm_compute. reflexivity.
  - vm_compute. discriminate.
  - vm_compute. reflexivity.
  - reflexivity.
  - intros j ej Hj Hej. assert (j = 0) as -> by lia.
    vm_compute in Hej. injection Hej as <-. left. reflexivity.
  - vm_compute. reflexivity.
  - eexists _, s', _.
    split; [vm_compute; reflexivity |]. split; [vm_compute; reflexivity |].
    split; [vm_compute; reflexivity |]. split; [vm_compute; reflexivity |].
    split; [exact Hs' |]. split; [exact He' |].
    split; [vm_compute; reflexivity |]. split; [vm_compute; reflexivity |].
    split; [apply Hothers; lia |]. split; [apply Hothers; lia |].
    split; [exact Hlog |]. rewrite Hlines. vm_compute. reflexivity.
Defined.

(** [stop_keeps_pending_dispatch] on the general event, triggered and
    then stopped. *)
Lemma stop_keeps_pending_dispatch_witness :
  registry_ok general_flagged ∧
  ∃ e s1 s2 e2,
    event_at 0 general_flagged = Ok e ∧ type e = EVENT_TYPE_GENERAL ∧
    triggered e = true ∧
    AppEvent_Stop 0 general_flagged = Ok s1 ∧
    AppEvent_ProcessMainEvents quiet s1 = Ok s2 ∧
    event_at 0 s2 = Ok e2 ∧ triggered e2 = false ∧
    processCount (diagnostics e2) = 1 ∧
    invocations 0 s2 = 1%nat.
Proof.
  assert (Hok : registry_ok general_flagged)
    by (apply registry_okb_sound; vm_compute; reflexivity).
  split; [exact Hok |].
  destruct (stop_keeps_pending_dispatch quiet 0 general_flagged
              (event_of (event_at 0 general_flagged)) Hok)
    as (s1 & s2 & e2 & Hs1 & Hs2 & He2 & Ht2 & _ & Hp2 & Hk2).
  - vm_compute. reflexivity.
  - vm_compute. reflexivity.
  - intros Hmode. exfalso. apply Hmode. vm_compute. reflexivity.
  - left. vm_compute. reflexivity.
  - vm_compute. reflexivity.
  - vm_compute. reflexivity.
  - intros c. apply frames_quiet.
  - eexists _, s1, s2, e2.
    split; [vm_compute; reflexivity |]. split; [vm_compute; reflexivity |].
    split; [vm_compute; reflexivity |].
    split; [exact Hs1 |]. split; [exact Hs2 |]. split; [exact He2 |].
    split; [exact Ht2 |]. split; [rewrite Hp2; vm_compute; reflexivity |].
    rewrite Hk2. vm_compute. reflexivity.
Defined.


(** [manual_triggers_coalesce] on three triggers of the general event. *)
Lemma manual_triggers_coalesce_witness :
  registry_ok general_and_interrupt ∧
  ∃ s1 e1 s2 e2,
    trigger_times quiet 3 0 general_and_interrupt = Ok s1 ∧
    event_at 0 s1 = Ok e1 ∧ triggered e1 = true ∧
    triggerCount (diagnostics e1) = 3 ∧
    invocations 0 s1 = 0%nat ∧
    AppEvent_ProcessMainEvents quiet s1 = Ok s2 ∧
    event_at 0 s2 = Ok e2 ∧ triggered e2 = false ∧
    processCount (diagnostics e2) = 1 ∧
    invocations 0 s2 = 1%nat.
Proof.
  assert (Hok : registry_ok general_and_interrupt)
    by (apply registry_okb_sound; vm_compute; reflexivity).
  split; [exact Hok |].
  destruct (manual_triggers_coalesce quiet 0 3 general_and_interrupt
              (event_of (event_at 0 general_and_interrupt)) Hok)
    as (Hs1 & Hsweep).
  - vm_compute. reflexivity.
  - vm_compute. reflexivity.
  - vm_compute. reflexivity.
  - lia.
  - destruct Hsweep as (s2 & Hs2 & He2 & Hk2).
    + vm_compute. reflexivity.
    + vm_compute. reflexivity.
    + intros c. apply frames_quiet.
    + eexists _, _, s2, _.
      split; [exact Hs1 |]. split; [vm_compute; reflexivity |].
      split; [vm_compute; reflexivity |]. split; [vm_compute; reflexivity |].
      split; [vm_compute; reflexivity |].
      split; [exact Hs2 |]. split; [exact He2 |].
      split; [vm_compute; reflexivity |]. split; [vm_compute; reflexivity |].
      rewrite Hk2. vm_compute. reflexivity.
Defined.

(** [trigger_immediate_event] on the first trigger of the immediate
    event. *)
Lemma trigger_immediate_event_witness :
  registry_ok immediate_event ∧
  ∃ e s',
    event_at 0 immediate_event = Ok e ∧
    context e = APP_EVENT_CONTEXT_IMMEDIATE ∧
    AppEvent_Trigger quiet 0 immediate_event = Ok s' ∧
    event_at 0 s' = Ok (count_immediate e) ∧
    invocations 0 s' = 1%nat.
Proof.
  assert (Hok : registry_ok immediate_event)
    by (apply registry_okb_sound; vm_compute; reflexivity).
  split; [exact Hok |].
  eexists (event_of (event_at 0 immediate_event)), _.
  split; [vm_compute; reflexivity |]. split; [vm_compute; reflexivity |].
  split.
  - apply (trigger_immediate_event quiet 0 immediate_event _
             (event_of (event_at 0 immediate_event)) Hok).
    + vm_compute. reflexivity.
    + vm_compute. reflexivity.
    + vm_compute. reflexivity.
    + reflexivity.
    + apply registry_okb_sound. vm_compute. reflexivity.
    + vm_compute. reflexivity.
  - split; vm_compute; reflexivity.
Defined.

(** [pause_resume_round_trip] on the started timer, and on the immediate
    event. *)
Lemma pause_resume_round_trip_witness :
  (s1 <- AppEvent_Pause 0 main_timer_started ;; AppEvent_Resume 0 s1)
  = Ok main_timer_started ∧
  AppEvent_Pause 0 immediate_event = Halt ∧
  AppEvent_Resume 0 immediate_event = Halt.
Proof.
  destruct (pause_resume_round_trip 0 main_timer_started
              (event_of (event_at 0 main_timer_started)))
    as (_ & Hmain); [vm_compute; reflexivity |].
  destruct (pause_resume_round_trip 0 immediate_event
              (event_of (event_at 0 immediate_event)))
    as (Himm & _); [vm_compute; reflexivity |].
  split.
  - destruct Hmain as (Hround & _); [vm_compute; reflexivity |].
    apply Hround. vm_compute. reflexivity.
  - apply Himm. vm_compute. reflexivity.
Defined.

(** [sweeps_pass_immediate] on the immediate event of the run: three more
    sweeps do not call its callback. *)
Lemma sweeps_pass_immediate_witness :
  run_calls quiet demo_rand demo_scale
    (demo_setup ++ demo_pending_calls ++ demo_run) (boot demo_lines 7 1)
  = Ok after_demo_run ∧
  ∃ e s',
    event_at 2 after_demo_run = Ok e ∧
    context e = APP_EVENT_CONTEXT_IMMEDIATE ∧
    sweep_times quiet 3 after_demo_run = Ok s' ∧
    event_at 2 s' = Ok e ∧
    invocations 2 s' = 1%nat.
Proof.
  assert (Hrun : run_calls quiet demo_rand demo_scale
                   (demo_setup ++ demo_pending_calls ++ demo_run)
                   (boot demo_lines 7 1)
                 = Ok after_demo_run) by (vm_compute; reflexivity).
  split; [exact Hrun |].
  destruct (sweeps_pass_immediate quiet demo_rand demo_scale
              (demo_setup ++ demo_pending_calls ++ demo_run) demo_lines 7 1
              after_demo_run 2 (event_of (event_at 2 after_demo_run)) 3
              callbacks_grow_quiet Hrun)
    as (s' & Hs' & He' & Hk').
  - vm_compute. reflexivity.
  - vm_compute. reflexivity.
  - vm_compute. reflexivity.
  - intros c. apply frames_quiet.
  - eexists _, s'.
    split; [vm_compute; reflexivity |]. split; [vm_compute; reflexivity |].
    split; [exact Hs' |]. split; [exact He' |].
    rewrite Hk'. vm_compute. reflexivity.
Defined.

(** [generic_names] on the two unnamed events of the setup. *)
Lemma generic_names_witness :
  ∃ e0 e1,
    event_at 0 after_demo_setup = Ok e0 ∧ event_at 1 after_demo_setup = Ok e1 ∧
    name e0 = None ∧ name e1 = None ∧
    GetEventName e0 = "EVENT0" ∧ GetEventName e1 = "EVENT1" ∧
    (String.length (GetEventName e1) + 1 ≤ GENERIC_NAME_SIZE)%nat ∧
    GetEventName e0 ≠ GetEventName e1.
Proof.
  destruct (generic_names (event_of (event_at 1 after_demo_setup))
              (event_of (event_at 0 after_demo_setup)))
    as (Hfit & Hinj).
  - vm_compute. reflexivity.
  - vm_compute. reflexivity.
  - eexists _, _.
    split; [vm_compute; reflexivity |]. split; [vm_compute; reflexivity |].
    split; [vm_compute; reflexivity |]. split; [vm_compute; reflexivity |].
    split; [vm_compute; reflexivity |]. split; [vm_compute; reflexivity |].
    split; [exact Hfit |].
    intros Heq. apply Hinj in Heq; [| vm_compute; reflexivity].
    vm_compute in Heq. discriminate.
Defined.

(** [interrupt_start_stop] on the interrupt event of
    [general_and_interrupt]. *)
Lemma interrupt_start_stop_witness :
  ∃ e s1 s2,
    event_at 1 general_and_interrupt = Ok e ∧
    irqMode e = IRQ_RISING_EDGE ∧ irqGpio e = 4096 ∧
    gpio_lines general_and_interrupt !! 4096
    = Some (mkGpio 5 false NO_IRQ 0 false) ∧
    AppEvent_Start demo_rand demo_scale 1 false general_and_interrupt = Ok s1 ∧
    gpio_lines s1 !! 4096 = Some (mkGpio 5 true IRQ_RISING_EDGE 0 true) ∧
    AppEvent_Stop 1 s1 = Ok s2 ∧
    event_at 1 s2 = event_at 1 s1 ∧
    gpio_lines s2 !! 4096 = Some (mkGpio 5 false IRQ_RISING_EDGE 0 true).
Proof.
  destruct (interrupt_start_stop demo_rand demo_scale 1 false
              general_and_interrupt
              (event_of (event_at 1 general_and_interrupt))
              (mkGpio 5 false NO_IRQ 0 false))
    as (s1 & s2 & e1 & Hs1 & He1 & _ & _ & _ & Hl1 & Hs2 & He2 & Hl2).
  - vm_compute. reflexivity.
  - vm_compute. discriminate.
  - vm_compute. reflexivity.
  - eexists _, s1, s2.
    split; [vm_compute; reflexivity |]. split; [vm_compute; reflexivity |].
    split; [vm_compute; reflexivity |]. split; [vm_compute; reflexivity |].
    split; [exact Hs1 |]. split; [exact Hl1 |]. split; [exact Hs2 |].
    split; [by rewrite He1, He2 |]. exact Hl2.
Defined.
